(** * docbot: build-trigger bot

    A shallow embedding of [docbot.py]: the process runner with its
    two-channel line multiplexer ([Popen]), the build environment and the
    builds ([BuildEnvironment], [Build], [BuildAndMove]), the projects with
    their trigger tables ([Project]) and the bot itself ([DocBot]).

    Python objects are records, exceptions are an inductive type, and every
    method that has an effect is a function in the state-and-exception monad
    [M] over the state it touches: the directories, the current directory,
    the processes started and the messages sent ([World]), the bot's own
    attributes, and the build objects of a configuration with the project
    each of them names.  What the program cannot decide itself is a
    parameter of the method that meets it: the children that are spawned
    ([spawn]), the name of a temporary directory ([mkdtemp]), the decoding of
    output ([decode]), the evaluation of the configuration document
    ([exec_conf]) and the names bound in the module ([globals]).

    The definitions come first; the properties (C1 to C10) follow them. *)

From Stdlib Require Import ZArith String Ascii List Strings.Byte Lia.
From stdpp Require Import base list strings option pretty.

Open Scope string_scope.
Open Scope list_scope.

(** ** Exceptions and the effect monad *)

(** The exceptions the program can meet.  All of them derive from
    [Exception] in Python, so [except Exception] and a bare [except] catch
    the same ones here. *)
Inductive exn : Type :=
| CalledProcessError (returncode : Z) (cmd : string)
| IndexError
| KeyError
| AttributeError (what : string)
| NameError (name : string)
| TypeError (what : string)
| SyntaxError
| OSError (what : string)
| UnicodeDecodeError
| ValueError_format (what : string)   (* the [ValueError] of [str.format] *)
| ConfigError (what : string).

Inductive outcome (A : Type) : Type :=
| Ret (a : A)
| Raise (e : exn).
Arguments Ret {A} a.
Arguments Raise {A} e.

(** A computation over a state [St]: it returns or raises, and in both cases
    leaves a state behind (what was done before a [raise] stays done). *)
Definition M (St A : Type) : Type := St -> outcome A * St.

#[global] Instance M_ret {St} : MRet (M St) := fun A a s => (Ret a, s).
#[global] Instance M_bind {St} : MBind (M St) := fun A B f c s =>
  match c s with
  | (Ret a, s') => f a s'
  | (Raise e, s') => (Raise e, s')
  end.

Definition raise {St A} (e : exn) : M St A := fun s => (Raise e, s).
Definition get {St} : M St St := fun s => (Ret s, s).
Definition modify {St} (f : St -> St) : M St unit := fun s => (Ret tt, f s).

(** [try: c except: h] where the handler sees the exception. *)
Definition try_except {St A} (c : M St A) (h : exn -> M St A) : M St A := fun s =>
  match c s with
  | (Ret a, s') => (Ret a, s')
  | (Raise e, s') => h e s'
  end.

(** [try: c finally: f]: [f] runs on both ways out; an exception raised by
    [f] replaces the pending one. *)
Definition try_finally {St A} (c : M St A) (f : M St unit) : M St A := fun s =>
  match c s with
  | (r, s') =>
      match f s' with
      | (Ret _, s'') => (r, s'')
      | (Raise e, s'') => (Raise e, s'')
      end
  end.

(** [for x in l: body x]. *)
Fixpoint for_each {St A} (l : list A) (body : A -> M St unit) : M St unit :=
  match l with
  | [] => mret tt
  | x :: l' => body x ;; for_each l' body
  end.

(** A [for] loop that threads the local variables [a] through its body. *)
Fixpoint for_fold {St A B} (l : list B) (body : A -> B -> M St A) (a : A) : M St A :=
  match l with
  | [] => mret a
  | x :: l' => a' ← body a x; for_fold l' body a'
  end.

(** ** Python values used by the program *)

Definition bytes : Type := list byte.

Definition nl : byte := x0a.

(** Whether [buf] holds a newline byte. *)
Definition has_newline (buf : bytes) : bool := existsb (Byte.eqb nl) buf.

(** [buf.split] at the newline byte: the segments between the separators; one more
    segment than there are separators. *)
Fixpoint bytes_split (buf : bytes) : list bytes :=
  match buf with
  | [] => [[]]
  | c :: rest =>
      if Byte.eqb nl c then [] :: bytes_split rest
      else match bytes_split rest with
           | seg :: segs => (c :: seg) :: segs
           | [] => [[c]]
           end
  end.

(** [l[i]] and [del l[i]]: an index out of range raises [IndexError]. *)
Definition py_index {St A} (l : list A) (i : nat) : M St A :=
  match l !! i with
  | Some x => mret x
  | None => raise IndexError
  end.

Definition py_del {St A} (l : list A) (i : nat) : M St (list A) :=
  if decide (i < length l) then mret (delete i l) else raise IndexError.

(** [enumerate(l)] *)
Definition enumerate {A} (l : list A) : list (nat * A) := imap (fun i x => (i, x)) l.

(** [sep.join(l)] *)
Definition join (sep : string) (l : list string) : string := String.concat sep l.

(** [s.split(sep)] for a separator of one character. *)
Fixpoint str_split (sep : ascii) (s : string) : list string :=
  match s with
  | EmptyString => [EmptyString]
  | String c s' =>
      if Ascii.eqb sep c then EmptyString :: str_split sep s'
      else match str_split sep s' with
           | seg :: segs => String c seg :: segs
           | [] => [String c EmptyString]
           end
  end.

(** [str.encode()]: strings are kept as their UTF-8 bytes. *)
Definition encode (s : string) : bytes := list_byte_of_string s.

(** ** The host: child processes, directories, the chat transport *)

(** The two output channels of a child. *)
Inductive fd : Type := stdout | stderr.

(** What one [select.select(rlist, [], [])] reports as readable.  The call
    has no timeout, so it returns a non-empty part of [rlist]: all of it,
    its first entry alone or its last entry alone. *)
Inductive ready : Type := AllReady | FirstReady | LastReady.

Definition select (r : ready) (rlist : list fd) : list fd :=
  match r, rlist with
  | FirstReady, f :: _ => [f]
  | LastReady, f :: rest => [List.last rest f]
  | _, _ => rlist
  end.

(** [fd.readline()] on a blocking pipe: the bytes up to and including the
    next newline, or what is left when the channel ends without one; empty
    at end of file.  Returns the line and the rest of the pipe. *)
Fixpoint readline (p : bytes) : bytes * bytes :=
  match p with
  | [] => ([], [])
  | c :: rest =>
      if Byte.eqb nl c then ([c], rest)
      else let '(line, rest') := readline rest in (c :: line, rest')
  end.

(** The first argument of [Popen]: an argument vector, or a single string
    naming the program (the entries of [commands=["make"]] are strings). *)
Inductive command : Type :=
| Argv (argv : list string)
| Prog (name : string).

(** [" ".join(call)]; joining a string puts the space between its
    characters. *)
Definition join_call (call : command) : string :=
  match call with
  | Argv argv => join " " argv
  | Prog name => join " " (map (fun c => String c EmptyString) (list_ascii_of_string name))
  end.

(** What a child process does once it is started. *)
Record child : Type := Child {
  spawn_error : option exn;          (* the spawn itself fails *)
  child_stdout : bytes;              (* all it writes to stdout *)
  child_stderr : bytes;              (* all it writes to stderr *)
  child_ready : list ready;          (* what select reports, turn by turn *)
  returncode : Z;                    (* what wait() returns *)
  child_dirs : list string -> list string   (* what it does to the directories *)
}.

(** The text of a chat message: a plain string, or what
    [traceback.format_exception] makes of the exception being handled
    ([None]: no exception is being handled). *)
Inductive text : Type :=
| Text (s : string)
| Traceback (handled : option exn).

(** An incoming chat message. *)
Record message : Type := Message {
  msg_type : string;
  msg_from : string;
  msg_body : string;
  msg_mucnick : string
}.

(** What [print] writes. *)
Inductive printed : Type :=
| PStr (s : string)
| PRepobranch (repo : option string) (branch : string)
| PRepobranchMap (keys : list (string * string)).

(** What the bot does to the outside: [send_message], [reply], [print]. *)
Inductive event : Type :=
| SendMessage (mto : string) (mbody : text) (msubject : option string) (mtype : string)
| Reply (msg : message) (body : text)
| Print (what : printed).

Record World : Type := mkWorld {
  dirs : list string;            (* the directories that exist *)
  cwd : string;
  spawned : list command;        (* every spawn attempt, oldest first *)
  events : list event;           (* oldest first *)
  configs : string -> option string  (* docbot_config.py, by directory *)
}.

Definition set_dirs (f : list string -> list string) (w : World) : World :=
  mkWorld (f (dirs w)) (cwd w) (spawned w) (events w) (configs w).
Definition set_cwd (d : string) (w : World) : World :=
  mkWorld (dirs w) d (spawned w) (events w) (configs w).
Definition add_spawned (c : command) (w : World) : World :=
  mkWorld (dirs w) (cwd w) (spawned w ++ [c]) (events w) (configs w).
Definition add_event (e : event) (w : World) : World :=
  mkWorld (dirs w) (cwd w) (spawned w) (events w ++ [e]) (configs w).

(** A line sink: the callback that receives the output of a child. *)
Definition sink : Type := bytes -> M World unit.

(** ** The process runner *)

Module Popen.

(** The local variables of [communicate] and what is still unread in the
    two pipes. *)
Record mux : Type := Mux {
  buffers : list bytes;
  rlist : list fd;
  pipe_out : bytes;
  pipe_err : bytes
}.

Definition pipe (m : mux) (f : fd) : bytes :=
  match f with stdout => pipe_out m | stderr => pipe_err m end.

Definition set_pipe (m : mux) (f : fd) (b : bytes) : mux :=
  match f with
  | stdout => Mux (buffers m) (rlist m) b (pipe_err m)
  | stderr => Mux (buffers m) (rlist m) (pipe_out m) b
  end.

Definition set_buffers (m : mux) (bs : list bytes) : mux :=
  Mux bs (rlist m) (pipe_out m) (pipe_err m).

Definition set_rlist (m : mux) (rl : list fd) : mux :=
  Mux (buffers m) rl (pipe_out m) (pipe_err m).

Section Communicate.
Context {St : Type}.
Variable sink_line_call : bytes -> M St unit.

(** [Popen._submit_buffer] *)
Definition _submit_buffer (buf : bytes) (force : bool) : M St bytes :=
  if negb (has_newline buf) then
    if force then
      sink_line_call buf ;; mret []
    else
      mret buf
  else
    let split := bytes_split buf in
    for_each (removelast split) (fun line => sink_line_call buf) ;;
    mret (List.last split []).

(** The body of [for i, fd in enumerate(reversed(rs))], with
    [n = len(rs)]. *)
Definition service (n : nat) (m : mux) (ifd : nat * fd) : M St mux :=
  let '(i, f) := ifd in
  let '(read, rest) := readline (pipe m f) in
  let m := set_pipe m f rest in
  if decide (length read = 0) then
    rl ← py_del (rlist m) (n - (i + 1));
    let m := set_rlist m rl in
    buf ← py_index (buffers m) (n - (i + 1));
    (if decide (length buf = 0) then mret []
     else _submit_buffer buf true) ;;
    bs ← py_del (buffers m) (n - (i + 1));
    mret (set_buffers m bs)
  else
    old ← py_index (buffers m) i;
    let m := set_buffers m (<[i := old ++ read]> (buffers m)) in
    cur ← py_index (buffers m) i;
    left ← _submit_buffer cur false;
    mret (set_buffers m (<[i := left]> (buffers m))).

(** One turn of the [while True] loop, up to the test of [rlist]. *)
Definition turn (r : ready) (m : mux) : M St mux :=
  let rs := select r (rlist m) in
  for_fold (enumerate (reverse rs)) (service (length rs)) m.

(** What bounds the number of turns: every turn reads from a pipe or
    drops a channel. *)
Definition measure (m : mux) : nat :=
  length (pipe_out m) + length (pipe_err m) + length (rlist m).

(** The [while True] loop.  [sched] lists what [select] reports turn by
    turn; once it is used up every channel left is readable (the child
    has exited).  With [measure m <= fuel] the fuel is never used up
    ([loop_fuel]). *)
Fixpoint loop (fuel : nat) (sched : list ready) (m : mux) : M St mux :=
  match fuel with
  | 0 => mret m
  | S fuel' =>
      m' ← turn (hd AllReady sched) m;
      if decide (length (rlist m') = 0) then mret m'
      else loop fuel' (tl sched) m'
  end.

(** [Popen.communicate] when a sink is set; it returns [None, None]. *)
Definition communicate_sink (out err : bytes) (sched : list ready) : M St unit :=
  let m := Mux [[]; []] [stdout; stderr] out err in
  m' ← loop (measure m) sched m;
  for_each (buffers m') (fun buf => _submit_buffer buf true ;; mret tt).

End Communicate.

Section Checked.
(** The child that the [n]-th spawn of the run starts for a command. *)
Variable spawn : nat -> command -> child.

(** [Popen.__init__]: start the child, then echo the command line to the
    sink. *)
Definition __init__ (call : command) (sink_line_call : option sink) : M World child :=
  w ← get;
  let proc := spawn (length (spawned w)) call in
  modify (add_spawned call) ;;
  match spawn_error proc with
  | Some e => raise e
  | None =>
      modify (set_dirs (child_dirs proc)) ;;
      match sink_line_call with
      | Some f => f (encode ("$ " +:+ join_call call))
      | None => mret tt
      end ;;
      mret proc
  end.

(** [Popen.communicate]; without a sink no channel is captured. *)
Definition communicate (proc : child) (sink_line_call : option sink) : M World unit :=
  match sink_line_call with
  | Some f => communicate_sink f (child_stdout proc) (child_stderr proc) (child_ready proc)
  | None => mret tt
  end.

(** [Popen.checked] *)
Definition checked (call : command) (sink_line_call : option sink) : M World unit :=
  proc ← __init__ call sink_line_call;
  result ← communicate proc sink_line_call;
  let retval := returncode proc in
  if decide (retval ≠ 0%Z) then
    raise (CalledProcessError retval (join_call call))
  else
    mret result.

End Checked.

End Popen.

(** ** Directories

    [dirs] lists directories by their absolute name without [.], [..] or
    empty segments; a directory above one that is listed exists as well,
    and so does the root.  A name is resolved as the system does it,
    against the current directory when it is relative (links are not
    modelled). *)

(** [os.path.join(a, b)] for a relative [b]. *)
Definition path_join (a b : string) : string :=
  if decide (a = EmptyString) then b
  else if String.eqb (substring (String.length a - 1) 1 a) "/" then a +:+ b
  else a +:+ "/" +:+ b.

(** The segments of a name with [.], [..] and empty segments resolved. *)
Definition norm_segments (segs : list string) : list string :=
  fold_left
    (fun stack seg =>
       if decide (seg = EmptyString) then stack
       else if decide (seg = ".") then stack
       else if decide (seg = "..") then removelast stack
       else stack ++ [seg])
    segs [].

Definition normpath (p : string) : string :=
  "/" +:+ String.concat "/" (norm_segments (str_split "/" p)).

(** The directory a name stands for in [w]. *)
Definition resolve (w : World) (p : string) : string :=
  normpath (if String.prefix "/" p then p else cwd w +:+ "/" +:+ p).

(** [p] is the directory [d] or lies below it. *)
Definition below (d p : string) : bool :=
  String.eqb d p || String.prefix (d +:+ "/") p.

(** Whether the name [p] stands for a directory of [w]; the empty name
    stands for none. *)
Definition exists_dir (w : World) (p : string) : bool :=
  negb (String.eqb p EmptyString)
  && (String.eqb (resolve w p) "/" || existsb (below (resolve w p)) (dirs w)).

(** The directory [a] and those above it, the root apart. *)
Definition with_parents (a : string) : list string :=
  let segs := norm_segments (str_split "/" a) in
  map (fun k => "/" +:+ String.concat "/" (take k segs)) (reverse (seq 1 (length segs))).

(** What [os.makedirs] adds for the directory [a]. *)
Definition made (a : string) (ds : list string) : list string :=
  filter (fun q => q ∉ ds) (with_parents a) ++ ds.

(** [os.path.isdir] *)
Definition isdir (d : string) : M World bool :=
  w ← get; mret (exists_dir w d).

(** [os.makedirs]: the directory must not exist yet, and a relative name
    needs a current directory that still exists. *)
Definition makedirs (d : string) : M World unit :=
  w ← get;
  if decide (d = EmptyString) then raise (OSError "makedirs")
  else if exists_dir w d then raise (OSError "makedirs")
  else if negb (String.prefix "/" d) && negb (exists_dir w (cwd w)) then
    raise (OSError "makedirs")
  else modify (set_dirs (made (resolve w d))).

(** [os.chdir] *)
Definition chdir (d : string) : M World unit :=
  w ← get;
  if exists_dir w d then modify (set_cwd (resolve w d)) else raise (OSError "chdir").

(** What [open("docbot_config.py")] finds: the file of the current
    directory, if that directory is still there and holds one.  (No
    process is taken to write a file of that name.) *)
Definition docbot_config (w : World) : option string :=
  if exists_dir w (cwd w) then configs w (cwd w) else None.

(** [shutil.rmtree(d)]: [d] goes, with all that is below it. *)
Definition rmtree (d : string) (ds : list string) : list string :=
  filter (fun p => below d p = false) ds.

(** ** BuildEnvironment *)

Module BuildEnvironment.

(** [tmp_dir_context] holds the name of the [TemporaryDirectory] the
    environment owns, if it owns one. *)
Record t : Type := Make {
  tmp_dir_context : option string;
  tmp_dir : option string;
  repo_url : string;
  branch : string;
  submodules : list string;
  log_func : option sink
}.

Definition __init__ (tmp_dir : option string) (repo_url branch : string)
    (submodules : list string) (log_func : option sink) : t :=
  Make None tmp_dir repo_url branch submodules log_func.

Definition set_tmp (self : t) (ctx : option string) (d : option string) : t :=
  Make ctx d (repo_url self) (branch self) (submodules self) (log_func self).

Section Methods.
Variable spawn : nat -> command -> child.
(** The name [tempfile] picks, given the directories that exist. *)
Variable mkdtemp : list string -> string.

(** [tempfile.TemporaryDirectory()] *)
Definition TemporaryDirectory : M World string :=
  w ← get;
  let name := mkdtemp (dirs w) in
  modify (set_dirs (cons name)) ;;
  mret name.

(** [TemporaryDirectory.cleanup()] *)
Definition cleanup (name : string) : M World unit :=
  modify (set_dirs (rmtree name)).

(** The [try] block of [__enter__], for the directory [d]. *)
Definition acquire (self : t) (d : string) : M World unit :=
  let checked call := Popen.checked spawn call (log_func self) in
  there ← isdir d;
  (if negb there then makedirs d else mret tt) ;;
  chdir d ;;
  has_git ← isdir (path_join d ".git");
  (if (has_git : bool) then
     checked (Argv ["git"; "fetch"; "origin"])
   else
     checked (Argv ["git"; "clone"; repo_url self; d])) ;;
  checked (Argv ["git"; "checkout"; branch self]) ;;
  checked (Argv ["git"; "pull"]) ;;
  for_each (submodules self) (fun submodule =>
    checked (Argv ["git"; "submodule"; "init"; submodule]) ;;
    checked (Argv ["git"; "submodule"; "update"; submodule])).

(** [BuildEnvironment.__enter__]; returns [self] as it is afterwards. *)
Definition __enter__ (self : t) : M World t :=
  self ← match tmp_dir self with
         | None =>
             name ← TemporaryDirectory;
             mret (set_tmp self (Some name) (Some name))
         | Some _ => mret self
         end;
  try_except
    (match tmp_dir self with
     | Some d => acquire self d
     | None => raise (TypeError "tmp_dir")
     end ;;
     mret self)
    (fun e =>
       match tmp_dir_context self with
       | Some name => cleanup name
       | None => mret tt
       end ;;
       raise e).

(** [BuildEnvironment.__exit__] *)
Definition __exit__ (self : t) : M World bool :=
  match tmp_dir_context self with
  | Some name => cleanup name
  | None => mret tt
  end ;;
  mret false.

(** [with env as e: body e] *)
Definition with_env {A} (env : t) (body : t -> M World A) : M World A :=
  e ← __enter__ env;
  try_finally (body e) (__exit__ e ;; mret tt).

End Methods.

End BuildEnvironment.

(** ** Build, BuildAndMove, Project *)

(** What a build reads of the project that owns it ([build.project]). *)
Record project_attrs : Type := ProjectAttrs {
  project_name : string;
  repository_url : string;
  pubsub_name : option string;
  project_working_copy : option string
}.

(** What a constructor that checks its arguments gives: the object, or the
    [ValueError] it raises. *)
Inductive declared (A : Type) : Type :=
| Declared (a : A)
| ValueError (what : string).
Arguments Declared {A} a.
Arguments ValueError {A} what.

(** [a or b] on optional strings: [None] and the empty string are false. *)
Definition py_or (a b : option string) : option string :=
  match a with
  | Some s => if decide (s = EmptyString) then b else a
  | None => b
  end.

(** [Project.build_environment] *)
Definition project_build_environment (p : project_attrs) (log_func : option sink)
    (branch : string) (submodules : list string) (working_copy : option string)
    : BuildEnvironment.t :=
  BuildEnvironment.__init__
    (py_or working_copy (project_working_copy p))
    (repository_url p) branch submodules log_func.

Module Build.

(** A build that a project owns: [project] is set by [Project.__init__]. *)
Record t : Type := Make {
  name : string;
  branch : string;
  submodules : list string;
  commands : list command;
  working_copy : option string;
  project : project_attrs
}.

(** [Build.__init__]: a keyword argument that is not given is [None] here.
    The build has no [project] until a [Project] takes it, so the result
    waits for the attributes of its project. *)
Definition __init__ (name : string) (branch : option string)
    (submodules : option (list string)) (commands : option (list command))
    (working_copy : option string) : project_attrs -> t :=
  fun project =>
    Make name (default "master" branch) (default [] submodules)
      (default [Prog "make"] commands) working_copy project.

Section Methods.
Variable spawn : nat -> command -> child.
Variable mkdtemp : list string -> string.

(** [Build.build_environment] *)
Definition build_environment (self : t) (log_func : option sink) : BuildEnvironment.t :=
  project_build_environment (project self) log_func
    (branch self) (submodules self) (working_copy self).

(** [Build._do_build] *)
Definition _do_build (self : t) (env : BuildEnvironment.t) : M World unit :=
  let checked call := Popen.checked spawn call (BuildEnvironment.log_func env) in
  for_each (commands self) (fun command => checked command).

(** [Build.build]; [do_build] is the [_do_build] of the object's class. *)
Definition build (do_build : BuildEnvironment.t -> M World unit)
    (self : t) (log_func : option sink) : M World unit :=
  BuildEnvironment.with_env spawn mkdtemp (build_environment self log_func) do_build.

End Methods.

End Build.

Module BuildAndMove.

Record t : Type := Make {
  base : Build.t;
  move_to : string;
  move_from : option string
}.

(** [BuildAndMove.__init__] *)
Definition __init__ (name : string) (branch : option string)
    (submodules : option (list string)) (commands : option (list command))
    (working_copy : option string) (move_to move_from : option string)
    : declared (project_attrs -> t) :=
  let base := Build.__init__ name branch submodules commands working_copy in
  match move_to with
  | Some dest =>
      if decide (dest = EmptyString) then
        ValueError "Required parameter move_to missing or empty."
      else
        Declared (fun project => Make (base project) dest move_from)
  | None => ValueError "Required parameter move_to missing or empty."
  end.

Section Methods.
Variable spawn : nat -> command -> child.
(** [template.format(builddir=d)] *)
Variable format_builddir : string -> option string -> outcome string.

(** [BuildAndMove._do_build] *)
Definition _do_build (self : t) (env : BuildEnvironment.t) : M World unit :=
  let checked call := Popen.checked spawn call (BuildEnvironment.log_func env) in
  Build._do_build spawn (base self) env ;;
  move_from ← match move_from self with
              | Some template =>
                  match format_builddir template (BuildEnvironment.tmp_dir env) with
                  | Ret s => mret (Some s)
                  | Raise e => raise e
                  end
              | None => mret (BuildEnvironment.tmp_dir env)
              end;
  checked (Argv ["rm"; "-rf"; move_to self]) ;;
  match move_from with
  | Some source => checked (Argv ["mv"; source; move_to self])
  | None => raise (TypeError "argv")
  end.

End Methods.

End BuildAndMove.

(** A build of either class. *)
Inductive build_obj : Type :=
| ABuild (b : Build.t)
| ABuildAndMove (b : BuildAndMove.t).

Definition build_of (o : build_obj) : Build.t :=
  match o with
  | ABuild b => b
  | ABuildAndMove b => BuildAndMove.base b
  end.

(** ** Build objects

    [Build(...)] makes an object without the attribute [project];
    [Project.__init__] assigns it to every build it is given (line 186),
    in place, so a build that is handed to a second project belongs to
    that one from then on.  The builds a configuration document makes are
    therefore kept in a store, by address: what the constructor has set,
    as a function of the project, and the project once it is assigned. *)
Record build_cell : Type := Cell {
  cell_made : project_attrs -> build_obj;
  cell_project : option project_attrs
}.

(** [Build(...)], [BuildAndMove(...)]: a new object; its address is
    returned. *)
Definition new_build (made : project_attrs -> build_obj) (h : list build_cell)
    : nat * list build_cell :=
  (length h, h ++ [Cell made None]).

(** [build.project = self] for the build at [a]. *)
Definition set_project (self : project_attrs) (a : nat) (h : list build_cell) : list build_cell :=
  alter (fun c => Cell (cell_made c) (Some self)) a h.

(** The build at [a] with the project it has; [None] while it has none. *)
Definition read_build (h : list build_cell) (a : nat) : option build_obj :=
  c ← h !! a;
  project ← cell_project c;
  Some (cell_made c project).

(** ** Dictionaries *)

(** A [dict] as the list of its items in insertion order. *)
Section Dict.
Context {K V : Type} `{EqDecision K}.

Fixpoint dict_get (k : K) (d : list (K * V)) : option V :=
  match d with
  | [] => None
  | (k', v) :: d' => if decide (k = k') then Some v else dict_get k d'
  end.

(** [d[k] = v]: a key that is there keeps its place. *)
Fixpoint dict_set (k : K) (v : V) (d : list (K * V)) : list (K * V) :=
  match d with
  | [] => [(k, v)]
  | (k', v') :: d' =>
      if decide (k = k') then (k, v) :: d' else (k', v') :: dict_set k v d'
  end.

(** [dict(items)] *)
Definition dict_of (items : list (K * V)) : list (K * V) :=
  fold_left (fun d kv => dict_set (fst kv) (snd kv) d) items [].
End Dict.

(** [d.setdefault(k, []).extend(vs)] *)
Definition dict_extend {K V : Type} `{EqDecision K}
    (k : K) (vs : list V) (d : list (K * list V)) : list (K * list V) :=
  dict_set k (default [] (dict_get k d) ++ vs) d.

Module Project.

Record t : Type := Make {
  attrs : project_attrs;
  builds : list build_obj
}.

Definition name (self : t) : string := project_name (attrs self).

(** [self.triggers], as [Project.__init__] fills it. *)
Definition triggers (self : t) : list ((string * string) * list build_obj) :=
  match pubsub_name (attrs self) with
  | Some source =>
      fold_left
        (fun triggers build =>
           dict_extend (source, Build.branch (build_of build)) [build] triggers)
        (builds self) []
  | None => []
  end.

(** The project as it is read through the store: its builds in the
    order they were given, each with the project it has now. *)
Definition read (h : list build_cell) (self : project_attrs) (builds : list nat) : t :=
  Make self (omap (read_build h) builds).

(** [Project.__init__]: [builds] are the addresses of the builds given.
    Every one of them is handed this project ([build.project = self]),
    whatever project it had.  The result is the project as it is read
    when the constructor returns, and the store. *)
Definition __init__ (name : string) (builds : list nat)
    (repository_url pubsub_name working_copy : option string) (h : list build_cell)
    : declared (t * list build_cell) :=
  match repository_url with
  | Some url =>
      if decide (url = EmptyString) then
        ValueError "Required parameter repository_url missing or empty."
      else
        let self := ProjectAttrs name url pubsub_name working_copy in
        let h' := fold_left (fun h build => set_project self build h) builds h in
        Declared (read h' self builds, h')
  | None => ValueError "Required parameter repository_url missing or empty."
  end.

(** [Project.declare] *)
Definition declare (name : string) (builds : list nat)
    (repository_url pubsub_name working_copy : option string) (h : list build_cell)
    : declared ((string * t) * list build_cell) :=
  match __init__ name builds repository_url pubsub_name working_copy h with
  | Declared (project, h') => Declared ((name, project), h')
  | ValueError what => ValueError what
  end.

End Project.

(** ** Strings *)

Definition dquote : ascii := ascii_of_nat 34.
Definition squote : ascii := ascii_of_nat 39.
Definition backslash : ascii := ascii_of_nat 92.

Definition is_digit (c : ascii) : bool :=
  let n := nat_of_ascii c in (48 <=? n)%nat && (n <=? 57)%nat.

Definition is_ident_start (c : ascii) : bool :=
  let n := nat_of_ascii c in
  ((65 <=? n)%nat && (n <=? 90)%nat) || ((97 <=? n)%nat && (n <=? 122)%nat) || (n =? 95)%nat.

Definition is_ident_char (c : ascii) : bool := is_ident_start c || is_digit c.

(** Whitespace for [str.strip()].  A string holds the UTF-8 bytes of the
    text, so a whitespace character is one byte (U+0009 to U+000D, U+001C
    to U+0020), two (U+0085, U+00A0) or three (U+1680, U+2000 to U+200A,
    U+2028, U+2029, U+202F, U+205F, U+3000). *)
Definition is_space (c : ascii) : bool :=
  let n := nat_of_ascii c in
  (n =? 32)%nat || ((9 <=? n)%nat && (n <=? 13)%nat) || ((28 <=? n)%nat && (n <=? 31)%nat).

Definition is_space2 (c1 c2 : ascii) : bool :=
  let b := nat_of_ascii c2 in
  (nat_of_ascii c1 =? 194)%nat && ((b =? 133)%nat || (b =? 160)%nat).

Definition is_space3 (c1 c2 c3 : ascii) : bool :=
  let a := nat_of_ascii c1 in
  let b := nat_of_ascii c2 in
  let c := nat_of_ascii c3 in
  ((a =? 225)%nat && (b =? 154)%nat && (c =? 128)%nat)
  || ((a =? 226)%nat && (b =? 128)%nat
      && (((128 <=? c)%nat && (c <=? 138)%nat)
          || (c =? 168)%nat || (c =? 169)%nat || (c =? 175)%nat))
  || ((a =? 226)%nat && (b =? 129)%nat && (c =? 159)%nat)
  || ((a =? 227)%nat && (b =? 128)%nat && (c =? 128)%nat).

Definition is_printable (c : ascii) : bool :=
  let n := nat_of_ascii c in (32 <=? n)%nat && (n <=? 126)%nat.

Fixpoint string_forall (p : ascii -> bool) (s : string) : bool :=
  match s with
  | EmptyString => true
  | String c s' => p c && string_forall p s'
  end.

Definition string_has (c : ascii) (s : string) : bool :=
  negb (string_forall (fun c' => negb (Ascii.eqb c c')) s).

(** [s.lstrip()] *)
Fixpoint lstrip (s : string) : string :=
  match s with
  | EmptyString => EmptyString
  | String c1 s1 =>
      if is_space c1 then lstrip s1
      else match s1 with
           | EmptyString => s
           | String c2 s2 =>
               if is_space2 c1 c2 then lstrip s2
               else match s2 with
                    | EmptyString => s
                    | String c3 s3 => if is_space3 c1 c2 c3 then lstrip s3 else s
                    end
           end
  end.

(** [lstrip] on the reversed text: the bytes of a character come last
    byte first. *)
Fixpoint lstrip_rev (s : string) : string :=
  match s with
  | EmptyString => EmptyString
  | String c1 s1 =>
      if is_space c1 then lstrip_rev s1
      else match s1 with
           | EmptyString => s
           | String c2 s2 =>
               if is_space2 c2 c1 then lstrip_rev s2
               else match s2 with
                    | EmptyString => s
                    | String c3 s3 => if is_space3 c3 c2 c1 then lstrip_rev s3 else s
                    end
           end
  end.

(** [s.strip()] *)
Definition strip (s : string) : string :=
  String.rev (lstrip_rev (String.rev (lstrip s))).

(** ** Expressions given to [eval]

    [DocBot.message] evaluates the arguments of a command as Python
    expressions.  The expressions modelled are the literals [None], [True],
    [False], decimal integers and quoted strings of printable ASCII
    characters without escapes, names, and attribute reads [e.a];
    [parse_arg] is [None] on any other text. *)

Inductive value : Type :=
| VNone
| VBool (b : bool)
| VInt (z : Z)
| VStr (s : string)
| VSet (elems : list string)
| VSelf                      (* the bot *)
| VMsg                       (* the message being handled *)
| VFunc                      (* the handler being called *)
| VGlobal (name : string).   (* an object of the module namespace *)

Inductive expr : Type :=
| ELit (v : value)
| EName (x : string)
| EAttr (e : expr) (a : string).

Definition keywords : list string :=
  ["False"; "None"; "True"; "and"; "as"; "assert"; "async"; "await"; "break";
   "class"; "continue"; "def"; "del"; "elif"; "else"; "except"; "finally";
   "for"; "from"; "global"; "if"; "import"; "in"; "is"; "lambda"; "nonlocal";
   "not"; "or"; "pass"; "raise"; "return"; "try"; "while"; "with"; "yield"].

Definition is_identifier (s : string) : bool :=
  match s with
  | EmptyString => false
  | String c s' => is_ident_start c && string_forall is_ident_char s'
  end.

Definition is_name (s : string) : bool :=
  is_identifier s && negb (bool_decide (s ∈ keywords)).

Definition digit_value (c : ascii) : Z := Z.of_nat (nat_of_ascii c - 48).

(** A decimal integer.  Literals of more than 4300 digits are left out:
    whether they are accepted depends on the interpreter. *)
Definition parse_int (s : string) : option expr :=
  if string_forall is_digit s
     && (negb (String.prefix "0" s) || string_forall (Ascii.eqb "0") s)
     && (String.length s <=? 4300)%nat
  then Some (ELit (VInt (fold_left (fun n c => (10 * n + digit_value c)%Z)
                                   (list_ascii_of_string s) 0%Z)))
  else None.

(** A string literal: opening quote [q], then [rest]. *)
Definition parse_str (q : ascii) (rest : string) : option expr :=
  let n := String.length rest in
  let inner := substring 0 (n - 1) rest in
  if (1 <=? n)%nat && String.eqb (substring (n - 1) 1 rest) (String q EmptyString)
     && negb (string_has q inner) && negb (string_has backslash inner)
     && string_forall is_printable inner
  then Some (ELit (VStr inner))
  else None.

Definition parse_dotted (s : string) : option expr :=
  match str_split "."%char s with
  | [] => None
  | x :: attrs =>
      if decide (attrs = []) then
        if decide (x = "None") then Some (ELit VNone)
        else if decide (x = "True") then Some (ELit (VBool true))
        else if decide (x = "False") then Some (ELit (VBool false))
        else if is_name x then Some (EName x) else None
      else if is_name x && forallb is_name attrs then
        Some (fold_left EAttr attrs (EName x))
      else None
  end.

Definition parse_arg (tok : string) : option expr :=
  match tok with
  | EmptyString => None
  | String c rest =>
      if Ascii.eqb c squote || Ascii.eqb c dquote then parse_str c rest
      else if is_digit c then parse_int tok
      else parse_dotted tok
  end.

(** Where the scanner of the argument text stands: outside a string
    literal, inside one opened with [q], or just behind its closing
    quote. *)
Inductive lex_mode : Type := Out | In (q : ascii) | Closed.

(** The argument text cut at the separators [", "] that are not inside a
    string literal; [cur] is the argument being read and [done] those
    read.  A literal opens at the start of an argument only, and what
    follows an argument is a separator or the end of the text. *)
Fixpoint split_args (mode : lex_mode) (cur : string) (done : list string) (text : string)
    : option (list string) :=
  match text with
  | EmptyString =>
      match mode with
      | Out =>
          if decide (cur = EmptyString) then
            if decide (done = []) then Some [] else None
          else Some (done ++ [cur])
      | In _ => None
      | Closed => Some (done ++ [cur])
      end
  | String c rest =>
      match mode with
      | In q =>
          split_args (if Ascii.eqb c q then Closed else In q)
            (cur +:+ String c EmptyString) done rest
      | _ =>
          if Ascii.eqb c "," then
            match rest with
            | String c' rest' =>
                if Ascii.eqb c' " " && negb (String.eqb cur EmptyString) then
                  split_args Out EmptyString (done ++ [cur]) rest'
                else None
            | EmptyString => None
            end
          else
            match mode with
            | Closed => None
            | _ =>
                if Ascii.eqb c " " then None
                else if Ascii.eqb c squote || Ascii.eqb c dquote then
                  if String.eqb cur EmptyString then
                    split_args (In c) (String c EmptyString) done rest
                  else None
                else split_args Out (cur +:+ String c EmptyString) done rest
            end
      end
  end.

(** What [eval] makes of the arguments in [__func(__self, __msg, text)]. *)
Definition parse_args (text : string) : option (list expr) :=
  toks ← split_args Out EmptyString [] text;
  mapM parse_arg toks.

(** The argument expressions of a command: the words after the first are
    joined with [", "] and the result is read as an argument list, so a
    space inside a string literal arrives as [", "]. *)
Definition arg_exprs (body : string) : option (list expr) :=
  parse_args (String.concat ", " (tl (str_split " " body))).

(** [repr] of a string of printable ASCII characters. *)
Definition repr_str (s : string) : option string :=
  if string_forall is_printable s then
    let q : ascii := if string_has squote s && negb (string_has dquote s) then dquote else squote in
    let esc (c : ascii) : string :=
      if Ascii.eqb c backslash then String backslash (String backslash EmptyString)
      else if Ascii.eqb c q then String backslash (String c EmptyString)
      else String c EmptyString in
    Some (String q (String.concat EmptyString (map esc (list_ascii_of_string s)))
            +:+ String q EmptyString)
  else None.

(** [str(v)]; [None] where the text is not modelled (the address of an
    object, the order of a set). *)
Definition py_str (v : value) : option string :=
  match v with
  | VNone => Some "None"
  | VBool true => Some "True"
  | VBool false => Some "False"
  | VInt z => Some (pretty z)
  | VStr s => Some s
  | VSet [] => Some "set()"
  | VSet [x] => r ← repr_str x; Some ("{" +:+ r +:+ "}")
  | _ => None
  end.

(** [repr(v)] *)
Definition py_repr (v : value) : option string :=
  match v with
  | VStr s => repr_str s
  | _ => py_str v
  end.

(** ** DocBot *)

(** The payload of an update notification: the texts of its [repository]
    and [ref] children, where they are present. *)
Record notification : Type := Notification {
  n_repository : option string;
  n_ref : option string
}.

(** What executing the configuration document leaves in [namespace]; the
    projects are given as they are read when the document has run. *)
Record namespace : Type := Namespace {
  ns_authorized : option (list string);
  ns_projects : option (list (string * Project.t))
}.

(** The object [DocBot.rebuild] is handed. *)
Inductive rebuild_arg : Type :=
| BuildObj (b : build_obj)
| ProjectObj (p : Project.t).

(** The entries of [DocBot.COMMANDS]. *)
Inductive handler : Type := HRebuild | HReload | HEcho.

Module DocBot.

Record t : Type := Make {
  authorized : list string;
  blacklist : list string;
  projects : list (string * Project.t);
  repobranch_map : list ((string * string) * list build_obj);
  switch : string;
  bots_switch : string;
  nick : string
}.

Definition state : Type := t * World.

(** An effect on the world alone, inside a method of the bot. *)
Definition world {A} (c : M World A) : M state A := fun s =>
  match c (snd s) with
  | (r, w) => (r, (fst s, w))
  end.

(** Modelled from the spec: the chat transport behind [send_message] is not
    among the sources; the spec has the bot publish plain-text lines and
    subject-line updates to a room, so a message sent is recorded with its
    room, body, subject and type. *)
Definition send_message (mto : string) (mbody : text) (msubject : option string)
    (mtype : string) : M World unit :=
  modify (add_event (SendMessage mto mbody msubject mtype)).

(** Modelled from the spec: [HubBot.reply] is not among the sources; the
    spec has a command answered with a reply text to the requester, so a
    reply is recorded with the message it answers and its text. *)
Definition reply (msg : message) (body : text) : M World unit :=
  modify (add_event (Reply msg body)).

Definition print (what : printed) : M World unit :=
  modify (add_event (Print what)).

(** [formatException]: it renders the exception being handled where it is
    called ([sys.exc_info()]), whatever its argument. *)
Definition formatException (handled : option exn) : text := Traceback handled.

Definition replyException (msg : message) (handled : option exn) : M World unit :=
  reply msg (formatException handled).

Definition COMMANDS (cmd : string) : option handler :=
  if decide (cmd = "rebuild") then Some HRebuild
  else if decide (cmd = "reload") then Some HReload
  else if decide (cmd = "echo") then Some HEcho
  else None.

Section Methods.
Variable spawn : nat -> command -> child.
Variable mkdtemp : list string -> string.
Variable format_builddir : string -> option string -> outcome string.
(** [buf.decode()] *)
Variable decode : bytes -> outcome string.
(** [exec(conf, globals(), namespace)] *)
Variable exec_conf : string -> outcome namespace.
(** The names bound in [globals()], the builtins among them. *)
Variable globals : list string.

(** [build.build(log_func)], by the class of [build]. *)
Definition build (o : build_obj) (log_func : option sink) : M World unit :=
  match o with
  | ABuild b =>
      Build.build spawn mkdtemp (Build._do_build spawn b) b log_func
  | ABuildAndMove b =>
      Build.build spawn mkdtemp
        (BuildAndMove._do_build spawn format_builddir b)
        (BuildAndMove.base b) log_func
  end.

(** [DocBot.rebuild] *)
Definition rebuild (self : t) (build_ : rebuild_arg) : M World unit :=
  let log_func (msg : string) : M World unit :=
    send_message (switch self) (Text msg) None "groupchat" in
  let log_func_binary (buf : bytes) : M World unit :=
    match decode buf with
    | Ret s =>
        let msg := strip s in
        if decide (msg = EmptyString) then mret tt else log_func msg
    | Raise e => raise e
    end in
  match build_ with
  | ProjectObj _ => raise (AttributeError "project")
  | BuildObj b =>
      let project := Build.project (build_of b) in
      let topic := "Rebuilding " +:+ Build.name (build_of b)
                   +:+ " from project " +:+ project_name project in
      send_message (switch self) (Text EmptyString) (Some topic) "groupchat" ;;
      try_finally
        (try_except
           (log_func topic ;;
            build b (Some log_func_binary) ;;
            log_func "done.")
           (fun err =>
              send_message (bots_switch self)
                (Text ("jonas: Project " +:+ project_name project +:+ ", target "
                       +:+ Build.name (build_of b)
                       +:+ " is broken, traceback logged to docs"))
                None "groupchat" ;;
              send_message (switch self) (formatException (Some err))
                None "groupchat" ;;
              print (PStr "Exception during docbuild logged to muc.")))
        (send_message (switch self) (Text EmptyString)
           (Some "docbot is idle") "groupchat")
  end.

(** [DocBot.reloadConfig]; [Some e] is [sys.exc_info()] for [e]. *)
Definition reloadConfig : M state (option exn) :=
  s ← get;
  conf ← match docbot_config (snd s) with
         | Some conf => mret conf
         | None => raise (OSError "open")
         end;
  match exec_conf conf with
  | Raise e => mret (Some e)
  | Ret namespace =>
      let projects := dict_of (default [] (ns_projects namespace)) in
      let repobranch_map :=
        fold_left
          (fun m project =>
             fold_left (fun m kv => dict_extend (fst kv) (snd kv) m)
               (Project.triggers project) m)
          (map snd projects) [] in
      modify (fun s : state =>
        (Make (remove_dups (default [] (ns_authorized namespace))) []
           projects repobranch_map
           (switch (fst s)) (bots_switch (fst s)) (nick (fst s)),
         snd s)) ;;
      world (print (PRepobranchMap (map fst repobranch_map))) ;;
      mret None
  end.

(** [DocBot.pubsubPublish], on the payload of the message. *)
Definition pubsubPublish (self : t) (item : notification) : M World unit :=
  let repo := n_repository item in
  (if repo is None then print (PStr "Malformed git-post-update.") else mret tt) ;;
  let ref := n_ref item in
  (if ref is None then print (PStr "Malformed git-post-update.") else mret tt) ;;
  branch ← match ref with
           | Some r => py_index (str_split "/" r) 2
           | None => raise (AttributeError "split")
           end;
  match repo ≫= (fun r => dict_get (r, branch) (repobranch_map self)) with
  | None => print (PRepobranch repo branch)
  | Some builds => for_each builds (fun b => rebuild self (BuildObj b))
  end.

(** [DocBot.authorizedSource]; it returns [None] on every path. *)
Definition authorizedSource (msg : message) : M state unit :=
  s ← get;
  let self := fst s in
  let origin := msg_from msg in
  if negb (bool_decide (origin ∈ authorized self)) then
    if negb (bool_decide (origin ∈ blacklist self)) then
      world (reply msg (Text "You're not authorized.")) ;;
      modify (fun s : state =>
        (Make (authorized (fst s)) (origin :: blacklist (fst s))
           (projects (fst s)) (repobranch_map (fst s))
           (switch (fst s)) (bots_switch (fst s)) (nick (fst s)),
         snd s))
    else mret tt
  else mret tt.

(** [DocBot.messageMUC] *)
Definition messageMUC (msg : message) : M state unit :=
  s ← get;
  if decide (msg_mucnick msg = nick (fst s)) then mret tt
  else
    let contents := strip (msg_body msg) in
    if decide (contents = "ping") then world (reply msg (Text "pong"))
    else mret tt.

(** [DocBot.cmdRebuild] *)
Definition cmdRebuild (msg : message) (projectName : value) : option (M state value) :=
  match projectName with
  | VSet _ => Some (raise (TypeError "unhashable"))
  | _ =>
      shown ← py_str projectName;
      Some (s ← get;
            let project := match projectName with
                           | VStr k => dict_get k (projects (fst s))
                           | _ => None
                           end in
            match project with
            | None => mret (VStr ("Unknown project: " +:+ shown))
            | Some p => world (rebuild (fst s) (ProjectObj p)) ;; mret (VBool true)
            end)
  end.

(** [DocBot.cmdReload] *)
Definition cmdReload (msg : message) : M state value :=
  result ← reloadConfig;
  match result with
  | Some _ => world (replyException msg None) ;; mret VNone
  | None => mret (VBool true)
  end.

(** [DocBot.cmdEcho] *)
Definition cmdEcho (msg : message) (args : list value) : option (M state value) :=
  strs ← mapM py_str args;
  Some (mret (VStr (join " " strs))).

(** The value of an argument expression. *)
Fixpoint eval (self : t) (e : expr) : option (outcome value) :=
  match e with
  | ELit v => Some (Ret v)
  | EName x =>
      if decide (x = "__func") then Some (Ret VFunc)
      else if decide (x = "__self") then Some (Ret VSelf)
      else if decide (x = "__msg") then Some (Ret VMsg)
      else if bool_decide (x ∈ globals) then Some (Ret (VGlobal x))
      else Some (Raise (NameError x))
  | EAttr e' a =>
      match eval self e' with
      | Some (Ret VSelf) =>
          if decide (a = "authorized") then Some (Ret (VSet (authorized self)))
          else if decide (a = "blacklist") then Some (Ret (VSet (blacklist self)))
          else None
      | Some (Ret _) => None
      | r => r
      end
  end.

(** The argument values, left to right, up to the first exception. *)
Fixpoint eval_args (self : t) (es : list expr) : option (outcome (list value)) :=
  match es with
  | [] => Some (Ret [])
  | e :: es' =>
      match eval self e with
      | None => None
      | Some (Raise x) => Some (Raise x)
      | Some (Ret v) =>
          match eval_args self es' with
          | None => None
          | Some (Raise x) => Some (Raise x)
          | Some (Ret vs) => Some (Ret (v :: vs))
          end
      end
  end.

(** [__func(__self, __msg, args...)] *)
Definition call (h : handler) (msg : message) (args : list value) : option (M state value) :=
  match h, args with
  | HRebuild, [projectName] => cmdRebuild msg projectName
  | HRebuild, _ => Some (raise (TypeError "cmdRebuild"))
  | HReload, [] => Some (cmdReload msg)
  | HReload, _ => Some (raise (TypeError "cmdReload"))
  | HEcho, _ => cmdEcho msg args
  end.

(** [DocBot.message]; [None] where an argument, or the text of the reply,
    is outside what is modelled. *)
Definition message (msg : message) (s : state) : option (outcome unit * state) :=
  if decide (msg_type msg = "groupchat") then Some (Ret tt, s)
  else
    let contents := msg_body msg in
    let args := str_split " " contents in
    let cmd := hd EmptyString args in
    let args := tl args in
    match COMMANDS cmd with
    | Some h =>
        es ← parse_args (join ", " args);
        r ← eval_args (fst s) es;
        match r with
        | Raise e => Some (world (replyException msg (Some e)) s)
        | Ret vs =>
            c ← call h msg vs;
            match c s with
            | (Raise e, s') => Some (world (replyException msg (Some e)) s')
            | (Ret v, s') =>
                shown ← py_repr v;
                Some (world (reply msg (Text shown)) s')
            end
        end
    | None => Some (world (reply msg (Text ("Unknown command: " +:+ cmd))) s)
    end.

End Methods.

End DocBot.

(** ** Hosts and inputs of the examples *)

(** The one file [docbot_config.py], in the directory [d]. *)
Definition config_in (d conf : string) : string -> option string :=
  fun d' => if decide (d' = d) then Some conf else None.

(** A child that writes nothing and exits with [code]. *)
Definition exits (code : Z) : child := Child None [] [] [] code id.

(** A child that has written [out] and [err] and exited with [code] before
    the first [select]: both channels are readable from the first turn. *)
Definition wrote (out err : bytes) (code : Z) : child := Child None out err [] code id.

(** A line of output: the text and its newline. *)
Definition line (s : string) : bytes := encode s ++ [nl].

(** A sink that keeps what it is called with, oldest first. *)
Definition record : bytes -> M (list bytes) unit := fun b calls => (Ret tt, calls ++ [b]).

(** [buf.decode()] for ASCII output. *)
Definition decode_ascii (b : bytes) : outcome string :=
  if forallb (fun c => (Byte.to_nat c <? 128)%nat) b then Ret (string_of_list_byte b)
  else Raise UnicodeDecodeError.

(** Where the scanner of a format template stands: in the text, behind
    an opening or a closing brace, or in the replacement field read so
    far. *)
Inductive format_mode : Type :=
| FText | FOpen | FClose | FField (name : string).

(** The value of the replacement field [name] of
    [template.format(builddir=d)]. *)
Definition format_field (name : string) (d : option string) : outcome string :=
  if decide (name = "builddir") then Ret (default "None" d)
  else if existsb (fun c => string_has c name) ["{"; "!"; ":"; "."; "["]%char then
    Raise (ValueError_format name)
  else if string_forall is_digit name then Raise IndexError
  else Raise KeyError.

Fixpoint format_scan (mode : format_mode) (out template : string) (d : option string)
    : outcome string :=
  match template with
  | EmptyString =>
      match mode with
      | FText => Ret out
      | _ => Raise (ValueError_format "brace")
      end
  | String c rest =>
      match mode with
      | FText =>
          if Ascii.eqb c "{" then format_scan FOpen out rest d
          else if Ascii.eqb c "}" then format_scan FClose out rest d
          else format_scan FText (out +:+ String c EmptyString) rest d
      | FOpen =>
          if Ascii.eqb c "{" then format_scan FText (out +:+ "{") rest d
          else if Ascii.eqb c "}" then
            match format_field EmptyString d with
            | Ret v => format_scan FText (out +:+ v) rest d
            | Raise e => Raise e
            end
          else format_scan (FField (String c EmptyString)) out rest d
      | FClose =>
          if Ascii.eqb c "}" then format_scan FText (out +:+ "}") rest d
          else Raise (ValueError_format "brace")
      | FField name =>
          if Ascii.eqb c "}" then
            match format_field name d with
            | Ret v => format_scan FText (out +:+ v) rest d
            | Raise e => Raise e
            end
          else format_scan (FField (name +:+ String c EmptyString)) out rest d
      end
  end.

(** [template.format(builddir=d)] for templates whose replacement fields
    are plain names: [{builddir}] is replaced, [{{] and [}}] stand for a
    brace, another name raises [KeyError], a number or an empty field
    [IndexError], a brace alone [ValueError].  Fields with a conversion, a
    format specification, an attribute or an index are outside what this
    host formats; it raises [ValueError] for them. *)
Definition format_plain (template : string) (d : option string) : outcome string :=
  format_scan FText EmptyString template d.

(** The names the module binds at its top level, and the builtins. *)
Definition module_names : list string :=
  ["__name__"; "__doc__"; "__package__"; "__loader__"; "__spec__"; "__file__";
   "__builtins__"; "__cached__"; "HubBot"; "traceback"; "itertools"; "sys"; "os";
   "select"; "threading"; "subprocess"; "tempfile"; "Popen"; "Build";
   "BuildAndMove"; "BuildEnvironment"; "Project"; "DocBot"; "docbot"].

Definition builtin_names : list string :=
  ["abs"; "aiter"; "all"; "anext"; "any"; "ascii"; "bin"; "bool"; "breakpoint";
   "bytearray"; "bytes"; "callable"; "chr"; "classmethod"; "compile"; "complex";
   "copyright"; "credits"; "delattr"; "dict"; "dir"; "divmod"; "enumerate";
   "eval"; "exec"; "exit"; "filter"; "float"; "format"; "frozenset"; "getattr";
   "globals"; "hasattr"; "hash"; "help"; "hex"; "id"; "input"; "int";
   "isinstance"; "issubclass"; "iter"; "len"; "license"; "list"; "locals"; "map";
   "max"; "memoryview"; "min"; "next"; "object"; "oct"; "open"; "ord"; "pow";
   "print"; "property"; "quit"; "range"; "repr"; "reversed"; "round"; "set";
   "setattr"; "slice"; "sorted"; "staticmethod"; "str"; "sum"; "super"; "tuple";
   "type"; "vars"; "zip"; "__import__"; "__build_class__"; "__debug__";
   "Ellipsis"; "NotImplemented";
   "ArithmeticError"; "AssertionError"; "AttributeError"; "BaseException";
   "BaseExceptionGroup"; "BlockingIOError"; "BrokenPipeError"; "BufferError";
   "BytesWarning"; "ChildProcessError"; "ConnectionAbortedError";
   "ConnectionError"; "ConnectionRefusedError"; "ConnectionResetError";
   "DeprecationWarning"; "EOFError"; "EncodingWarning"; "EnvironmentError";
   "Exception"; "ExceptionGroup"; "FileExistsError"; "FileNotFoundError";
   "FloatingPointError"; "FutureWarning"; "GeneratorExit"; "IOError";
   "ImportError"; "ImportWarning"; "IndentationError"; "IndexError";
   "InterruptedError"; "IsADirectoryError"; "KeyError"; "KeyboardInterrupt";
   "LookupError"; "MemoryError"; "ModuleNotFoundError"; "NameError";
   "NotADirectoryError"; "NotImplementedError"; "OSError"; "OverflowError";
   "PendingDeprecationWarning"; "PermissionError"; "ProcessLookupError";
   "PythonFinalizationError"; "RecursionError"; "ReferenceError";
   "ResourceWarning"; "RuntimeError"; "RuntimeWarning"; "StopAsyncIteration";
   "StopIteration"; "SyntaxError"; "SyntaxWarning"; "SystemError"; "SystemExit";
   "TabError"; "TimeoutError"; "TypeError"; "UnboundLocalError";
   "UnicodeDecodeError"; "UnicodeEncodeError"; "UnicodeError";
   "UnicodeTranslateError"; "UnicodeWarning"; "UserWarning"; "ValueError";
   "Warning"; "ZeroDivisionError"].

Definition docbot_globals : list string := module_names ++ builtin_names.

(** A configuration: one project [docs] with a plain build and a build that
    moves its result. *)
Definition docs_attrs : project_attrs :=
  ProjectAttrs "docs" "git://example.org/docs.git" (Some "docs.git") None.

Definition html : build_obj :=
  ABuild (Build.Make "html" "master" ["theme"] [Argv ["make"; "html"]] None docs_attrs).

Definition site : build_obj :=
  ABuildAndMove
    (BuildAndMove.Make
       (Build.Make "site" "master" [] [Argv ["make"; "site"]; Argv ["make"; "check"]]
          None docs_attrs)
       "/var/www/site" None).

Definition docs : Project.t := Project.Make docs_attrs [html; site].

Definition bot0 : DocBot.t :=
  DocBot.Make ["alice@example.org"] []
    [("docs", docs)] [(("docs.git", "master"), [html; site])]
    "docs@conference.example.org" "bots@conference.example.org" "buildbot".

Definition world0 : World := mkWorld ["/var/www/site"] "/" [] [] (config_in "/" "projects = []").

(** A document that does not evaluate, and any other one gives an empty
    configuration. *)
Definition exec_example (conf : string) : outcome namespace :=
  if decide (conf = "projects = [") then Raise SyntaxError
  else Ret (Namespace None None).

Definition mkdtemp0 (ds : list string) : string := "/tmp/tmpq3x".

(** The [n]-th child fails with [code]; the others succeed silently. *)
Definition fails_at (n : nat) (code : Z) : nat -> command -> child :=
  fun k _ => if decide (k = n) then exits code else exits 0.

(** A private message with the given body. *)
Definition chat (sender body : string) : message := Message "chat" sender body EmptyString.

(** The bodies of the replies made, oldest first. *)
Definition replies (w : World) : list text :=
  omap (fun e => match e with Reply _ body => Some body | _ => None end) (events w).

(** The sink of the examples: every call is announced in the room. *)
Definition announce : sink := fun buf =>
  DocBot.send_message "docs@conference.example.org" (Text (string_of_list_byte buf))
    None "groupchat".

(** The environment of the build [html]: no working copy is configured, so
    it gets a temporary directory. *)
Definition env_html : BuildEnvironment.t :=
  Build.build_environment (build_of html) (Some announce).

(** An environment that has been entered, for the build [site]. *)
Definition env_site : BuildEnvironment.t :=
  BuildEnvironment.Make (Some "/tmp/tmpq3x") (Some "/tmp/tmpq3x")
    "git://example.org/docs.git" "master" [] (Some announce).

Definition site_build : BuildAndMove.t :=
  match site with
  | ABuildAndMove b => b
  | ABuild b => BuildAndMove.Make b EmptyString None
  end.

(** The bot of the examples handling a private message from [sender]. *)
Definition handle (self : DocBot.t) (sender body : string)
    : option (outcome unit * DocBot.state) :=
  DocBot.message (fun _ _ => exits 0) mkdtemp0 format_plain decode_ascii exec_example
    docbot_globals (chat sender body) (self, world0).

(** The replies a handled message has led to. *)
Definition replied (r : option (outcome unit * DocBot.state)) : option (list text) :=
  option_map (fun r => replies (snd (snd r))) r.

(** [s] between two double quotes. *)
Definition dquoted (s : string) : string :=
  String dquote (s +:+ String dquote EmptyString).

(** ** Notions used in the statements *)

(** [c] never changes the part [proj] of the state. *)
Definition preserves {St X A} (proj : St -> X) (c : M St A) : Prop :=
  forall s, proj (snd (c s)) = proj s.

(** A sink that starts no process itself. *)
Definition quiet_sink (f : option sink) : Prop :=
  forall g buf, f = Some g -> preserves spawned (g buf).

(** The subject line that announces the bot as idle. *)
Definition idle (self : DocBot.t) : event :=
  SendMessage (DocBot.switch self) (Text EmptyString) (Some "docbot is idle") "groupchat".

(** The bot with another authorized set and blacklist. *)
Definition with_auth (authorized blacklist : list string) (self : DocBot.t) : DocBot.t :=
  DocBot.Make authorized blacklist (DocBot.projects self) (DocBot.repobranch_map self)
    (DocBot.switch self) (DocBot.bots_switch self) (DocBot.nick self).

(** The result of a handler with the authorized set and the blacklist of
    the bot left out. *)
Definition forget_auth (r : option (outcome unit * DocBot.state))
    : option (outcome unit * DocBot.state) :=
  option_map (fun r => (fst r, (with_auth [] [] (fst (snd r)), snd (snd r)))) r.

(** Whether an argument of the command reads an attribute. *)
Definition reads_attr (body : string) : bool :=
  existsb (fun e => match e with EAttr _ _ => true | _ => false end)
    (default [] (arg_exprs body)).

(** The values the literals of the fragment stand for. *)
Definition literal (v : value) : bool :=
  match v with
  | VNone | VBool _ | VInt _ => true
  | VStr s => string_forall is_printable s
  | _ => false
  end.

(** An argument that is a literal, or a name that is not bound: neither
    one of the three names [message] binds for [eval] nor a name of
    [globals]. *)
Definition plain (globals : list string) (e : expr) : bool :=
  match e with
  | ELit v => literal v
  | EName x => negb (bool_decide (x ∈ ["__func"; "__self"; "__msg"] ++ globals))
  | EAttr _ _ => false
  end.

(** Two states that differ in the authorized set and the blacklist at
    most. *)
Definition alike (s1 s2 : DocBot.state) : Prop :=
  with_auth [] [] (fst s1) = with_auth [] [] (fst s2) /\ snd s1 = snd s2.

(** A computation that treats states that are alike alike. *)
Definition blind {A} (c : M DocBot.state A) : Prop :=
  forall s1 s2, alike s1 s2 -> fst (c s1) = fst (c s2) /\ alike (snd (c s1)) (snd (c s2)).

(** ** Notions used in the statements about further behaviour *)

(** [buf.splitlines(keepends=True)] at the newline byte: the lines of [buf],
    each with its newline, and the unterminated rest if there is one. *)
Fixpoint split_lines (buf : bytes) : list bytes :=
  match buf with
  | [] => []
  | c :: rest =>
      if Byte.eqb nl c then [c] :: split_lines rest
      else match split_lines rest with
           | l :: ls => (c :: l) :: ls
           | [] => [[c]]
           end
  end.

(** [buf.count] of the newline byte. *)
Definition count_newlines (buf : bytes) : nat :=
  length (filter (fun c => Byte.eqb nl c = true) buf).

(** The builds of a project that follow [branch], in declaration order. *)
Definition builds_on (branch : string) (p : Project.t) : list build_obj :=
  filter (fun b => Build.branch (build_of b) = branch) (Project.builds p).

(** The builds that an update of [branch] in [source] concerns: those of
    the projects bound to [source] that follow [branch], project by
    project. *)
Definition concerned (source branch : string) (ps : list Project.t) : list build_obj :=
  flat_map (fun p => if decide (pubsub_name (Project.attrs p) = Some source)
                     then builds_on branch p else []) ps.

(** What a dispatch table holds for a list of builds: the list, and no
    entry for no build. *)
Definition listed (l : list build_obj) : option (list build_obj) :=
  match l with [] => None | _ => Some l end.

(** The subject lines the bot has set in its rooms, oldest first. *)
Definition subjects (w : World) : list string :=
  omap (fun e => match e with
                 | SendMessage _ _ (Some subject) _ => Some subject
                 | _ => None
                 end) (events w).

(** The subject line that announces the rebuild of a build. *)
Definition topic_of (b : build_obj) : string :=
  "Rebuilding " +:+ Build.name (build_of b)
  +:+ " from project " +:+ project_name (Build.project (build_of b)).

(** The sink [rebuild] gives its build: the output, decoded and stripped,
    goes to the room of the bot unless it is empty. *)
Definition room_sink (decode : bytes -> outcome string) (self : DocBot.t) : sink :=
  fun buf =>
    match decode buf with
    | Ret s =>
        let msg := strip s in
        if decide (msg = EmptyString) then mret tt
        else DocBot.send_message (DocBot.switch self) (Text msg) None "groupchat"
    | Raise e => raise e
    end.

(** What [rebuild] tells the room of the bots about a broken build. *)
Definition broken_report (b : build_obj) : string :=
  "jonas: Project " +:+ project_name (Build.project (build_of b)) +:+ ", target "
  +:+ Build.name (build_of b) +:+ " is broken, traceback logged to docs".



(** The bot in [/srv/bot], with a working copy in [wc] that holds a
    repository. *)
Definition world_wc : World :=
  mkWorld ["/srv/bot/wc/.git"; "/srv/bot/wc"; "/srv/bot"] "/srv/bot" [] []
    (config_in "/srv/bot" "projects = []").

(** A document that declares two identities, one of them twice, and the
    project [docs]. *)
Definition exec_docs (conf : string) : outcome namespace :=
  Ret (Namespace (Some ["alice@example.org"; "carol@example.org"; "alice@example.org"])
         (Some [("docs", docs)])).

(** The string with the given bytes. *)
Definition utf8 (codes : list nat) : string :=
  string_of_list_ascii (map ascii_of_nat codes).

(** The whitespace characters of [str.strip()], each in UTF-8: U+0009 to
    U+000D, U+001C to U+0020, U+0085, U+00A0, U+1680, U+2000 to U+200A,
    U+2028, U+2029, U+202F, U+205F and U+3000. *)
Definition whitespace : list string :=
  map utf8
    [[9]; [10]; [11]; [12]; [13]; [28]; [29]; [30]; [31]; [32];
     [194; 133]; [194; 160]; [225; 154; 128];
     [226; 128; 128]; [226; 128; 129]; [226; 128; 130]; [226; 128; 131];
     [226; 128; 132]; [226; 128; 133]; [226; 128; 134]; [226; 128; 135];
     [226; 128; 136]; [226; 128; 137]; [226; 128; 138];
     [226; 128; 168]; [226; 128; 169]; [226; 128; 175];
     [226; 129; 159]; [227; 128; 128]].

(** A document that declares the name [docs] twice: first for a draft
    without builds, then for the project [docs]. *)
Definition docs_draft : Project.t :=
  Project.Make (ProjectAttrs "docs" "git://example.org/draft.git" (Some "draft.git") None) [].

Definition exec_twice (conf : string) : outcome namespace :=
  Ret (Namespace None (Some [("docs", docs_draft); ("docs", docs)])).

(** The build objects a document has made: [html] and [site], neither
    handed to a project yet. *)
Definition fresh_builds : list build_cell :=
  let html project :=
    ABuild (Build.__init__ "html" None (Some ["theme"])
              (Some [Argv ["make"; "html"]]) None project) in
  let site project :=
    ABuildAndMove
      (BuildAndMove.Make
         (Build.__init__ "site" None None
            (Some [Argv ["make"; "site"]; Argv ["make"; "check"]]) None project)
         "/var/www/site" None) in
  snd (new_build site (snd (new_build html []))).

(** The same two objects once [Project("docs", html, site, ...)] has taken
    them. *)
Definition taken_builds : list build_cell :=
  map (fun c => Cell (cell_made c) (Some docs_attrs)) fresh_builds.

(** A second project, which is handed [html] as well. *)
Definition manual_attrs : project_attrs :=
  ProjectAttrs "manual" "git://example.org/manual.git" (Some "manual.git") None.

(** A message in a room, from the occupant [nick]. *)
Definition room_message (nick body : string) : message :=
  Message "groupchat" "docs@conference.example.org" body nick.

(** * Properties *)

(** ** The effect monad *)

Lemma bind_ret_inv {St A B} (c : M St A) (k : A -> M St B) s b s' :
  (c ≫= k) s = (Ret b, s') ->
  exists a s1, c s = (Ret a, s1) /\ k a s1 = (Ret b, s').
Proof.
  unfold mbind, M_bind. destruct (c s) as [[a|e] s1]; intros H.
  - exists a, s1. split; [reflexivity | exact H].
  - discriminate H.
Qed.

Lemma bind_raise_inv {St A B} (c : M St A) (k : A -> M St B) s e s' :
  (c ≫= k) s = (Raise e, s') ->
  c s = (Raise e, s') \/ exists a s1, c s = (Ret a, s1) /\ k a s1 = (Raise e, s').
Proof.
  unfold mbind, M_bind. destruct (c s) as [[a|e0] s1]; intros H.
  - right. exists a, s1. split; [reflexivity | exact H].
  - left. inversion H. reflexivity.
Qed.

Lemma bind_ret_l {St A B} (c : M St A) (k : A -> M St B) s a s1 :
  c s = (Ret a, s1) -> (c ≫= k) s = k a s1.
Proof. intros H. unfold mbind, M_bind. rewrite H. reflexivity. Qed.

Lemma bind_raise_l {St A B} (c : M St A) (k : A -> M St B) s e s1 :
  c s = (Raise e, s1) -> (c ≫= k) s = (Raise e, s1).
Proof. intros H. unfold mbind, M_bind. rewrite H. reflexivity. Qed.

(** Splits a hypothesis on a sequence that returned into its two steps. *)
Ltac bind_inv H :=
  let a := fresh "a" in
  let s1 := fresh "s" in
  let H1 := fresh H in
  apply bind_ret_inv in H; destruct H as (a & s1 & H1 & H).

(** ** The multiplexer *)

Module PopenFacts.
Import Popen.

Lemma readline_length p read rest :
  readline p = (read, rest) -> length p = length read + length rest.
Proof.
  revert read rest. induction p as [|c p IH]; intros read rest H; simpl in H.
  - inversion H. reflexivity.
  - destruct (Byte.eqb nl c).
    + inversion H. reflexivity.
    + destruct (readline p) as [l r]. inversion H; subst. simpl.
      rewrite (IH l rest eq_refl). reflexivity.
Qed.

(** [readline] is empty at end of file only. *)
Lemma readline_eof p read rest :
  readline p = (read, rest) -> length read = 0 -> p = [] /\ rest = [].
Proof.
  destruct p as [|c p]; simpl; intros H Hlen.
  - inversion H. split; reflexivity.
  - destruct (Byte.eqb nl c).
    + inversion H; subst. discriminate Hlen.
    + destruct (readline p) as [l r]. inversion H; subst. discriminate Hlen.
Qed.

(** A line read holds one newline at most, and it is its last byte. *)
Lemma readline_newline p read rest :
  readline p = (read, rest) -> has_newline read = true ->
  exists body, read = body ++ [nl] /\ has_newline body = false.
Proof.
  revert read rest. induction p as [|c p IH]; intros read rest H Hnl; simpl in H.
  - inversion H; subst. discriminate Hnl.
  - destruct (Byte.eqb nl c) eqn:E.
    + inversion H; subst. exists []. split; [|reflexivity].
      apply Byte.byte_dec_bl in E. subst c. reflexivity.
    + destruct (readline p) as [l r]. inversion H; subst.
      unfold has_newline in Hnl. simpl in Hnl. rewrite E in Hnl. simpl in Hnl.
      destruct (IH l rest eq_refl Hnl) as (body & -> & Hb).
      exists (c :: body). split; [reflexivity|].
      unfold has_newline. simpl. rewrite E. exact Hb.
Qed.

Section Facts.
Context {St : Type}.
Variable sink_line_call : bytes -> M St unit.

Lemma measure_set_buffers m bs : measure (set_buffers m bs) = measure m.
Proof. reflexivity. Qed.

(** Servicing a channel reads from its pipe or drops an entry of
    [rlist]. *)
Lemma service_decreases n m ifd s m' s' :
  service sink_line_call n m ifd s = (Ret m', s') -> measure m' < measure m.
Proof.
  destruct ifd as [i f]. unfold service.
  destruct (readline (pipe m f)) as [read rest] eqn:Hread.
  pose proof (readline_length _ _ _ Hread) as Hlen.
  destruct (decide (length read = 0)) as [Hz|Hnz]; intros H.
  - bind_inv H. unfold py_del in H0.
    destruct (decide (n - (i + 1) < length (rlist (set_pipe m f rest)))) as [Hlt|];
      [|discriminate H0].
    inversion H0; subst a s0; clear H0.
    bind_inv H. bind_inv H. bind_inv H. inversion H; subst m' s'; clear H.
    assert (Hr : length (rlist (set_pipe m f rest)) = length (rlist m))
      by (destruct f; reflexivity).
    rewrite measure_set_buffers. unfold measure; simpl.
    rewrite length_delete by (apply lookup_lt_is_Some_2; exact Hlt).
    rewrite Hr in *. destruct f; simpl in *; lia.
  - bind_inv H. bind_inv H. bind_inv H. inversion H; subst m' s'; clear H.
    rewrite !measure_set_buffers.
    unfold measure. destruct f; simpl in *; lia.
Qed.

Lemma for_fold_service n l m s m' s' :
  for_fold l (service sink_line_call n) m s = (Ret m', s') ->
  measure m' + length l <= measure m.
Proof.
  revert m s. induction l as [|x l IH]; intros m s H; simpl in H.
  - inversion H; subst. simpl. lia.
  - bind_inv H. apply service_decreases in H0. apply IH in H. simpl. lia.
Qed.

Lemma select_length r rl : rl <> [] -> 0 < length (select r rl).
Proof.
  destruct rl as [|f rl]; [congruence|]. intros _.
  destruct r; simpl; lia.
Qed.

Lemma turn_decreases r m s m' s' :
  rlist m <> [] ->
  turn sink_line_call r m s = (Ret m', s') -> measure m' < measure m.
Proof.
  intros Hne H. unfold turn in H. apply for_fold_service in H.
  unfold enumerate in H. rewrite length_imap, length_reverse in H.
  pose proof (select_length r _ Hne). lia.
Qed.

Lemma turn_idle r m s : rlist m = [] -> turn sink_line_call r m s = (Ret m, s).
Proof.
  intros H. unfold turn. rewrite H. destruct r; reflexivity.
Qed.

Lemma loop_S f sched m s :
  loop sink_line_call (S f) sched m s =
  match turn sink_line_call (hd AllReady sched) m s with
  | (Ret m', s') =>
      if decide (length (rlist m') = 0) then (Ret m', s')
      else loop sink_line_call f (tl sched) m' s'
  | (Raise e, s') => (Raise e, s')
  end.
Proof.
  simpl. unfold mbind, M_bind.
  destruct (turn sink_line_call (hd AllReady sched) m s) as [[m'|e] s'];
    [|reflexivity].
  destruct (decide (length (rlist m') = 0)); reflexivity.
Qed.

(** The loop does not depend on its fuel once the fuel covers the
    measure: the fuel is never what ends it. *)
Lemma loop_fuel f1 : forall f2 sched m s,
  measure m <= f1 -> measure m <= f2 ->
  loop sink_line_call f1 sched m s = loop sink_line_call f2 sched m s.
Proof.
  assert (Hzero : forall f sched m s, measure m = 0 ->
            loop sink_line_call f sched m s = (Ret m, s)).
  { intros f sched m s Hm.
    assert (Hrl : rlist m = []).
    { unfold measure in Hm. destruct (rlist m); [reflexivity | simpl in Hm; lia]. }
    destruct f as [|f]; [reflexivity|].
    rewrite loop_S, (turn_idle _ _ _ Hrl), Hrl. reflexivity. }
  induction f1 as [|f1 IH]; intros f2 sched m s H1 H2.
  - rewrite !Hzero by lia. reflexivity.
  - destruct f2 as [|f2]; [rewrite !Hzero by lia; reflexivity|].
    rewrite !loop_S.
    destruct (turn sink_line_call (hd AllReady sched) m s) as [[m'|e] s'] eqn:Hturn;
      [|reflexivity].
    destruct (decide (length (rlist m') = 0)) as [|Hne]; [reflexivity|].
    assert (Hm : rlist m <> []).
    { intros Hnil. rewrite (turn_idle _ _ _ Hnil) in Hturn.
      inversion Hturn; subst. rewrite Hnil in Hne. apply Hne. reflexivity. }
    pose proof (turn_decreases _ _ _ _ _ Hm Hturn).
    apply IH; lia.
Qed.

(** [communicate] ends, whatever the schedule: more fuel changes
    nothing. *)
Lemma communicate_sink_total out err sched k s :
  let m := Mux [[]; []] [stdout; stderr] out err in
  communicate_sink sink_line_call out err sched s =
  (m' ← loop sink_line_call (measure m + k) sched m;
   for_each (buffers m') (fun buf => _submit_buffer sink_line_call buf true ;; mret tt)) s.
Proof.
  intros m. unfold communicate_sink. fold m.
  unfold mbind, M_bind.
  rewrite (loop_fuel (measure m) (measure m + k)) by lia. reflexivity.
Qed.

(** A child that has written to stdout, nothing to stderr, and has
    exited before the first [select]: stderr is dropped, the line read
    from stdout finds no buffer at index 1, and the sink is not called. *)
Lemma communicate_exited_child_raises out s :
  out <> [] ->
  communicate_sink sink_line_call out [] [] s = (Raise IndexError, s).
Proof.
  intros Hout. unfold communicate_sink.
  set (m0 := Mux [[]; []] [stdout; stderr] out []).
  replace (measure m0) with (S (length out + 1)) by (unfold measure; simpl; lia).
  apply bind_raise_l. rewrite loop_S.
  assert (H1 : service sink_line_call 2 m0 (0, stderr) s
               = (Ret (Mux [[]] [stdout] out []), s)) by reflexivity.
  assert (H2 : service sink_line_call 2 (Mux [[]] [stdout] out []) (1, stdout) s
               = (Raise IndexError, s)).
  { unfold service. cbn [pipe pipe_out].
    destruct (readline out) as [read rest] eqn:Hread.
    destruct (decide (length read = 0)) as [Hz|]; [|reflexivity].
    destruct (readline_eof _ _ _ Hread Hz). contradiction. }
  change (turn sink_line_call (hd AllReady []) m0 s)
    with ((a ← service sink_line_call 2 m0 (0, stderr);
           for_fold [(1, stdout)] (service sink_line_call 2) a) s).
  rewrite (bind_ret_l _ _ _ _ _ H1). simpl for_fold.
  rewrite (bind_raise_l _ _ _ _ _ H2). reflexivity.
Qed.

(** A buffer that holds no newline is kept, or flushed as it is. *)
Lemma submit_partial buf s :
  has_newline buf = false ->
  _submit_buffer sink_line_call buf false s = (Ret buf, s).
Proof. intros H. unfold _submit_buffer. rewrite H. reflexivity. Qed.

Lemma submit_forced buf s :
  has_newline buf = false ->
  _submit_buffer sink_line_call buf true s =
  (sink_line_call buf ;; mret []) s.
Proof. intros H. unfold _submit_buffer. rewrite H. reflexivity. Qed.

Lemma bytes_split_line body :
  has_newline body = false -> bytes_split (body ++ [nl]) = [body; []].
Proof.
  induction body as [|c body IH]; intros H; [reflexivity|].
  unfold has_newline in H. simpl in H. apply orb_false_iff in H as [Hc Hb].
  simpl. rewrite Hc. rewrite (IH Hb). reflexivity.
Qed.

Lemma has_newline_line body : has_newline (body ++ [nl]) = true.
Proof.
  unfold has_newline. rewrite existsb_app. simpl.
  apply orb_true_iff. right. reflexivity.
Qed.

(** One complete line in the buffer: one call, with the line and its
    newline, and nothing is kept. *)
Lemma submit_line body s :
  has_newline body = false ->
  _submit_buffer sink_line_call (body ++ [nl]) false s =
  (sink_line_call (body ++ [nl]) ;; mret []) s.
Proof.
  intros H. unfold _submit_buffer.
  rewrite has_newline_line, (bytes_split_line _ H). simpl.
  unfold mbind, M_bind, mret, M_ret.
  destruct (sink_line_call (body ++ [nl]) s) as [[[]|e] s1]; reflexivity.
Qed.

End Facts.

End PopenFacts.

(** ** What a computation leaves alone *)

Section Preserves.
Context {St X : Type} (proj : St -> X).

Lemma preserves_ret {A} (a : A) : preserves proj (mret a).
Proof. intros s. reflexivity. Qed.

Lemma preserves_raise {A} e : preserves proj (raise e : M St A).
Proof. intros s. reflexivity. Qed.

Lemma preserves_bind {A B} (c : M St A) (k : A -> M St B) :
  preserves proj c -> (forall a, preserves proj (k a)) -> preserves proj (c ≫= k).
Proof.
  intros Hc Hk s. unfold mbind, M_bind. specialize (Hc s).
  destruct (c s) as [[a|e] s1]; simpl in *.
  - rewrite Hk. exact Hc.
  - exact Hc.
Qed.

(** After a step, steps that preserve [proj] leave it as the step left it. *)
Lemma bind_after {A B} (c : M St A) (k : A -> M St B) s :
  (forall a, preserves proj (k a)) -> proj (snd ((c ≫= k) s)) = proj (snd (c s)).
Proof.
  intros Hk. unfold mbind, M_bind.
  destruct (c s) as [[a|e] s1]; simpl; [apply Hk | reflexivity].
Qed.

Lemma preserves_for_each {A} (l : list A) (body : A -> M St unit) :
  (forall x, preserves proj (body x)) -> preserves proj (for_each l body).
Proof.
  intros Hb. induction l as [|x l IH]; simpl.
  - apply preserves_ret.
  - apply preserves_bind; [apply Hb | intros _; exact IH].
Qed.

Lemma preserves_for_fold {A B} (l : list B) (body : A -> B -> M St A) a :
  (forall a x, preserves proj (body a x)) -> preserves proj (for_fold l body a).
Proof.
  intros Hb. revert a. induction l as [|x l IH]; intros a; simpl.
  - apply preserves_ret.
  - apply preserves_bind; [apply Hb | intros a'; apply IH].
Qed.

Lemma preserves_py_index {A} (l : list A) i : preserves proj (py_index l i : M St A).
Proof. unfold py_index. destruct (l !! i); [apply preserves_ret | apply preserves_raise]. Qed.

Lemma preserves_py_del {A} (l : list A) i : preserves proj (py_del l i : M St (list A)).
Proof. unfold py_del. destruct (decide _); [apply preserves_ret | apply preserves_raise]. Qed.
End Preserves.

Create HintDb preserves.
#[local] Hint Resolve preserves_ret preserves_raise preserves_py_index
  preserves_py_del : preserves.

Module PopenLeaves.
Import Popen.

Section Sink.
Context {St X : Type} (proj : St -> X).
Variable sink_line_call : bytes -> M St unit.
Hypothesis sink_preserves : forall buf, preserves proj (sink_line_call buf).

Lemma submit_preserves buf force :
  preserves proj (_submit_buffer sink_line_call buf force).
Proof.
  unfold _submit_buffer. destruct (negb (has_newline buf)).
  - destruct force; [|apply preserves_ret].
    apply preserves_bind; [apply sink_preserves | intros; apply preserves_ret].
  - apply preserves_bind; [|intros; apply preserves_ret].
    apply preserves_for_each. intros _. apply sink_preserves.
Qed.

Lemma service_preserves n m ifd : preserves proj (service sink_line_call n m ifd).
Proof.
  destruct ifd as [i f]. unfold service.
  destruct (readline (pipe m f)) as [read rest].
  destruct (decide (length read = 0)).
  - apply preserves_bind; [auto with preserves|]. intros rl.
    apply preserves_bind; [auto with preserves|]. intros buf.
    apply preserves_bind.
    + destruct (decide (length buf = 0)); [apply preserves_ret | apply submit_preserves].
    + intros _. apply preserves_bind; auto with preserves.
  - apply preserves_bind; [auto with preserves|]. intros old.
    apply preserves_bind; [auto with preserves|]. intros cur.
    apply preserves_bind; [apply submit_preserves | auto with preserves].
Qed.

Lemma loop_preserves fuel : forall sched m, preserves proj (loop sink_line_call fuel sched m).
Proof.
  induction fuel as [|fuel IH]; intros sched m; simpl; [apply preserves_ret|].
  apply preserves_bind.
  - apply preserves_for_fold. intros; apply service_preserves.
  - intros m'. destruct (decide _); [apply preserves_ret | apply IH].
Qed.

Lemma communicate_sink_preserves out err sched :
  preserves proj (communicate_sink sink_line_call out err sched).
Proof.
  unfold communicate_sink. apply preserves_bind; [apply loop_preserves|].
  intros m'. apply preserves_for_each. intros buf.
  apply preserves_bind; [apply submit_preserves | auto with preserves].
Qed.
End Sink.

Section CheckedFacts.
Variable spawn : nat -> command -> child.

Lemma communicate_quiet proc f :
  quiet_sink f -> preserves spawned (communicate proc f).
Proof.
  intros Hq. unfold communicate. destruct f as [g|]; [|apply preserves_ret].
  apply communicate_sink_preserves. intros buf. apply (Hq g buf eq_refl).
Qed.

Lemma init_spawns_once call f w :
  quiet_sink f ->
  spawned (snd (__init__ spawn call f w)) = spawned w ++ [call].
Proof.
  intros Hq. unfold __init__.
  unfold mbind at 1 2, M_bind, get, modify. simpl.
  destruct (spawn_error (spawn (length (spawned w)) call)) as [e|]; [reflexivity|].
  rewrite (bind_after spawned).
  - reflexivity.
  - intros _. apply preserves_bind; [|intros; apply preserves_ret].
    destruct f as [g|]; [apply (Hq g _ eq_refl) | apply preserves_ret].
Qed.

(** One call of [checked], one spawn attempt: the call itself. *)
Lemma checked_spawns_once call f w :
  quiet_sink f ->
  spawned (snd (checked spawn call f w)) = spawned w ++ [call].
Proof.
  intros Hq. unfold checked. rewrite (bind_after spawned).
  - apply init_spawns_once. exact Hq.
  - intros proc. apply preserves_bind; [apply communicate_quiet; exact Hq|].
    intros r. destruct (decide _); auto with preserves.
Qed.

(** Without a sink [checked] turns the exit code into its result. *)
Lemma checked_no_sink call w :
  let proc := spawn (length (spawned w)) call in
  spawn_error proc = None ->
  checked spawn call None w =
  (if decide (returncode proc ≠ 0%Z)
   then Raise (CalledProcessError (returncode proc) (join_call call))
   else Ret tt,
   set_dirs (child_dirs proc) (add_spawned call w)).
Proof.
  intros proc Hs. unfold checked, __init__.
  unfold mbind, M_bind, get, modify, mret, M_ret. simpl. fold proc. rewrite Hs.
  simpl. destruct (decide _); reflexivity.
Qed.

(** With a sink, given that the sink and the multiplexer return. *)
Lemma checked_sink call g w w1 w2 :
  let proc := spawn (length (spawned w)) call in
  spawn_error proc = None ->
  g (encode ("$ " +:+ join_call call)) (set_dirs (child_dirs proc) (add_spawned call w))
    = (Ret tt, w1) ->
  communicate_sink g (child_stdout proc) (child_stderr proc) (child_ready proc) w1
    = (Ret tt, w2) ->
  checked spawn call (Some g) w =
  (if decide (returncode proc ≠ 0%Z)
   then Raise (CalledProcessError (returncode proc) (join_call call))
   else Ret tt, w2).
Proof.
  intros proc Hs Hg Hc. unfold checked, __init__.
  unfold mbind, M_bind, get, modify, mret, M_ret. simpl. fold proc. rewrite Hs.
  simpl. rewrite Hg. unfold communicate. rewrite Hc.
  destruct (decide _); reflexivity.
Qed.
(** With a sink, a child that has written to stdout alone and has exited
    before the first [select] makes [checked] raise [IndexError], whatever
    its exit code. *)
Lemma checked_exited_child_raises call g w w1 :
  let proc := spawn (length (spawned w)) call in
  spawn_error proc = None ->
  child_stdout proc <> [] -> child_stderr proc = [] -> child_ready proc = [] ->
  g (encode ("$ " +:+ join_call call)) (set_dirs (child_dirs proc) (add_spawned call w))
    = (Ret tt, w1) ->
  checked spawn call (Some g) w = (Raise IndexError, w1).
Proof.
  intros proc Hs Hout Herr Hready Hg. unfold checked, __init__.
  unfold mbind, M_bind, get, modify, mret, M_ret. simpl. fold proc. rewrite Hs.
  simpl. rewrite Hg. unfold communicate. rewrite Herr, Hready.
  rewrite (PopenFacts.communicate_exited_child_raises g _ w1 Hout). reflexivity.
Qed.
End CheckedFacts.

End PopenLeaves.

(** ** The multiplexer on concrete runs *)

(** While only stdout is ever readable before both channels close, the
    lines arrive one call each, in order. *)
Example communicate_stdout_first :
  Popen.communicate_sink record (line "out1" ++ line "out2") []
    [FirstReady; FirstReady; FirstReady] []
  = (Ret tt, [line "out1"; line "out2"]).
Proof. vm_compute. reflexivity. Qed.

(** A buffer that holds two lines is handed over whole, once per line. *)
Example submit_buffer_two_lines :
  Popen._submit_buffer record (line "a" ++ line "b") false []
  = (Ret [], [line "a" ++ line "b"; line "a" ++ line "b"]).
Proof. vm_compute. reflexivity. Qed.

(** C1 (as the code has it): the multiplexer does not deliver every line
    once.  (1) The child has written two lines to stdout, nothing to stderr,
    and has exited before the first [select]: stderr is dropped first, and
    the line read from stdout is then stored at an index that is gone;
    [communicate] raises [IndexError] and no line reaches the sink.
    (2) stderr closes while stdout is not yet readable: the entry of stdout
    is the one dropped, and its two lines are lost.  (3) stderr ends with
    the unterminated [err]: it is kept in the buffer of stdout and reaches
    the sink inside the next line of stdout. *)
Theorem communicate_loses_and_merges_lines :
  Popen.communicate_sink record (line "out1" ++ line "out2") [] [] []
    = (Raise IndexError, [])
  /\ Popen.communicate_sink record (line "out1" ++ line "out2") [] [LastReady] []
    = (Ret tt, [])
  /\ Popen.communicate_sink record (line "out1" ++ line "out2") (encode "err")
       [AllReady; FirstReady] []
    = (Ret tt, [line "out1"; encode "err" ++ line "out2"]).
Proof. repeat split; vm_compute; reflexivity. Qed.

(** C6 (as the code has it): with a sink, [checked] does not return for
    every child that exits with 0.  The child of [echo hi] has written its
    line and exited before the first [select]; [communicate] raises
    [IndexError], which leaves [checked] before the exit code is looked at.
    The command line is the only thing the sink has received. *)
Theorem checked_exit_0_raises_with_sink :
  Popen.checked (fun _ _ => wrote (line "hi") [] 0) (Argv ["echo"; "hi"])
    (Some announce) world0
  = (Raise IndexError,
     mkWorld ["/var/www/site"] "/" [Argv ["echo"; "hi"]]
       [SendMessage "docs@conference.example.org" (Text "$ echo hi") None "groupchat"]
       (config_in "/" "projects = []")).
Proof. vm_compute. reflexivity. Qed.

(** The same child with a failing exit code: the error is the
    [IndexError], not the exit code. *)
Example checked_exit_2_raises_index_error :
  fst (Popen.checked (fun _ _ => wrote (line "hi") [] 2) (Argv ["echo"; "hi"])
         (Some announce) world0)
  = Raise IndexError.
Proof. vm_compute. reflexivity. Qed.

(** A silent child: the exit code decides, with a sink as without. *)
Example checked_silent_child :
  fst (Popen.checked (fun _ _ => exits 0) (Argv ["true"]) (Some announce) world0) = Ret tt
  /\ fst (Popen.checked (fun _ _ => exits 0) (Argv ["true"]) None world0) = Ret tt
  /\ fst (Popen.checked (fun _ _ => exits 3) (Argv ["make"; "html"]) (Some announce) world0)
     = Raise (CalledProcessError 3 "make html")
  /\ fst (Popen.checked (fun _ _ => exits 3) (Prog "make") None world0)
     = Raise (CalledProcessError 3 "m a k e").
Proof. repeat split; vm_compute; reflexivity. Qed.

(** ** BuildEnvironment *)

Module BuildEnvironmentFacts.
Import BuildEnvironment.

Lemma rmtree_below d p ds : below d p = true -> p ∉ rmtree d ds.
Proof.
  intros Hb Hin. unfold rmtree in Hin.
  apply list_elem_of_filter in Hin as [Hf _]. congruence.
Qed.

Section Enter.
Variable spawn : nat -> command -> child.
Variable mkdtemp : list string -> string.

(** C2: an environment without a fixed directory whose acquisition fails
    leaves no temporary directory behind.  Whatever step raises [e], the
    directory that was created, and all below it, is removed, and then
    [e] itself leaves [__enter__]. *)
Theorem enter_failure_removes_tmp_dir self w e w' :
  tmp_dir self = None ->
  __enter__ spawn mkdtemp self w = (Raise e, w') ->
  let name := mkdtemp (dirs w) in
  exists w1,
    acquire spawn (set_tmp self (Some name) (Some name)) name
      (set_dirs (cons name) w) = (Raise e, w1)
    /\ w' = set_dirs (rmtree name) w1
    /\ forall p, below name p = true -> p ∉ dirs w'.
Proof.
  intros Htmp H name. unfold __enter__ in H. rewrite Htmp in H.
  unfold mbind at 1, M_bind in H.
  unfold TemporaryDirectory, get, modify in H.
  unfold mbind at 1 2, M_bind, mret, M_ret in H. simpl in H. fold name in H.
  unfold try_except in H. unfold mbind at 1, M_bind in H.
  destruct (acquire spawn (set_tmp self (Some name) (Some name)) name
              (set_dirs (cons name) w)) as [[[]|e1] w1] eqn:Hacq.
  - discriminate H.
  - unfold cleanup, modify, raise, mbind, M_bind in H. simpl in H.
    inversion H; subst e1 w'. exists w1. repeat split.
    intros p Hp. simpl. apply rmtree_below. exact Hp.
Qed.

(** Leaving the environment removes the directory it owns. *)
Lemma exit_removes_tmp_dir self name w :
  tmp_dir_context self = Some name ->
  __exit__ self w = (Ret false, set_dirs (rmtree name) w).
Proof. intros H. unfold __exit__. rewrite H. reflexivity. Qed.
End Enter.

End BuildEnvironmentFacts.

Lemma enter_failure_removes_tmp_dir_witness :
  exists w1,
    BuildEnvironment.acquire (fails_at 0 128)
      (BuildEnvironment.set_tmp env_html (Some "/tmp/tmpq3x") (Some "/tmp/tmpq3x"))
      "/tmp/tmpq3x" (set_dirs (cons "/tmp/tmpq3x") world0)
    = (Raise (CalledProcessError 128
                "git clone git://example.org/docs.git /tmp/tmpq3x"), w1)
    /\ mkWorld ["/var/www/site"] "/tmp/tmpq3x"
         [Argv ["git"; "clone"; "git://example.org/docs.git"; "/tmp/tmpq3x"]]
         [SendMessage "docs@conference.example.org"
            (Text "$ git clone git://example.org/docs.git /tmp/tmpq3x") None "groupchat"]
         (config_in "/" "projects = []")
       = set_dirs (rmtree "/tmp/tmpq3x") w1
    /\ forall p, below "/tmp/tmpq3x" p = true ->
         p ∉ dirs (mkWorld ["/var/www/site"] "/tmp/tmpq3x"
         [Argv ["git"; "clone"; "git://example.org/docs.git"; "/tmp/tmpq3x"]]
         [SendMessage "docs@conference.example.org"
            (Text "$ git clone git://example.org/docs.git /tmp/tmpq3x") None "groupchat"]
         (config_in "/" "projects = []")).
Proof.
  apply (BuildEnvironmentFacts.enter_failure_removes_tmp_dir
           (fails_at 0 128) mkdtemp0 env_html world0).
  - reflexivity.
  - vm_compute. reflexivity.
Defined.

(** The failure injected at each step in turn: clone, checkout, pull,
    submodule init, submodule update.  Each time the step's error leaves
    [__enter__] and only the directory that was there before is left. *)
Example enter_failure_at_each_step :
  let run k := BuildEnvironment.__enter__ (fails_at k 1) mkdtemp0 env_html world0 in
  let failed k cmd :=
    (match fst (run k) with Raise e => Some e | Ret _ => None end,
     dirs (snd (run k)), length (spawned (snd (run k))))
    = (Some (CalledProcessError 1 cmd), ["/var/www/site"], S k) in
  failed 0 "git clone git://example.org/docs.git /tmp/tmpq3x"
  /\ failed 1 "git checkout master"
  /\ failed 2 "git pull"
  /\ failed 3 "git submodule init theme"
  /\ failed 4 "git submodule update theme".
Proof. repeat split; vm_compute; reflexivity. Qed.

(** Without a failure the directory is there when [__enter__] returns. *)
Example enter_success_keeps_tmp_dir :
  dirs (snd (BuildEnvironment.__enter__ (fun _ _ => exits 0) mkdtemp0 env_html world0))
  = ["/tmp/tmpq3x"; "/var/www/site"].
Proof. vm_compute. reflexivity. Qed.

(** ** Build and BuildAndMove *)

Module BuildFacts.
Import PopenLeaves.

Section DoBuild.
Variable spawn : nat -> command -> child.

(** The commands are started in order, up to the first that fails. *)
Lemma do_build_spawns self env w :
  quiet_sink (BuildEnvironment.log_func env) ->
  exists k,
    k <= length (Build.commands self)
    /\ spawned (snd (Build._do_build spawn self env w))
       = spawned w ++ firstn k (Build.commands self)
    /\ (fst (Build._do_build spawn self env w) = Ret tt ->
        k = length (Build.commands self)).
Proof.
  intros Hq. unfold Build._do_build.
  generalize (Build.commands self) as cmds. intros cmds. revert w.
  induction cmds as [|c cmds IH]; intros w.
  - exists 0. simpl. rewrite app_nil_r. repeat split. lia.
  - simpl. unfold mbind, M_bind.
    pose proof (checked_spawns_once spawn c _ w Hq) as Hc.
    destruct (Popen.checked spawn c (BuildEnvironment.log_func env) w)
      as [[[]|e] w1]; simpl in Hc.
    + destruct (IH w1) as (k & Hk & Hs & Hr).
      exists (S k). simpl. rewrite Hs, Hc, <- app_assoc. repeat split.
      * lia.
      * intros H. rewrite (Hr H). reflexivity.
    + exists 1. simpl. rewrite Hc, firstn_O. repeat split.
      * lia.
      * discriminate.
Qed.

Variable format_builddir : string -> option string -> outcome string.

(** C7: when a configured command fails, [BuildAndMove._do_build] ends
    there with the same error and the same world: the processes started
    are a prefix of the configured commands, and neither the [rm -rf]
    nor the [mv] of the relocation step is started. *)
Theorem move_not_attempted_after_failure self env w e w' :
  quiet_sink (BuildEnvironment.log_func env) ->
  Build._do_build spawn (BuildAndMove.base self) env w = (Raise e, w') ->
  BuildAndMove._do_build spawn format_builddir self env w = (Raise e, w')
  /\ exists k,
       k <= length (Build.commands (BuildAndMove.base self))
       /\ spawned w' = spawned w ++ firstn k (Build.commands (BuildAndMove.base self)).
Proof.
  intros Hq H. split.
  - unfold BuildAndMove._do_build. apply bind_raise_l. exact H.
  - destruct (do_build_spawns (BuildAndMove.base self) env w Hq) as (k & Hk & Hs & _).
    rewrite H in Hs. exists k. split; [exact Hk | exact Hs].
Qed.

(** When every command succeeds, the relocation step follows. *)
Lemma move_attempted_after_success self env d w w1 :
  Build._do_build spawn (BuildAndMove.base self) env w = (Ret tt, w1) ->
  BuildAndMove.move_from self = None ->
  BuildEnvironment.tmp_dir env = Some d ->
  quiet_sink (BuildEnvironment.log_func env) ->
  exists rest,
    spawned (snd (BuildAndMove._do_build spawn format_builddir self env w))
    = spawned w1 ++ Argv ["rm"; "-rf"; BuildAndMove.move_to self] :: rest.
Proof.
  intros H Hfrom Htmp Hq. unfold BuildAndMove._do_build.
  rewrite (bind_ret_l _ _ _ _ _ H), Hfrom, Htmp.
  unfold mbind at 1, M_bind, mret, M_ret.
  unfold mbind, M_bind.
  pose proof (checked_spawns_once spawn
                (Argv ["rm"; "-rf"; BuildAndMove.move_to self]) _ w1 Hq) as Hrm.
  destruct (Popen.checked spawn (Argv ["rm"; "-rf"; BuildAndMove.move_to self])
              (BuildEnvironment.log_func env) w1) as [[[]|e] w2]; simpl in Hrm.
  - pose proof (checked_spawns_once spawn
                  (Argv ["mv"; d; BuildAndMove.move_to self]) _ w2 Hq) as Hmv.
    rewrite Hrm in Hmv. rewrite <- app_assoc in Hmv. simpl in Hmv.
    eexists. exact Hmv.
  - exists []. exact Hrm.
Qed.
End DoBuild.

End BuildFacts.

Lemma move_not_attempted_after_failure_witness :
  BuildAndMove._do_build (fails_at 1 2) format_plain site_build env_site world0
  = (Raise (CalledProcessError 2 "make check"),
     mkWorld ["/var/www/site"] "/" [Argv ["make"; "site"]; Argv ["make"; "check"]]
       [SendMessage "docs@conference.example.org" (Text "$ make site") None "groupchat";
        SendMessage "docs@conference.example.org" (Text "$ make check") None "groupchat"]
       (config_in "/" "projects = []"))
  /\ exists k,
       k <= length (Build.commands (BuildAndMove.base site_build))
       /\ [Argv ["make"; "site"]; Argv ["make"; "check"]]
          = spawned world0 ++ firstn k (Build.commands (BuildAndMove.base site_build)).
Proof.
  apply (BuildFacts.move_not_attempted_after_failure (fails_at 1 2) format_plain
           site_build env_site world0).
  - intros g buf Hg. inversion Hg; subst g. intros w. reflexivity.
  - vm_compute. reflexivity.
Defined.

(** The whole build of [site]: with the second command failing no [rm] and
    no [mv] is started; with every command succeeding both are. *)
Example site_build_runs :
  spawned (snd (DocBot.build (fails_at 4 2) mkdtemp0 format_plain site (Some announce) world0))
  = [Argv ["git"; "clone"; "git://example.org/docs.git"; "/tmp/tmpq3x"];
     Argv ["git"; "checkout"; "master"]; Argv ["git"; "pull"];
     Argv ["make"; "site"]; Argv ["make"; "check"]]
  /\ spawned (snd (DocBot.build (fun _ _ => exits 0) mkdtemp0 format_plain site
                     (Some announce) world0))
  = [Argv ["git"; "clone"; "git://example.org/docs.git"; "/tmp/tmpq3x"];
     Argv ["git"; "checkout"; "master"]; Argv ["git"; "pull"];
     Argv ["make"; "site"]; Argv ["make"; "check"];
     Argv ["rm"; "-rf"; "/var/www/site"];
     Argv ["mv"; "/tmp/tmpq3x"; "/var/www/site"]].
Proof. split; vm_compute; reflexivity. Qed.

(** ** DocBot: rebuild, reload, notifications *)

Module DocBotFacts.
Import DocBot.

Section Host.
Variable spawn : nat -> command -> child.
Variable mkdtemp : list string -> string.
Variable format_builddir : string -> option string -> outcome string.
Variable decode : bytes -> outcome string.
Variable exec_conf : string -> outcome namespace.
Variable globals : list string.

(** Whatever the build does, [rebuild] of a build returns and the last
    thing it has sent is the idle subject line.  The build may succeed, a
    command or the move may fail, the acquisition of the environment may
    fail, the sink may raise: the [finally] block sends the announcement
    on all of these ways out. *)
Lemma rebuild_announces_idle self b w :
  exists w',
    rebuild spawn mkdtemp format_builddir decode self (BuildObj b) w = (Ret tt, w')
    /\ last (events w') = Some (idle self).
Proof.
  unfold rebuild. unfold mbind at 1, M_bind.
  unfold send_message at 1, modify.
  unfold try_finally.
  match goal with
  | |- context [try_except ?c ?h ?s] =>
      assert (Htry : exists w1, try_except c h s = (Ret tt, w1));
      [ unfold try_except; destruct (c s) as [[[]|e] w1];
        [ eexists; reflexivity | eexists; reflexivity ]
      | destruct Htry as (w1 & ->) ]
  end.
  eexists. split; [reflexivity|]. simpl. apply last_snoc.
Qed.

(** A failing build is reported to both rooms before the idle line. *)
Lemma rebuild_reports_failure self b w e w1 :
  let topic := "Rebuilding " +:+ Build.name (build_of b)
               +:+ " from project " +:+ project_name (Build.project (build_of b)) in
  let w0 := add_event (SendMessage (switch self) (Text topic) None "groupchat")
              (add_event (SendMessage (switch self) (Text EmptyString) (Some topic)
                            "groupchat") w) in
  build spawn mkdtemp format_builddir b
    (Some (fun buf => match decode buf with
                      | Ret s => if decide (strip s = EmptyString) then mret tt
                                 else send_message (switch self) (Text (strip s)) None
                                        "groupchat"
                      | Raise e => raise e
                      end)) w0 = (Raise e, w1) ->
  exists report,
    rebuild spawn mkdtemp format_builddir decode self (BuildObj b) w
    = (Ret tt,
       mkWorld (dirs w1) (cwd w1) (spawned w1)
         (events w1 ++ [SendMessage (bots_switch self) (Text report) None "groupchat";
                        SendMessage (switch self) (Traceback (Some e)) None "groupchat";
                        Print (PStr "Exception during docbuild logged to muc.");
                        idle self])
         (configs w1)).
Proof.
  intros topic w0 H. eexists. unfold rebuild.
  unfold mbind at 1, M_bind. unfold send_message at 1, modify.
  unfold try_finally, try_except.
  unfold mbind at 1, M_bind. unfold send_message at 1, modify.
  fold topic. fold w0.
  unfold mbind at 1, M_bind. rewrite H.
  unfold mbind, M_bind, send_message, print, modify, formatException, add_event.
  simpl. rewrite <- !app_assoc. reflexivity.
Qed.

(** C8: a configuration document that does not evaluate leaves the bot
    as it was.  [reloadConfig] returns the error, and the authorized
    set, the blacklist, the projects and the dispatch table are the ones
    from before; nothing is printed or sent. *)
Theorem reload_error_keeps_state self w conf e :
  docbot_config w = Some conf ->
  exec_conf conf = Raise e ->
  reloadConfig exec_conf (self, w) = (Ret (Some e), (self, w)).
Proof.
  intros Hconf Hexec. unfold reloadConfig.
  unfold mbind, M_bind, get, mret, M_ret. simpl.
  rewrite Hconf, Hexec. reflexivity.
Qed.

(** A document that evaluates replaces all four. *)
Lemma reload_success self w conf ns :
  docbot_config w = Some conf ->
  exec_conf conf = Ret ns ->
  exists table w',
    reloadConfig exec_conf (self, w)
    = (Ret None,
       (Make (remove_dups (default [] (ns_authorized ns))) []
          (dict_of (default [] (ns_projects ns))) table
          (switch self) (bots_switch self) (nick self), w')).
Proof.
  intros Hconf Hexec. unfold reloadConfig.
  unfold mbind, M_bind, get, mret, M_ret. simpl.
  rewrite Hconf, Hexec. simpl. eexists. eexists. reflexivity.
Qed.

(** C3 (as the code has it): a malformed notification is not dropped.
    Without a [ref] the handler prints its complaint and goes on to
    split the missing text, which raises [AttributeError]; with a [ref]
    of fewer than three segments, such as [master] or [refs/heads],
    taking segment 2 raises [IndexError].  Both leave the handler. *)
Theorem malformed_notification_raises self repo w :
  pubsubPublish spawn mkdtemp format_builddir decode self
    (Notification (Some repo) None) w
  = (Raise (AttributeError "split"),
     add_event (Print (PStr "Malformed git-post-update.")) w)
  /\ pubsubPublish spawn mkdtemp format_builddir decode self
       (Notification (Some repo) (Some "master")) w
     = (Raise IndexError, w)
  /\ pubsubPublish spawn mkdtemp format_builddir decode self
       (Notification (Some repo) (Some "refs/heads")) w
     = (Raise IndexError, w).
Proof. repeat split; reflexivity. Qed.

(** The branch is the segment at index 2 of the ref. *)
Lemma notification_branch self repo ref branch w :
  str_split "/" ref !! 2 = Some branch ->
  pubsubPublish spawn mkdtemp format_builddir decode self
    (Notification (Some repo) (Some ref)) w
  = match dict_get (repo, branch) (repobranch_map self) with
    | Some builds =>
        for_each builds
          (fun b => rebuild spawn mkdtemp format_builddir decode self (BuildObj b)) w
    | None => (Ret tt, add_event (Print (PRepobranch (Some repo) branch)) w)
    end.
Proof.
  intros H. unfold pubsubPublish. simpl.
  unfold mbind at 1 2, M_bind, mret, M_ret.
  unfold mbind at 1, M_bind, py_index. rewrite H. simpl.
  destruct (dict_get (repo, branch) (repobranch_map self)); reflexivity.
Qed.
End Host.

End DocBotFacts.

(** C9 (as the code has it): not every invocation of [rebuild] announces
    the idle status.  The command [rebuild] hands [rebuild] the project it
    has looked up, not a build; [rebuild] reads [build.project] of it
    before its [try] block and before any message is sent, so it raises
    [AttributeError], whatever the project and the host, and sends
    nothing: no subject line is set, the idle line included.  So it is
    with [rebuild 'docs'] for the configured project [docs], the one
    invocation the command channel makes: the one thing sent is the reply
    with the trace. *)
Theorem rebuild_of_project_announces_nothing :
  (forall spawn mkdtemp format_builddir decode self p w,
     DocBot.rebuild spawn mkdtemp format_builddir decode self (ProjectObj p) w
     = (Raise (AttributeError "project"), w))
  /\ option_map (fun r => (fst r, events (snd (snd r))))
       (handle bot0 "bob@example.org" "rebuild 'docs'")
     = Some (Ret tt,
             [Reply (chat "bob@example.org" "rebuild 'docs'")
                (Traceback (Some (AttributeError "project")))])
  /\ option_map (fun r => subjects (snd (snd r)))
       (handle bot0 "bob@example.org" "rebuild 'docs'")
     = Some [].
Proof.
  split; [intros; reflexivity|].
  split; vm_compute; reflexivity.
Qed.

Lemma reload_error_keeps_state_witness :
  DocBot.reloadConfig exec_example
    (bot0, mkWorld [] "/" [] [] (config_in "/" "projects = ["))
  = (Ret (Some SyntaxError), (bot0, mkWorld [] "/" [] [] (config_in "/" "projects = ["))).
Proof.
  apply (DocBotFacts.reload_error_keeps_state exec_example bot0
           (mkWorld [] "/" [] [] (config_in "/" "projects = [")) "projects = [" SyntaxError).
  - reflexivity.
  - vm_compute. reflexivity.
Defined.

(** ** Strings *)

Module StringFacts.

Lemma app_cons x (a b : string) : String x a +:+ b = String x (a +:+ b).
Proof. reflexivity. Qed.

Lemma app_nil_l' (b : string) : EmptyString +:+ b = b.
Proof. reflexivity. Qed.

Lemma string_forall_app p s1 s2 :
  string_forall p (s1 +:+ s2) = string_forall p s1 && string_forall p s2.
Proof.
  induction s1 as [|c s1 IH]; [reflexivity|].
  rewrite app_cons. simpl. rewrite IH. apply andb_assoc.
Qed.

Lemma string_has_false c s :
  string_has c s = false <-> string_forall (fun c' => negb (Ascii.eqb c c')) s = true.
Proof. unfold string_has. destruct (string_forall _ s); simpl; split; congruence. Qed.

Lemma app_assoc' (a b c : string) : (a +:+ b) +:+ c = a +:+ (b +:+ c).
Proof.
  induction a as [|x a IH]; [reflexivity|]. rewrite !app_cons, IH. reflexivity.
Qed.

Lemma app_nil_r' (a : string) : a +:+ EmptyString = a.
Proof. induction a as [|x a IH]; [reflexivity|]. rewrite app_cons, IH. reflexivity. Qed.

Lemma length_app' (a b : string) :
  String.length (a +:+ b) = String.length a + String.length b.
Proof.
  induction a as [|x a IH]; [reflexivity|]. rewrite app_cons. simpl. rewrite IH. reflexivity.
Qed.

Lemma substring_prefix (a b : string) : substring 0 (String.length a) (a +:+ b) = a.
Proof.
  induction a as [|x a IH]; [destruct b; reflexivity|].
  rewrite app_cons. simpl. rewrite IH. reflexivity.
Qed.

Lemma substring_last (a : string) c :
  substring (String.length a) 1 (a +:+ String c EmptyString) = String c EmptyString.
Proof. induction a as [|x a IH]; [reflexivity|]. rewrite app_cons. simpl. exact IH. Qed.

Lemma str_split_cons sep c s :
  str_split sep (String c s)
  = if Ascii.eqb sep c then EmptyString :: str_split sep s
    else match str_split sep s with
         | seg :: segs => String c seg :: segs
         | [] => [String c EmptyString]
         end.
Proof. reflexivity. Qed.

Lemma str_split_nonempty sep s : str_split sep s <> [].
Proof.
  destruct s as [|c s]; [discriminate|]. rewrite str_split_cons.
  destruct (Ascii.eqb sep c); [discriminate|].
  destruct (str_split sep s); discriminate.
Qed.

(** Joining the words of [s] with [", "] replaces every space of [s] by
    a comma and a space. *)
Lemma join_split_cons c s :
  join ", " (str_split " " (String c s))
  = if Ascii.eqb " " c then ", " +:+ join ", " (str_split " " s)
    else String c (join ", " (str_split " " s)).
Proof.
  unfold join. rewrite str_split_cons.
  pose proof (str_split_nonempty " " s) as Hne.
  destruct (Ascii.eqb " " c).
  - destruct (str_split " " s) as [|seg segs]; [congruence|]. reflexivity.
  - destruct (str_split " " s) as [|seg segs]; [congruence|].
    destruct segs; reflexivity.
Qed.

Lemma join_split_snoc s c :
  Ascii.eqb " " c = false ->
  join ", " (str_split " " (s +:+ String c EmptyString))
  = join ", " (str_split " " s) +:+ String c EmptyString.
Proof.
  intros Hc. induction s as [|x s IH].
  - change (EmptyString +:+ String c EmptyString) with (String c EmptyString).
    rewrite join_split_cons, Hc. reflexivity.
  - change (String x s +:+ String c EmptyString) with (String x (s +:+ String c EmptyString)).
    rewrite !join_split_cons, IH. destruct (Ascii.eqb " " x); reflexivity.
Qed.

Lemma string_forall_join_split p s :
  p ","%char = true -> p " "%char = true ->
  string_forall p s = true ->
  string_forall p (join ", " (str_split " " s)) = true.
Proof.
  intros Hcomma Hspace. induction s as [|x s IH]; intros H; [reflexivity|].
  simpl in H. apply andb_true_iff in H as [Hx Hs].
  rewrite join_split_cons. destruct (Ascii.eqb " " x).
  - simpl. rewrite Hcomma, Hspace. simpl. apply IH. exact Hs.
  - simpl. rewrite Hx. simpl. apply IH. exact Hs.
Qed.

End StringFacts.

(** ** DocBot: the command channel *)

Module CommandFacts.
Import DocBot StringFacts.

Lemma fold_attr_is_attr attrs e a :
  exists e' a', fold_left EAttr attrs (EAttr e a) = EAttr e' a'.
Proof.
  revert e a. induction attrs as [|b attrs IH]; intros e a; simpl.
  - exists e, a. reflexivity.
  - apply IH.
Qed.

Lemma parse_dotted_literal s v : parse_dotted s = Some (ELit v) -> literal v = true.
Proof.
  unfold parse_dotted. destruct (str_split "." s) as [|x attrs]; [discriminate|].
  destruct (decide (attrs = [])).
  - repeat (destruct (decide _); [intros H; inversion H; reflexivity|]).
    destruct (is_name x); discriminate.
  - destruct (is_name x && forallb is_name attrs); [|discriminate].
    destruct attrs as [|a attrs]; [congruence|]. simpl.
    destruct (fold_attr_is_attr attrs (EName x) a) as (e' & a' & ->). discriminate.
Qed.

(** The literals [parse_arg] reads stand for values of the fragment. *)
Lemma parse_arg_literal tok v : parse_arg tok = Some (ELit v) -> literal v = true.
Proof.
  destruct tok as [|c rest]; simpl; [discriminate|].
  destruct (Ascii.eqb c squote || Ascii.eqb c dquote).
  - unfold parse_str.
    destruct (_ && string_forall is_printable _) eqn:Hcond; [|discriminate].
    intros H. inversion H; subst v.
    apply andb_true_iff in Hcond as [_ Hp]. exact Hp.
  - destruct (is_digit c).
    + unfold parse_int. destruct (_ && _); [|discriminate].
      intros H. inversion H. reflexivity.
    + apply parse_dotted_literal.
Qed.

Lemma mapM_parse_literal toks vs :
  mapM parse_arg toks = Some (map ELit vs) -> forallb literal vs = true.
Proof.
  revert vs. induction toks as [|tok toks IH]; intros vs H.
  - destruct vs; [reflexivity | discriminate H].
  - simpl in H. destruct (parse_arg tok) as [e|] eqn:He; [|discriminate].
    simpl in H. destruct (mapM parse_arg toks) as [es|]; [|discriminate].
    simpl in H. destruct vs as [|v vs]; [discriminate|].
    inversion H; subst e es. simpl.
    rewrite (parse_arg_literal _ _ He). apply IH. reflexivity.
Qed.

Lemma parse_args_literal text vs :
  parse_args text = Some (map ELit vs) -> forallb literal vs = true.
Proof.
  unfold parse_args. destruct (split_args Out EmptyString [] text) as [toks|]; [|discriminate].
  apply mapM_parse_literal.
Qed.

(** A string literal, whatever spaces it holds, is one argument. *)
Lemma split_args_in q name : forall cur,
  string_has q name = false ->
  split_args (In q) cur [] (name +:+ String q EmptyString)
  = Some [cur +:+ name +:+ String q EmptyString].
Proof.
  induction name as [|c name IH]; intros cur H.
  - simpl. rewrite Ascii.eqb_refl. reflexivity.
  - apply string_has_false in H. simpl in H. apply andb_true_iff in H as [Hc Hn].
    apply string_has_false in Hn.
    rewrite app_cons. simpl.
    rewrite Ascii.eqb_sym. apply negb_true_iff in Hc. rewrite Hc.
    rewrite (IH _ Hn), app_assoc'. reflexivity.
Qed.

Lemma parse_string_literal q name :
  q = squote \/ q = dquote ->
  string_forall is_printable name = true ->
  string_has q name = false ->
  string_has backslash name = false ->
  parse_args (String q (name +:+ String q EmptyString)) = Some [ELit (VStr name)].
Proof.
  intros Hq Hp Hnq Hnb. unfold parse_args.
  assert (Hsplit : split_args Out EmptyString [] (String q (name +:+ String q EmptyString))
                   = Some [String q (name +:+ String q EmptyString)]).
  { destruct Hq as [-> | ->]; simpl; rewrite (split_args_in _ _ _ Hnq); reflexivity. }
  rewrite Hsplit. simpl.
  assert (Hparse : parse_str q (name +:+ String q EmptyString) = Some (ELit (VStr name))).
  { unfold parse_str. rewrite length_app'. simpl String.length.
    replace (String.length name + 1 - 1) with (String.length name) by lia.
    rewrite substring_prefix, substring_last, String.eqb_refl, Hnq, Hnb, Hp.
    replace (1 <=? String.length name + 1)%nat with true
      by (symmetry; apply Nat.leb_le; lia).
    reflexivity. }
  destruct Hq as [-> | ->]; simpl; rewrite Hparse; reflexivity.
Qed.

Lemma str_split_first cmd s :
  string_has " " cmd = false ->
  str_split " " (cmd +:+ " " +:+ s) = cmd :: str_split " " s.
Proof.
  intros H. apply string_has_false in H.
  induction cmd as [|x cmd IH]; [reflexivity|].
  cbn [string_forall] in H. apply andb_true_iff in H as [Hx Hc]. apply negb_true_iff in Hx.
  rewrite app_cons, str_split_cons, Hx, (IH Hc). reflexivity.
Qed.

(** The argument of [cmd 'text']: the text with every space replaced by a
    comma and a space. *)
Lemma arg_exprs_string_literal cmd q inner :
  string_has " " cmd = false ->
  q = squote \/ q = dquote ->
  string_forall is_printable inner = true ->
  string_has q inner = false ->
  string_has backslash inner = false ->
  hd EmptyString (str_split " " (cmd +:+ " " +:+ String q (inner +:+ String q EmptyString)))
  = cmd
  /\ arg_exprs (cmd +:+ " " +:+ String q (inner +:+ String q EmptyString))
     = Some [ELit (VStr (join ", " (str_split " " inner)))].
Proof.
  intros Hcmd Hq Hp Hnq Hnb.
  assert (Hq' : Ascii.eqb " " q = false) by (destruct Hq as [-> | ->]; reflexivity).
  rewrite (str_split_first _ _ Hcmd). split; [reflexivity|].
  unfold arg_exprs. rewrite (str_split_first _ _ Hcmd). cbn [tl].
  change (String.concat ", " (str_split " " (String q (inner +:+ String q EmptyString))))
    with (join ", " (str_split " " (String q (inner +:+ String q EmptyString)))).
  rewrite join_split_cons, Hq', join_split_snoc by exact Hq'.
  apply parse_string_literal; [exact Hq| | |].
  - apply string_forall_join_split; [reflexivity | reflexivity | exact Hp].
  - apply string_has_false. apply string_forall_join_split.
    + destruct Hq as [-> | ->]; reflexivity.
    + destruct Hq as [-> | ->]; reflexivity.
    + apply string_has_false. exact Hnq.
  - apply string_has_false. apply string_forall_join_split;
      [reflexivity | reflexivity | apply string_has_false; exact Hnb].
Qed.

Lemma pretty_N_char_printable n : is_printable (pretty_N_char n) = true.
Proof.
  destruct n as [|p]; [reflexivity|].
  do 4 (try reflexivity; destruct p as [p|p|]); reflexivity.
Qed.

Lemma pretty_N_go_printable x : forall s,
  string_forall is_printable s = true ->
  string_forall is_printable (pretty_N_go x s) = true.
Proof.
  induction (N.lt_wf_0 x) as [x _ IH]. intros s Hs.
  destruct (decide (x = 0%N)) as [->|Hx].
  - rewrite pretty_N_go_0. exact Hs.
  - rewrite pretty_N_go_step by lia. apply IH.
    + apply N.div_lt; lia.
    + cbn [string_forall]. rewrite pretty_N_char_printable. exact Hs.
Qed.

Lemma pretty_N_printable (x : N) : string_forall is_printable (pretty x) = true.
Proof.
  unfold pretty, pretty_N. destruct (decide (x = 0%N)); [reflexivity|].
  apply pretty_N_go_printable. reflexivity.
Qed.

(** [str] of an integer holds digits and a sign. *)
Lemma pretty_Z_printable (z : Z) : string_forall is_printable (pretty z) = true.
Proof.
  destruct z as [|p|p]; [reflexivity| |].
  - apply (pretty_N_printable (N.pos p)).
  - change (pretty (Z.neg p)) with ("-" +:+ pretty (N.pos p)).
    rewrite string_forall_app. rewrite (pretty_N_printable (N.pos p)). reflexivity.
Qed.

(** The values of literals have a text, of printable characters. *)
Lemma literal_shown v :
  literal v = true ->
  exists s, py_str v = Some s /\ string_forall is_printable s = true.
Proof.
  destruct v as [| [] | z | s | elems | | | | x]; simpl; intros H; try discriminate H.
  - exists "None". split; reflexivity.
  - exists "True". split; reflexivity.
  - exists "False". split; reflexivity.
  - exists (pretty z). split; [reflexivity | apply pretty_Z_printable].
  - exists s. split; [reflexivity | exact H].
Qed.

Lemma literals_shown vs :
  forallb literal vs = true ->
  exists strs, mapM py_str vs = Some strs
               /\ string_forall is_printable (join " " strs) = true.
Proof.
  induction vs as [|v vs IH]; intros H.
  - exists []. split; reflexivity.
  - simpl in H. apply andb_true_iff in H as [Hv Hvs].
    destruct (literal_shown v Hv) as (s & Hs & Hp).
    destruct (IH Hvs) as (strs & Hstrs & Hps).
    exists (s :: strs). split.
    + simpl. rewrite Hs. simpl. rewrite Hstrs. reflexivity.
    + unfold join in *. destruct strs as [|s' strs]; [exact Hp|].
      change (String.concat " " (s :: s' :: strs))
        with (s +:+ " " +:+ String.concat " " (s' :: strs)).
      rewrite !string_forall_app, Hp, Hps. reflexivity.
Qed.

Lemma repr_str_printable s :
  string_forall is_printable s = true -> exists shown, repr_str s = Some shown.
Proof. intros H. unfold repr_str. rewrite H. eexists. reflexivity. Qed.

Section Host.
Variable spawn : nat -> command -> child.
Variable mkdtemp : list string -> string.
Variable format_builddir : string -> option string -> outcome string.
Variable decode : bytes -> outcome string.
Variable exec_conf : string -> outcome namespace.
Variable globals : list string.

Lemma eval_args_literals self vs :
  eval_args globals self (map ELit vs) = Some (Ret vs).
Proof.
  induction vs as [|v vs IH]; simpl; [reflexivity|]. rewrite IH. reflexivity.
Qed.

(** Literals and unbound names evaluate to the values of the literals, or
    raise the [NameError] of the first unbound name. *)
Lemma eval_args_plain self es :
  forallb (plain globals) es = true ->
  (exists vs, eval_args globals self es = Some (Ret vs) /\ forallb literal vs = true)
  \/ (exists x, eval_args globals self es = Some (Raise (NameError x))).
Proof.
  induction es as [|e es IH]; intros H.
  - left. exists []. split; reflexivity.
  - simpl in H. apply andb_true_iff in H as [He Hes].
    destruct e as [v | x | e' a]; [| |discriminate He].
    + simpl. destruct (IH Hes) as [(vs & Hvs & Hl) | (x & Hx)].
      * left. exists (v :: vs). rewrite Hvs. split; [reflexivity|].
        simpl. simpl in He. rewrite He. exact Hl.
      * right. exists x. rewrite Hx. reflexivity.
    + right. exists x. simpl in He. apply negb_true_iff, bool_decide_eq_false in He.
      simpl.
      destruct (decide (x = "__func")) as [->|_];
        [exfalso; apply He; repeat constructor|].
      destruct (decide (x = "__self")) as [->|_];
        [exfalso; apply He; repeat constructor|].
      destruct (decide (x = "__msg")) as [->|_];
        [exfalso; apply He; repeat constructor|].
      destruct (bool_decide (x ∈ globals)) eqn:Hg.
      * exfalso. apply He. apply bool_decide_eq_true in Hg.
        do 3 apply list_elem_of_further. exact Hg.
      * reflexivity.
Qed.

(** A handler called with the values of literals is within the model, and
    what it returns has a [repr]. *)
Lemma call_defined h msg vs :
  forallb literal vs = true ->
  exists c,
    call spawn mkdtemp format_builddir decode exec_conf h msg vs = Some c
    /\ forall s v s', c s = (Ret v, s') -> exists shown, py_repr v = Some shown.
Proof.
  intros Hvs. destruct h.
  - destruct vs as [|v [|v' vs]].
    + eexists. split; [reflexivity|]. intros s v s' H. discriminate H.
    + simpl in Hvs. apply andb_true_iff in Hvs as [Hv _].
      destruct (literal_shown v Hv) as (shown & Hshown & Hp).
      unfold call, cmdRebuild.
      assert (Hc : exists c,
        (match v with
         | VSet _ => Some (raise (TypeError "unhashable"))
         | _ =>
             shown ← py_str v;
             Some (s ← get;
                   let project := match v with
                                  | VStr k => dict_get k (projects (fst s))
                                  | _ => None
                                  end in
                   match project with
                   | None => mret (VStr ("Unknown project: " +:+ shown))
                   | Some p =>
                       world (rebuild spawn mkdtemp format_builddir decode (fst s)
                                (ProjectObj p)) ;; mret (VBool true)
                   end)
         end) = Some c
        /\ forall s v0 s', c s = (Ret v0, s') ->
             v0 = VStr ("Unknown project: " +:+ shown)).
      { destruct v as [| [] | z | k | elems | | | | x]; try discriminate Hv;
          rewrite Hshown; (eexists; split; [reflexivity|]);
          intros s v0 s'; unfold mbind, M_bind, get, mret, M_ret; simpl;
          try (intros H; inversion H; reflexivity).
        destruct (dict_get k (projects (fst s))); simpl.
        - unfold world, rebuild, raise. simpl. intros H; discriminate H.
        - intros H; inversion H; reflexivity. }
      destruct Hc as (c & Hc & Hres). exists c. split; [exact Hc|].
      intros s v0 s' H. rewrite (Hres _ _ _ H). simpl.
      apply repr_str_printable. rewrite string_forall_app, Hp. reflexivity.
    + eexists. split; [reflexivity|]. intros s v0 s' H. discriminate H.
  - destruct vs as [|v vs].
    + eexists. split; [reflexivity|]. intros s v s'.
      unfold cmdReload, mbind, M_bind.
      destruct (reloadConfig exec_conf s) as [[[e|]|e] s1].
      * unfold world, replyException, reply, modify, mret, M_ret. simpl.
        intros H; inversion H. eexists; reflexivity.
      * unfold mret, M_ret. intros H; inversion H. eexists; reflexivity.
      * intros H; discriminate H.
    + eexists. split; [reflexivity|]. intros s v0 s' H. discriminate H.
  - destruct (literals_shown vs Hvs) as (strs & Hstrs & Hp).
    unfold call, cmdEcho. rewrite Hstrs. eexists. split; [reflexivity|].
    intros s v s' H. inversion H. simpl. apply repr_str_printable. exact Hp.
Qed.

(** A command whose arguments are literals or unbound names is within the
    model, and answered. *)
Lemma message_defined msg s es :
  arg_exprs (msg_body msg) = Some es ->
  forallb (plain globals) es = true ->
  exists s', message spawn mkdtemp format_builddir decode exec_conf globals msg s
             = Some (Ret tt, s').
Proof.
  intros Hargs Hplain. unfold message.
  destruct (decide (msg_type msg = "groupchat")); [eexists; reflexivity|].
  destruct (COMMANDS _) as [h|]; [|eexists; reflexivity].
  unfold arg_exprs in Hargs. unfold join. rewrite Hargs. simpl.
  destruct (eval_args_plain (fst s) es Hplain) as [(vs & -> & Hl) | (x & ->)]; simpl.
  - destruct (call_defined h msg vs Hl) as (c & -> & Hres). simpl.
    destruct (c s) as [[v|e] s1] eqn:Hc.
    + destruct (Hres _ _ _ Hc) as (shown & ->). simpl. eexists. reflexivity.
    + eexists. reflexivity.
  - eexists. reflexivity.
Qed.

(** C5 (amended): the arguments of [echo] are evaluated as expressions
    and the reply is the [repr] of their [str] joined by single spaces.
    Whenever the arguments are literals, with values [vs], every value has
    a text, the joined text has a [repr], and that is the one reply; the
    bot is left as it was. *)
Theorem echo_replies_repr_of_joined_values self w msg vs :
  msg_type msg <> "groupchat" ->
  hd EmptyString (str_split " " (msg_body msg)) = "echo" ->
  arg_exprs (msg_body msg) = Some (map ELit vs) ->
  exists strs shown,
    mapM py_str vs = Some strs
    /\ repr_str (join " " strs) = Some shown
    /\ message spawn mkdtemp format_builddir decode exec_conf globals msg (self, w)
       = Some (Ret tt, (self, add_event (Reply msg (Text shown)) w)).
Proof.
  intros Htype Hcmd Hargs.
  pose proof (parse_args_literal _ _ Hargs) as Hl.
  destruct (literals_shown vs Hl) as (strs & Hstrs & Hp).
  destruct (repr_str_printable _ Hp) as (shown & Hshown).
  exists strs, shown. split; [exact Hstrs|]. split; [exact Hshown|].
  unfold message.
  destruct (decide (msg_type msg = "groupchat")); [contradiction|].
  rewrite Hcmd. change (COMMANDS "echo") with (Some HEcho).
  unfold arg_exprs in Hargs. unfold join at 1. rewrite Hargs. simpl.
  rewrite eval_args_literals. simpl.
  unfold cmdEcho. rewrite Hstrs. simpl. rewrite Hshown. reflexivity.
Qed.

(** C4 (amended): [rebuild] followed by one string literal.  The text
    between the quotes reaches [cmdRebuild] with every space replaced by
    a comma and a space; when that names no configured project the one
    reply is the [repr] of [Unknown project: <name>], quotes included, and
    nothing else is done. *)
Theorem rebuild_unknown_project_replies_repr self w msg q inner :
  msg_type msg <> "groupchat" ->
  q = squote \/ q = dquote ->
  string_forall is_printable inner = true ->
  string_has q inner = false ->
  string_has backslash inner = false ->
  msg_body msg = "rebuild " +:+ String q (inner +:+ String q EmptyString) ->
  dict_get (join ", " (str_split " " inner)) (projects self) = None ->
  exists shown,
    repr_str ("Unknown project: " +:+ join ", " (str_split " " inner)) = Some shown
    /\ message spawn mkdtemp format_builddir decode exec_conf globals msg (self, w)
       = Some (Ret tt, (self, add_event (Reply msg (Text shown)) w)).
Proof.
  intros Htype Hq Hp Hnq Hnb Hbody Hget.
  destruct (arg_exprs_string_literal "rebuild" q inner eq_refl Hq Hp Hnq Hnb)
    as [Hcmd Hargs].
  change ("rebuild" +:+ " " +:+ String q (inner +:+ String q EmptyString))
    with ("rebuild " +:+ String q (inner +:+ String q EmptyString)) in Hcmd, Hargs.
  rewrite <- Hbody in Hcmd, Hargs.
  destruct (repr_str_printable ("Unknown project: " +:+ join ", " (str_split " " inner)))
    as (shown & Hshown).
  { rewrite string_forall_app.
    rewrite (string_forall_join_split is_printable inner eq_refl eq_refl Hp). reflexivity. }
  exists shown. split; [exact Hshown|]. unfold message.
  destruct (decide (msg_type msg = "groupchat")); [contradiction|].
  rewrite Hcmd. change (COMMANDS "rebuild") with (Some HRebuild).
  unfold arg_exprs in Hargs. unfold join at 1. rewrite Hargs. simpl.
  unfold mbind at 1, M_bind, get. simpl. rewrite Hget.
  unfold mret, M_ret. simpl. rewrite Hshown. reflexivity.
Qed.

(** A configured project: [cmdRebuild] hands the project itself to
    [rebuild], which reads [build.project] of it and raises
    [AttributeError]; no build is run and nothing is announced. *)
Lemma rebuild_known_project_raises self w msg name p :
  msg_type msg <> "groupchat" ->
  hd EmptyString (str_split " " (msg_body msg)) = "rebuild" ->
  arg_exprs (msg_body msg) = Some [ELit (VStr name)] ->
  dict_get name (projects self) = Some p ->
  message spawn mkdtemp format_builddir decode exec_conf globals msg (self, w)
  = Some (Ret tt,
          (self, add_event (Reply msg (Traceback (Some (AttributeError "project")))) w)).
Proof.
  intros Htype Hcmd Hargs Hget. unfold message.
  destruct (decide (msg_type msg = "groupchat")); [contradiction|].
  rewrite Hcmd. change (COMMANDS "rebuild") with (Some HRebuild).
  unfold arg_exprs in Hargs. unfold join at 1. rewrite Hargs. simpl.
  unfold mbind at 1, M_bind, get. simpl. rewrite Hget. reflexivity.
Qed.
End Host.

End CommandFacts.

(** C5 (as stated): [echo foo bar] does not reply [foo bar]; [foo] is
    evaluated as a name, which is not bound, and the reply is the trace of
    the [NameError]. *)
Lemma echo_foo_bar_replies_name_error :
  replied (handle bot0 "bob@example.org" "echo foo bar")
    = Some [Traceback (Some (NameError "foo"))]
  /\ replied (handle bot0 "bob@example.org" "echo foo bar") <> Some [Text "foo bar"].
Proof. split; vm_compute; [reflexivity | discriminate]. Qed.

Lemma echo_replies_repr_of_joined_values_witness :
  exists strs shown,
    mapM py_str [VStr "foo"; VStr "bar"] = Some strs
    /\ repr_str (join " " strs) = Some shown
    /\ handle bot0 "bob@example.org" "echo 'foo' 'bar'"
       = Some (Ret tt,
               (bot0, add_event (Reply (chat "bob@example.org" "echo 'foo' 'bar'")
                                   (Text shown)) world0)).
Proof.
  apply (CommandFacts.echo_replies_repr_of_joined_values
           (fun _ _ => exits 0) mkdtemp0 format_plain decode_ascii exec_example
           docbot_globals bot0 world0 (chat "bob@example.org" "echo 'foo' 'bar'")
           [VStr "foo"; VStr "bar"]).
  - vm_compute. discriminate.
  - vm_compute. reflexivity.
  - vm_compute. reflexivity.
Defined.

(** The replies to [echo] with literals, written out: the values are
    joined by single spaces; a space inside a string literal has become a
    comma and a space on the way. *)
Example echo_literal_replies :
  replied (handle bot0 "bob@example.org" "echo 'foo' 'bar'") = Some [Text "'foo bar'"]
  /\ replied (handle bot0 "bob@example.org" "echo 'a b' 7 None")
     = Some [Text "'a, b 7 None'"]
  /\ replied (handle bot0 "bob@example.org" "echo") = Some [Text "''"].
Proof. repeat split; vm_compute; reflexivity. Qed.

(** C4 (as stated): [rebuild doesnotexist] does not reply
    [Unknown project: doesnotexist]; the argument is evaluated as a name and
    the reply is the trace of the [NameError].  And [rebuild 'docs'], for the
    configured project [docs], starts no build: the reply is the trace of an
    [AttributeError] and no process is spawned. *)
Lemma rebuild_doesnotexist_replies_name_error :
  replied (handle bot0 "bob@example.org" "rebuild doesnotexist")
    = Some [Traceback (Some (NameError "doesnotexist"))]
  /\ replied (handle bot0 "bob@example.org" "rebuild doesnotexist")
     <> Some [Text "Unknown project: doesnotexist"]
  /\ handle bot0 "bob@example.org" "rebuild 'docs'"
     = Some (Ret tt,
             (bot0, add_event (Reply (chat "bob@example.org" "rebuild 'docs'")
                                 (Traceback (Some (AttributeError "project")))) world0)).
Proof.
  split; [vm_compute; reflexivity|].
  split; [vm_compute; discriminate | vm_compute; reflexivity].
Qed.

Lemma rebuild_unknown_project_replies_repr_witness :
  exists shown,
    repr_str ("Unknown project: " +:+ join ", " (str_split " " "my project")) = Some shown
    /\ handle bot0 "bob@example.org" "rebuild 'my project'"
       = Some (Ret tt,
               (bot0, add_event (Reply (chat "bob@example.org" "rebuild 'my project'")
                                   (Text shown)) world0)).
Proof.
  apply (CommandFacts.rebuild_unknown_project_replies_repr
           (fun _ _ => exits 0) mkdtemp0 format_plain decode_ascii exec_example
           docbot_globals bot0 world0 (chat "bob@example.org" "rebuild 'my project'")
           squote "my project").
  - vm_compute. discriminate.
  - left. reflexivity.
  - vm_compute. reflexivity.
  - vm_compute. reflexivity.
  - vm_compute. reflexivity.
  - reflexivity.
  - vm_compute. reflexivity.
Defined.

(** The replies of the amended claim, written out. *)
Example rebuild_unknown_project_reply :
  replied (handle bot0 "bob@example.org" "rebuild 'doesnotexist'")
  = Some [Text "'Unknown project: doesnotexist'"]
  /\ replied (handle bot0 "bob@example.org" "rebuild 'my project'")
     = Some [Text "'Unknown project: my, project'"].
Proof. split; vm_compute; reflexivity. Qed.

(** The other answers of the command channel. *)
Example command_channel_answers :
  replied (handle bot0 "bob@example.org" "bogus") = Some [Text "Unknown command: bogus"]
  /\ replied (handle bot0 "bob@example.org" "echo") = Some [Text "''"]
  /\ replied (handle bot0 "bob@example.org" "reload") = Some [Text "True"]
  /\ replied (handle bot0 "bob@example.org" "rebuild")
     = Some [Traceback (Some (TypeError "cmdRebuild"))].
Proof. repeat split; vm_compute; reflexivity. Qed.

(** ** DocBot: the command channel and the authorized set *)

Module AuthorizationFacts.
Import DocBot.

Lemma alike_refl s : alike s s.
Proof. split; reflexivity. Qed.

Lemma alike_with_auth a bl self w : alike (with_auth a bl self, w) (self, w).
Proof. split; reflexivity. Qed.

Lemma alike_fields s1 s2 :
  alike s1 s2 ->
  projects (fst s1) = projects (fst s2)
  /\ repobranch_map (fst s1) = repobranch_map (fst s2)
  /\ switch (fst s1) = switch (fst s2)
  /\ bots_switch (fst s1) = bots_switch (fst s2)
  /\ nick (fst s1) = nick (fst s2).
Proof. intros [H _]. unfold with_auth in H. inversion H. repeat split; assumption. Qed.

Lemma blind_ret {A} (a : A) : blind (mret a).
Proof. intros s1 s2 H. split; [reflexivity | exact H]. Qed.

Lemma blind_raise {A} e : blind (raise e : M state A).
Proof. intros s1 s2 H. split; [reflexivity | exact H]. Qed.

Lemma blind_bind {A B} (c : M state A) (k : A -> M state B) :
  blind c -> (forall a, blind (k a)) -> blind (c ≫= k).
Proof.
  intros Hc Hk s1 s2 H. unfold mbind, M_bind.
  destruct (Hc s1 s2 H) as [Hr Hs].
  destruct (c s1) as [[a1|e1] t1], (c s2) as [[a2|e2] t2]; simpl in *;
    try discriminate.
  - inversion Hr; subst a2. apply Hk. exact Hs.
  - inversion Hr; subst e2. split; [reflexivity | exact Hs].
Qed.

Lemma blind_world {A} (c : M World A) : blind (world c).
Proof.
  intros s1 s2 [Hb Hw]. unfold world. rewrite Hw.
  destruct (c (snd s2)) as [r w]. simpl. split; [reflexivity|].
  split; [exact Hb | reflexivity].
Qed.

Section Host.
Variable spawn : nat -> command -> child.
Variable mkdtemp : list string -> string.
Variable format_builddir : string -> option string -> outcome string.
Variable decode : bytes -> outcome string.
Variable exec_conf : string -> outcome namespace.
Variable globals : list string.

Lemma reloadConfig_blind : blind (reloadConfig exec_conf).
Proof.
  intros [b1 w1] [b2 w2] H.
  pose proof (alike_fields _ _ H) as (_ & _ & Hs & Hb & Hn).
  destruct H as [Hbot Hw]. simpl in *. subst w2.
  unfold reloadConfig, mbind, M_bind, get, mret, M_ret, raise. simpl.
  destruct (docbot_config w1) as [conf|]; simpl.
  - destruct (exec_conf conf) as [ns|e]; simpl.
    + unfold modify, world, print, modify. simpl.
      rewrite Hs, Hb, Hn. split; [reflexivity | apply alike_refl].
    + split; [reflexivity|]. split; [exact Hbot | reflexivity].
  - split; [reflexivity|]. split; [exact Hbot | reflexivity].
Qed.

Lemma call_blind h msg vs c :
  call spawn mkdtemp format_builddir decode exec_conf h msg vs = Some c -> blind c.
Proof.
  unfold call. intros H.
  assert (Htype : forall what, blind (raise (TypeError what) : M state value))
    by (intros; apply blind_raise).
  destruct h.
  - destruct vs as [|v [|v' vs]]; try (inversion H; subst c; apply Htype).
    unfold cmdRebuild in H.
    destruct v as [| [] | z | k | elems | | | | x]; simpl in H;
      try discriminate H; inversion H; subst c; clear H; try apply Htype;
      (intros [b1 w1] [b2 w2] Hs;
       pose proof (alike_fields _ _ Hs) as (Hp & _);
       destruct Hs as [Hb Hw]; simpl in *; subst w2;
       unfold mbind, M_bind, get, mret, M_ret, world, rebuild, raise; simpl;
       try rewrite Hp;
       try (match goal with
            | |- context [dict_get ?k ?d] => destruct (dict_get k d)
            end);
       simpl; (split; [reflexivity | split; [assumption | reflexivity]])).
  - destruct vs; inversion H; subst c; [|apply Htype].
    unfold cmdReload. apply blind_bind; [apply reloadConfig_blind|].
    intros [e|]; [|apply blind_ret].
    apply blind_bind; [apply blind_world | intros; apply blind_ret].
  - unfold cmdEcho in H. destruct (mapM py_str vs); inversion H; subst c.
    apply blind_ret.
Qed.

Lemma eval_without_attr self1 self2 e :
  (forall e' a, e <> EAttr e' a) -> eval globals self1 e = eval globals self2 e.
Proof. destruct e; intros H; [reflexivity | reflexivity | exfalso; eapply H; reflexivity]. Qed.

Lemma eval_args_without_attr self1 self2 es :
  Forall (fun e => forall e' a, e <> EAttr e' a) es ->
  eval_args globals self1 es = eval_args globals self2 es.
Proof.
  induction 1 as [|e es He _ IH]; simpl; [reflexivity|].
  rewrite (eval_without_attr self1 self2 e He), IH. reflexivity.
Qed.

Lemma without_attr es :
  existsb (fun e => match e with EAttr _ _ => true | _ => false end) es = false ->
  Forall (fun e => forall e' a, e <> EAttr e' a) es.
Proof.
  induction es as [|e es IH]; intros H; constructor.
  - intros e' a ->. discriminate H.
  - apply IH. simpl in H. apply orb_false_iff in H as [_ H]. exact H.
Qed.

(** Handling a message whose arguments read no attribute treats states
    that differ in the authorized set and the blacklist alike. *)
Lemma message_blind self authorized blacklist msg w :
  reads_attr (msg_body msg) = false ->
  forget_auth (message spawn mkdtemp format_builddir decode exec_conf globals msg
                 (with_auth authorized blacklist self, w))
  = forget_auth (message spawn mkdtemp format_builddir decode exec_conf globals msg
                   (self, w)).
Proof.
  intros Hread. unfold reads_attr, arg_exprs in Hread. unfold message.
  destruct (decide (msg_type msg = "groupchat")); [reflexivity|].
  destruct (COMMANDS (hd EmptyString (str_split " " (msg_body msg)))) as [h|];
    [|reflexivity].
  unfold join.
  destruct (parse_args (String.concat ", " (tl (str_split " " (msg_body msg)))))
    as [es|] eqn:Hparse; [|reflexivity].
  simpl in Hread. simpl.
  rewrite (eval_args_without_attr (with_auth authorized blacklist self) self es
             (without_attr _ Hread)).
  destruct (eval_args globals self es) as [[vs|e]|]; [|reflexivity|reflexivity].
  simpl.
  destruct (call spawn mkdtemp format_builddir decode exec_conf h msg vs) as [c|] eqn:Hcall;
    [|reflexivity].
  simpl.
  destruct (call_blind _ _ _ _ Hcall _ _ (alike_with_auth authorized blacklist self w))
    as [Hr [Hb Hw]].
  destruct (c (with_auth authorized blacklist self, w)) as [[v1|e1] [b1 w1]],
           (c (self, w)) as [[v2|e2] [b2 w2]]; simpl in *; try discriminate.
  - inversion Hr; subst v2. destruct (py_repr v1); [|reflexivity].
    simpl. unfold forget_auth. simpl. rewrite Hb, Hw. reflexivity.
  - inversion Hr; subst e2. unfold forget_auth. simpl. rewrite Hb, Hw. reflexivity.
Qed.

Lemma plain_reads_no_attr es :
  forallb (plain globals) es = true ->
  existsb (fun e => match e with EAttr _ _ => true | _ => false end) es = false.
Proof.
  induction es as [|e es IH]; intros H; [reflexivity|].
  simpl in H. apply andb_true_iff in H as [He Hes].
  simpl. rewrite (IH Hes). destruct e; [reflexivity | reflexivity | discriminate He].
Qed.

(** C10 (amended): a command whose arguments are literals or names that
    are not bound is handled, and it is handled the same whatever the
    authorized set and the blacklist hold: the same outcome, the same
    world (replies, processes, directories) and the same bot apart from
    those two fields.  [authorizedSource] is not called on this path. *)
Theorem message_ignores_authorization self authorized blacklist msg w es :
  arg_exprs (msg_body msg) = Some es ->
  forallb (plain globals) es = true ->
  exists r,
    message spawn mkdtemp format_builddir decode exec_conf globals msg (self, w) = Some r
    /\ forget_auth (message spawn mkdtemp format_builddir decode exec_conf globals msg
                      (with_auth authorized blacklist self, w))
       = forget_auth (Some r).
Proof.
  intros Hargs Hplain.
  destruct (CommandFacts.message_defined spawn mkdtemp format_builddir decode exec_conf
              globals msg (self, w) es Hargs Hplain) as (s' & Hs').
  exists (Ret tt, s'). split; [exact Hs'|].
  rewrite <- Hs'. apply message_blind.
  unfold reads_attr. rewrite Hargs. simpl. apply plain_reads_no_attr. exact Hplain.
Qed.

End Host.

End AuthorizationFacts.

(** C10 (as stated): the reply is not independent of the authorized set.
    [echo __self.authorized] from a sender who is in the set replies with
    the set, and from the same sender when the set is empty with
    [set()]. *)
Lemma echo_authorized_reply_depends_on_authorization :
  replied (handle bot0 "alice@example.org" "echo __self.authorized")
    = Some [Text (dquoted "{'alice@example.org'}")]
  /\ replied (handle (with_auth [] [] bot0) "alice@example.org" "echo __self.authorized")
    = Some [Text "'set()'"]
  /\ replied (handle bot0 "alice@example.org" "echo __self.authorized")
     <> replied (handle (with_auth [] [] bot0) "alice@example.org" "echo __self.authorized").
Proof.
  split; [vm_compute; reflexivity|].
  split; [vm_compute; reflexivity | vm_compute; discriminate].
Qed.

Lemma message_ignores_authorization_witness :
  exists r,
    handle bot0 "bob@example.org" "reload" = Some r
    /\ forget_auth (handle (with_auth [] ["bob@example.org"] bot0) "bob@example.org" "reload")
       = forget_auth (Some r).
Proof.
  apply (AuthorizationFacts.message_ignores_authorization
           (fun _ _ => exits 0) mkdtemp0 format_plain decode_ascii exec_example
           docbot_globals bot0 [] ["bob@example.org"]
           (chat "bob@example.org" "reload") world0 []).
  - vm_compute. reflexivity.
  - reflexivity.
Defined.

(** The same for commands with arguments: a literal with a space, and a
    name that is not bound. *)
Example blacklisted_sender_is_answered :
  replied (handle (with_auth [] ["bob@example.org"] bot0) "bob@example.org"
             "rebuild 'my project'")
  = Some [Text "'Unknown project: my, project'"]
  /\ replied (handle (with_auth [] ["bob@example.org"] bot0) "bob@example.org"
                "echo 'a' doesnotexist")
     = Some [Traceback (Some (NameError "doesnotexist"))].
Proof. split; vm_compute; reflexivity. Qed.

(** A sender outside the authorized set, and on the blacklist, reloads the
    configuration: the projects and the dispatch table are replaced. *)
Example blacklisted_sender_reloads :
  option_map (fun r => (DocBot.projects (fst (snd r)), DocBot.authorized (fst (snd r)),
                        replies (snd (snd r))))
    (handle (with_auth [] ["bob@example.org"] bot0) "bob@example.org" "reload")
  = Some ([], [], [Text "True"]).
Proof. vm_compute. reflexivity. Qed.

(** * Further properties *)

(** ** The multiplexer, line by line *)

Module MultiplexerFacts.
Import Popen.

Lemma bytes_split_length buf : length (bytes_split buf) = S (count_newlines buf).
Proof.
  unfold count_newlines, bytes. induction buf as [|c buf IH]; [reflexivity|].
  rewrite filter_cons. cbn [bytes_split]. destruct (Byte.eqb nl c) eqn:E.
  - rewrite decide_True by reflexivity. simpl. rewrite IH. reflexivity.
  - rewrite decide_False by discriminate.
    destruct (bytes_split buf) as [|seg segs]; [discriminate IH|]. exact IH.
Qed.

Lemma bytes_split_last buf : has_newline (List.last (bytes_split buf) []) = false.
Proof.
  induction buf as [|c buf IH]; [reflexivity|]. simpl.
  destruct (Byte.eqb nl c) eqn:E.
  - pose proof (bytes_split_length buf) as Hlen.
    destruct (bytes_split buf) as [|seg segs]; [discriminate Hlen|]. exact IH.
  - pose proof (bytes_split_length buf) as Hlen.
    destruct (bytes_split buf) as [|seg segs]; [discriminate Hlen|].
    destruct segs as [|seg' segs].
    + simpl in *. unfold has_newline in *. simpl. rewrite E. exact IH.
    + exact IH.
Qed.

Lemma removelast_length {A} (l : list A) : length (removelast l) = pred (length l).
Proof.
  induction l as [|x l IH]; [reflexivity|].
  destruct l as [|y l]; [reflexivity|].
  simpl in *. rewrite IH. reflexivity.
Qed.

Lemma for_each_record {A} (l : list A) buf calls :
  for_each l (fun _ => record buf) calls = (Ret tt, calls ++ replicate (length l) buf).
Proof.
  revert calls. induction l as [|x l IH]; intros calls; simpl.
  - rewrite app_nil_r. reflexivity.
  - unfold mbind, M_bind. unfold record at 1. rewrite IH, <- app_assoc. reflexivity.
Qed.

(** X1: a buffer that holds newlines is handed to the sink whole, once for
    every newline in it, and what is kept is what follows the last newline.
    (With one line in the buffer the sink gets that line; with two it gets
    both lines twice.) *)
Theorem submit_buffer_hands_over_whole_buffer buf force calls :
  has_newline buf = true ->
  _submit_buffer record buf force calls
  = (Ret (List.last (bytes_split buf) []),
     calls ++ replicate (count_newlines buf) buf).
Proof.
  intros H. unfold _submit_buffer. rewrite H. simpl.
  unfold mbind, M_bind. rewrite for_each_record, removelast_length, bytes_split_length.
  reflexivity.
Qed.

(** X2: what [_submit_buffer] returns to be kept never holds a newline,
    whatever the sink, the buffer and [force]. *)
Theorem submit_buffer_keeps_no_newline {St} (g : bytes -> M St unit) buf force s kept s' :
  _submit_buffer g buf force s = (Ret kept, s') ->
  has_newline kept = false.
Proof.
  unfold _submit_buffer. destruct (has_newline buf) eqn:Hnl; simpl.
  - intros H. bind_inv H. inversion H; subst. apply bytes_split_last.
  - destruct force.
    + intros H. bind_inv H. inversion H; subst. reflexivity.
    + intros H. inversion H; subst. exact Hnl.
Qed.

(** X3: a turn of the loop that returns has read from a pipe or dropped a
    channel: the unread bytes and the channels left, counted together, are
    fewer.  The loop therefore ends after at most as many turns as there
    are bytes to read, plus two. *)
Theorem communicate_turn_makes_progress {St} (g : bytes -> M St unit) r m s m' s' :
  rlist m <> [] ->
  turn g r m s = (Ret m', s') ->
  measure m' < measure m.
Proof. apply PopenFacts.turn_decreases. Qed.

Lemma split_lines_partial b :
  b <> [] -> has_newline b = false -> split_lines b = [b].
Proof.
  induction b as [|c b IH]; [congruence|]. intros _ H.
  unfold has_newline in H. simpl in H. apply orb_false_iff in H as [Hc Hb].
  simpl. rewrite Hc. destruct b as [|c' b]; [reflexivity|].
  rewrite IH; [reflexivity | discriminate | exact Hb].
Qed.

Lemma readline_split_lines p l r :
  p <> [] -> readline p = (l, r) -> split_lines p = l :: split_lines r.
Proof.
  revert l r. induction p as [|c p IH]; [congruence|]. intros l r _ H.
  simpl in *. destruct (Byte.eqb nl c).
  - inversion H; subst. reflexivity.
  - destruct (readline p) as [l' r'] eqn:Hp. inversion H; subst.
    destruct p as [|c' p].
    + inversion Hp; subst. reflexivity.
    + rewrite (IH l' r); [reflexivity | discriminate | reflexivity].
Qed.

Lemma readline_partial p l r :
  readline p = (l, r) -> has_newline l = false -> r = [].
Proof.
  revert l r. induction p as [|c p IH]; intros l r H Hnl; simpl in H.
  - inversion H. reflexivity.
  - destruct (Byte.eqb nl c) eqn:E.
    + inversion H; subst. unfold has_newline in Hnl. simpl in Hnl.
      rewrite E in Hnl. discriminate.
    + destruct (readline p) as [l' r'] eqn:Hp. inversion H; subst.
      apply (IH l' r eq_refl). unfold has_newline in *. simpl in Hnl.
      rewrite E in Hnl. exact Hnl.
Qed.

Lemma readline_nonempty p l r : p <> [] -> readline p = (l, r) -> length l <> 0.
Proof.
  intros Hp H Hz. destruct (PopenFacts.readline_eof _ _ _ H Hz). contradiction.
Qed.

Lemma readline_shorter p l r : p <> [] -> readline p = (l, r) -> length r < length p.
Proof.
  intros Hp H. pose proof (PopenFacts.readline_length _ _ _ H).
  pose proof (readline_nonempty _ _ _ Hp H). lia.
Qed.

Lemma py_del_first {St A} (x : A) (l : list A) (s : St) :
  py_del (x :: l) 0 s = (Ret l, s).
Proof.
  unfold py_del. destruct (decide (0 < length (x :: l))) as [|Hn]; [reflexivity|].
  simpl in Hn. lia.
Qed.

(** The first entry of [rlist] alone is serviced and is at end of file. *)
Lemma service_first_eof b bs f0 rl o e f calls :
  pipe (Mux (b :: bs) (f0 :: rl) o e) f = [] ->
  has_newline b = false ->
  service record 1 (Mux (b :: bs) (f0 :: rl) o e) (0, f) calls
  = (Ret (Mux bs rl o e), calls ++ split_lines b).
Proof.
  intros Hp Hb.
  assert (Hm : set_pipe (Mux (b :: bs) (f0 :: rl) o e) f [] = Mux (b :: bs) (f0 :: rl) o e).
  { destruct f; simpl in Hp; subst; reflexivity. }
  unfold service. rewrite Hp. cbn [readline]. cbv zeta. rewrite Hm.
  destruct (decide (length (@nil byte) = 0)) as [_|Hn]; [|contradiction].
  cbn [rlist buffers set_rlist Nat.sub Nat.add].
  unfold mbind at 1, M_bind. rewrite py_del_first.
  unfold mbind at 1, M_bind. cbn [py_index lookup list_lookup]. unfold mret at 1, M_ret at 1.
  destruct b as [|c b].
  - destruct (decide (length (@nil byte) = 0)) as [_|Hn]; [|contradiction].
    unfold mbind, M_bind, mret at 1, M_ret at 1. rewrite py_del_first.
    cbn [split_lines]. rewrite app_nil_r. reflexivity.
  - destruct (decide (length (c :: b) = 0)) as [Hz|_]; [discriminate Hz|].
    unfold mbind at 1, M_bind.
    rewrite (PopenFacts.submit_forced record (c :: b) calls Hb).
    unfold record, mbind, M_bind, mret, M_ret. cbv beta iota. rewrite py_del_first.
    rewrite (split_lines_partial (c :: b)) by (discriminate || exact Hb).
    reflexivity.
Qed.

(** The first entry of [rlist] alone is serviced and has a line, or an
    unterminated rest, to read; the buffer is empty. *)
Lemma service_first_data bs f0 rl o e f l r calls :
  let m := Mux ([] :: bs) (f0 :: rl) o e in
  pipe m f <> [] ->
  readline (pipe m f) = (l, r) ->
  service record 1 m (0, f) calls
  = if has_newline l
    then (Ret (set_pipe m f r), calls ++ [l])
    else (Ret (set_pipe (Mux (l :: bs) (f0 :: rl) o e) f r), calls).
Proof.
  intros m Hp Hread. pose proof (readline_nonempty _ _ _ Hp Hread) as Hl.
  unfold service. rewrite Hread. cbv zeta.
  destruct (decide (length l = 0)); [contradiction|].
  assert (Hb : buffers (set_pipe m f r) = [] :: bs) by (destruct f; reflexivity).
  rewrite Hb. cbn [py_index lookup list_lookup].
  unfold mbind at 1, M_bind. unfold mret at 1, M_ret at 1.
  cbn [insert list_insert app set_buffers buffers py_index lookup list_lookup].
  unfold mbind at 1, M_bind. unfold mret at 1, M_ret at 1.
  unfold mbind at 1, M_bind.
  destruct (has_newline l) eqn:Hnl.
  - destruct (PopenFacts.readline_newline _ _ _ Hread Hnl) as (body & -> & Hbody).
    rewrite (PopenFacts.submit_line record body calls Hbody).
    destruct f; reflexivity.
  - rewrite (PopenFacts.submit_partial record l calls Hnl).
    destruct f; reflexivity.
Qed.

Lemma turn_first bs f rl o e calls :
  turn record FirstReady (Mux bs (f :: rl) o e) calls
  = (service record 1 (Mux bs (f :: rl) o e) (0, f) ≫= mret) calls.
Proof. reflexivity. Qed.

Lemma turn_single bs f o e r calls :
  turn record r (Mux bs [f] o e) calls
  = (service record 1 (Mux bs [f] o e) (0, f) ≫= mret) calls.
Proof. destruct r; reflexivity. Qed.

(** Stderr alone is left: its lines are delivered, whatever [select]
    reports. *)
Lemma drain_stderr n : forall e b o calls fuel sched,
  length e <= n ->
  has_newline b = false -> (b <> [] -> e = []) ->
  length o + length e + 1 <= fuel ->
  loop record fuel sched (Mux [b] [stderr] o e) calls
  = (Ret (Mux [] [] o []), calls ++ split_lines (b ++ e)).
Proof.
  induction n as [|n IH]; intros e b o calls fuel sched Hn Hb Hbe Hfuel.
  - destruct e; [|simpl in Hn; lia].
    destruct fuel as [|fuel]; [lia|].
    rewrite PopenFacts.loop_S, turn_single. unfold mbind, M_bind.
    rewrite service_first_eof by (reflexivity || exact Hb).
    simpl. rewrite app_nil_r. reflexivity.
  - destruct fuel as [|fuel]; [lia|].
    rewrite PopenFacts.loop_S, turn_single. unfold mbind, M_bind.
    destruct e as [|c e].
    + rewrite service_first_eof by (reflexivity || exact Hb).
      simpl. rewrite app_nil_r. reflexivity.
    + assert (b = []) as -> by (destruct b; [reflexivity | discriminate (Hbe ltac:(discriminate))]).
      destruct (readline (c :: e)) as [l r] eqn:Hread.
      assert (Hne : c :: e <> []) by discriminate.
      pose proof (readline_shorter _ _ _ Hne Hread) as Hshort.
      pose proof (service_first_data [] stderr [] o (c :: e) stderr l r calls Hne Hread) as Hs.
      cbv zeta in Hs. unfold bytes in *. rewrite Hs. clear Hs.
      rewrite app_nil_l, (readline_split_lines _ _ _ Hne Hread).
      destruct (has_newline l) eqn:Hnl.
      * simpl. rewrite (IH r [] o (calls ++ [l]) fuel (tl sched));
          [| simpl in *; lia | reflexivity | congruence | simpl in *; lia].
        simpl. rewrite <- app_assoc. reflexivity.
      * pose proof (readline_partial _ _ _ Hread Hnl) as ->. simpl.
        rewrite (IH [] l o calls fuel (tl sched));
          [| simpl; lia | exact Hnl | reflexivity | simpl in *; lia].
        rewrite app_nil_r.
        rewrite (split_lines_partial l); [reflexivity | | exact Hnl].
        intros ->. exact (readline_nonempty _ _ _ Hne Hread eq_refl).
Qed.

(** Stdout is read alone until it ends; then stderr alone is left. *)
Lemma drain_stdout n : forall p b e calls fuel fuel' rest,
  length p <= n ->
  has_newline b = false -> (b <> [] -> p = []) ->
  length p + length e + 2 <= fuel ->
  length e + 1 <= fuel' ->
  loop record fuel (replicate (S (length (split_lines p))) FirstReady ++ rest)
    (Mux [b; []] [stdout; stderr] p e) calls
  = loop record fuel' rest (Mux [[]] [stderr] [] e) (calls ++ split_lines (b ++ p)).
Proof.
  assert (Hend : forall b e calls fuel fuel' rest,
            has_newline b = false ->
            length e + 2 <= S fuel -> length e + 1 <= fuel' ->
            loop record (S fuel) (replicate 1 FirstReady ++ rest)
              (Mux [b; []] [stdout; stderr] [] e) calls
            = loop record fuel' rest (Mux [[]] [stderr] [] e) (calls ++ split_lines (b ++ []))).
  { intros b e calls fuel fuel' rest Hb Hfuel Hfuel'.
    rewrite PopenFacts.loop_S. simpl hd. rewrite turn_first. unfold mbind, M_bind.
    rewrite service_first_eof by (reflexivity || exact Hb).
    simpl. rewrite app_nil_r.
    apply PopenFacts.loop_fuel; unfold measure; simpl; lia. }
  induction n as [|n IH]; intros p b e calls fuel fuel' rest Hn Hb Hbp Hfuel Hfuel'.
  - destruct p; [|simpl in Hn; lia].
    destruct fuel as [|fuel]; [lia|].
    apply Hend; [exact Hb | simpl in Hfuel; lia | exact Hfuel'].
  - destruct fuel as [|fuel]; [lia|].
    destruct p as [|c p].
    + apply Hend; [exact Hb | simpl in Hfuel; lia | exact Hfuel'].
    + assert (b = []) as -> by (destruct b; [reflexivity | discriminate (Hbp ltac:(discriminate))]).
      destruct (readline (c :: p)) as [l r] eqn:Hread.
      assert (Hne : c :: p <> []) by discriminate.
      pose proof (readline_shorter _ _ _ Hne Hread) as Hshort.
      rewrite PopenFacts.loop_S. simpl hd. rewrite turn_first. unfold mbind, M_bind.
      pose proof (service_first_data [[]] stdout [stderr] (c :: p) e stdout l r calls Hne Hread)
        as Hs.
      cbv zeta in Hs. unfold bytes in *. rewrite Hs. clear Hs.
      rewrite app_nil_l, (readline_split_lines _ _ _ Hne Hread). simpl tl.
      destruct (has_newline l) eqn:Hnl.
      * simpl.
        pose proof (IH r [] e (calls ++ [l]) fuel fuel' rest
                      ltac:(simpl in *; lia) eq_refl ltac:(congruence)
                      ltac:(simpl in *; lia) Hfuel') as Hih.
        simpl in Hih. rewrite Hih, <- app_assoc. reflexivity.
      * pose proof (readline_partial _ _ _ Hread Hnl) as ->. simpl.
        pose proof (IH [] l e calls fuel fuel' rest
                      ltac:(simpl; lia) Hnl ltac:(reflexivity)
                      ltac:(simpl in *; lia) Hfuel') as Hih.
        simpl in Hih. rewrite Hih, app_nil_r.
        rewrite (split_lines_partial l); [reflexivity | | exact Hnl].
        intros ->. exact (readline_nonempty _ _ _ Hne Hread eq_refl).
Qed.

(** X4: when [select] reports stdout alone until stdout is at its end, and
    anything after that, every line of stdout and then every line of
    stderr reaches the sink once, in order, each with its newline, and an
    unterminated rest of either channel once at its end. *)
Theorem communicate_delivers_channel_after_channel out err rest calls :
  communicate_sink record out err
    (replicate (S (length (split_lines out))) FirstReady ++ rest) calls
  = (Ret tt, calls ++ split_lines out ++ split_lines err).
Proof.
  unfold communicate_sink. unfold mbind, M_bind.
  rewrite (drain_stdout (length out) out [] err calls _ (S (length err)) rest);
    [| lia | reflexivity | congruence | unfold measure; simpl; lia | lia].
  rewrite (drain_stderr (length err) err [] [] _ _ rest);
    [| lia | reflexivity | congruence | simpl; lia].
  simpl. rewrite <- app_assoc. reflexivity.
Qed.

(** X5: a child that has written to stdout and nothing to stderr, and has
    exited before the first [select], makes [communicate] raise
    [IndexError] before the sink is called, whatever it has written. *)
Theorem communicate_raises_for_exited_child {St} (g : bytes -> M St unit) out s :
  out <> [] ->
  communicate_sink g out [] [] s = (Raise IndexError, s).
Proof. apply PopenFacts.communicate_exited_child_raises. Qed.

(** A child that writes nothing makes [communicate] return without a call
    of the sink, whatever [select] reports. *)
Lemma communicate_silent_child {St} (g : bytes -> M St unit) sched s :
  communicate_sink g [] [] sched s = (Ret tt, s).
Proof.
  destruct sched as [|r1 sched]; [reflexivity|].
  destruct r1; [reflexivity | |];
    (destruct sched as [|r2 sched]; [reflexivity|]; destruct r2; reflexivity).
Qed.

End MultiplexerFacts.

Lemma submit_buffer_hands_over_whole_buffer_witness :
  Popen._submit_buffer record (line "a" ++ line "b") false []
  = (Ret (List.last (bytes_split (line "a" ++ line "b")) []),
     [] ++ replicate (count_newlines (line "a" ++ line "b")) (line "a" ++ line "b")).
Proof.
  apply (MultiplexerFacts.submit_buffer_hands_over_whole_buffer
           (line "a" ++ line "b") false []).
  vm_compute. reflexivity.
Defined.

Lemma submit_buffer_keeps_no_newline_witness :
  has_newline (encode "rest") = false.
Proof.
  apply (MultiplexerFacts.submit_buffer_keeps_no_newline record
           (line "a" ++ encode "rest") false [] (encode "rest")
           [line "a" ++ encode "rest"]).
  vm_compute. reflexivity.
Defined.

Lemma communicate_turn_makes_progress_witness :
  Popen.measure (Popen.Mux [[]; []] [stdout; stderr] [] (encode "e"))
  < Popen.measure (Popen.Mux [[]; []] [stdout; stderr] (line "a") (encode "e")).
Proof.
  apply (MultiplexerFacts.communicate_turn_makes_progress record FirstReady
           (Popen.Mux [[]; []] [stdout; stderr] (line "a") (encode "e")) []
           (Popen.Mux [[]; []] [stdout; stderr] [] (encode "e")) [line "a"]).
  - discriminate.
  - vm_compute. reflexivity.
Defined.

Lemma communicate_raises_for_exited_child_witness :
  Popen.communicate_sink record (line "hi") [] [] [] = (Raise IndexError, []).
Proof.
  apply (MultiplexerFacts.communicate_raises_for_exited_child record (line "hi") []).
  discriminate.
Defined.

(** ** The checked runner *)

Module CheckedFacts.
Import Popen.

Section Runner.
Variable spawn : nat -> command -> child.

(** X7: every call of [checked] makes one spawn attempt, for the command
    it is given, whether the child can be started or not and whatever it
    does (the sink is assumed to start no process itself). *)
Theorem checked_makes_one_spawn_attempt call f w :
  quiet_sink f ->
  spawned (snd (checked spawn call f w)) = spawned w ++ [call].
Proof. apply PopenLeaves.checked_spawns_once. Qed.

(** X8: without a sink [checked] returns for exit code 0 and raises
    [CalledProcessError] with the exit code and the joined command for
    any other. *)
Theorem checked_without_sink_follows_exit_code call w :
  spawn_error (spawn (length (spawned w)) call) = None ->
  fst (checked spawn call None w)
  = if decide (returncode (spawn (length (spawned w)) call) = 0%Z) then Ret tt
    else Raise (CalledProcessError (returncode (spawn (length (spawned w)) call))
                  (join_call call)).
Proof.
  intros Hs. rewrite (PopenLeaves.checked_no_sink spawn call w Hs). simpl.
  destruct (decide (returncode (spawn (length (spawned w)) call) = 0%Z)) as [He|Hne].
  - destruct (decide _) as [Hne|_]; [contradiction | reflexivity].
  - destruct (decide _) as [_|He]; [reflexivity | contradiction].
Qed.

(** X9: when the child cannot be started, [checked] raises the error of
    the spawn; the sink is not called and nothing but the attempt is
    recorded. *)
Theorem checked_spawn_failure call f w e :
  spawn_error (spawn (length (spawned w)) call) = Some e ->
  checked spawn call f w = (Raise e, add_spawned call w).
Proof.
  intros Hs. unfold checked, __init__.
  unfold mbind, M_bind, get, modify. simpl. rewrite Hs. reflexivity.
Qed.

(** X10: with a sink, a child that writes nothing: the sink receives the
    command line, marked with a dollar sign, and nothing else, and the exit
    code decides as without a sink, whatever [select] reports. *)
Theorem checked_silent_child_follows_exit_code call g w w1 :
  let proc := spawn (length (spawned w)) call in
  spawn_error proc = None ->
  child_stdout proc = [] -> child_stderr proc = [] ->
  g (encode ("$ " +:+ join_call call)) (set_dirs (child_dirs proc) (add_spawned call w))
    = (Ret tt, w1) ->
  checked spawn call (Some g) w
  = (if decide (returncode proc = 0%Z) then Ret tt
     else Raise (CalledProcessError (returncode proc) (join_call call)), w1).
Proof.
  intros proc Hs Hout Herr Hg.
  rewrite (PopenLeaves.checked_sink spawn call g w w1 w1 Hs Hg).
  - destruct (decide (returncode proc = 0%Z)) as [He|Hne].
    + destruct (decide _) as [Hne|_]; [contradiction | reflexivity].
    + destruct (decide _) as [_|He]; [reflexivity | contradiction].
  - fold proc. rewrite Hout, Herr. apply MultiplexerFacts.communicate_silent_child.
Qed.
End Runner.

End CheckedFacts.

Lemma checked_makes_one_spawn_attempt_witness :
  spawned (snd (Popen.checked (fun _ _ => wrote (line "hi") [] 0) (Argv ["echo"; "hi"])
                  (Some announce) world0))
  = spawned world0 ++ [Argv ["echo"; "hi"]].
Proof.
  apply (CheckedFacts.checked_makes_one_spawn_attempt
           (fun _ _ => wrote (line "hi") [] 0) (Argv ["echo"; "hi"]) (Some announce) world0).
  intros g buf Hg. inversion Hg; subst g. intros w. reflexivity.
Defined.

Lemma checked_without_sink_follows_exit_code_witness :
  fst (Popen.checked (fun _ _ => exits 3) (Argv ["make"; "html"]) None world0)
  = if decide (returncode (exits 3) = 0%Z) then Ret tt
    else Raise (CalledProcessError (returncode (exits 3)) (join_call (Argv ["make"; "html"]))).
Proof.
  apply (CheckedFacts.checked_without_sink_follows_exit_code
           (fun _ _ => exits 3) (Argv ["make"; "html"]) world0).
  reflexivity.
Defined.

Lemma checked_spawn_failure_witness :
  Popen.checked (fun _ _ => Child (Some (OSError "exec")) [] [] [] 0 id)
    (Argv ["gti"; "pull"]) (Some announce) world0
  = (Raise (OSError "exec"), add_spawned (Argv ["gti"; "pull"]) world0).
Proof.
  apply (CheckedFacts.checked_spawn_failure
           (fun _ _ => Child (Some (OSError "exec")) [] [] [] 0 id)
           (Argv ["gti"; "pull"]) (Some announce) world0 (OSError "exec")).
  reflexivity.
Defined.

Lemma checked_silent_child_follows_exit_code_witness :
  Popen.checked (fun _ _ => exits 3) (Argv ["make"; "html"]) (Some announce) world0
  = (if decide (returncode (exits 3) = 0%Z) then Ret tt
     else Raise (CalledProcessError (returncode (exits 3)) (join_call (Argv ["make"; "html"]))),
     add_event (SendMessage "docs@conference.example.org" (Text "$ make html") None
                  "groupchat")
       (add_spawned (Argv ["make"; "html"]) world0)).
Proof.
  apply (CheckedFacts.checked_silent_child_follows_exit_code
           (fun _ _ => exits 3) (Argv ["make"; "html"]) announce world0).
  - reflexivity.
  - reflexivity.
  - reflexivity.
  - vm_compute. reflexivity.
Defined.

(** ** Acquisition and release of the working copy *)

Module EnvironmentFacts.
Import BuildEnvironment.

Section Env.
Variable spawn : nat -> command -> child.
Variable mkdtemp : list string -> string.

(** A step that returned has started its command and nothing else. *)
Lemma checked_ret_spawned call f w w' :
  quiet_sink f ->
  Popen.checked spawn call f w = (Ret tt, w') ->
  spawned w' = spawned w ++ [call].
Proof.
  intros Hq H. pose proof (PopenLeaves.checked_spawns_once spawn call f w Hq) as Hs.
  rewrite H in Hs. exact Hs.
Qed.





(** The directory of an environment that owns it is gone when the
    [with] block is left, on every way out. *)
Lemma with_env_releases {A} env (body : t -> M World A) w p :
  tmp_dir env = None ->
  below (mkdtemp (dirs w)) p = true ->
  p ∉ dirs (snd (with_env spawn mkdtemp env body w)).
Proof.
  intros Htmp Hp. unfold with_env, __enter__. rewrite Htmp.
  unfold mbind at 1 2, M_bind.
  unfold TemporaryDirectory, get, modify.
  unfold mbind at 1 2, M_bind, mret at 1 2, M_ret. simpl.
  set (name := mkdtemp (dirs w)) in *.
  unfold try_except. unfold mbind at 1, M_bind.
  destruct (acquire spawn (set_tmp env (Some name) (Some name)) name
              (set_dirs (cons name) w)) as [[[]|e] w1].
  - unfold mret at 1, M_ret. unfold try_finally.
    destruct (body (set_tmp env (Some name) (Some name)) w1) as [r w2].
    unfold __exit__, cleanup, modify, mbind, M_bind, mret, M_ret. simpl.
    apply BuildEnvironmentFacts.rmtree_below. exact Hp.
  - unfold cleanup, modify, raise, mbind, M_bind. simpl.
    apply BuildEnvironmentFacts.rmtree_below. exact Hp.
Qed.

(** X13: with a configured directory, entering and leaving the environment
    remove nothing: the [with] block is the acquisition followed by the
    body, with the result or the error of the first of them that raises. *)
Theorem fixed_directory_is_kept {A} d url br subs log (body : t -> M World A) w :
  let env := __init__ (Some d) url br subs log in
  with_env spawn mkdtemp env body w = (acquire spawn env d ;; body env) w.
Proof.
  intros env. subst env.
  unfold with_env, __enter__, try_except, try_finally, __exit__, __init__.
  unfold mbind, M_bind, mret, M_ret, raise. simpl.
  destruct (acquire spawn _ d w) as [[[]|e] w1]; simpl; [|reflexivity].
  destruct (body _ w1) as [r w2]. destruct r; reflexivity.
Qed.
End Env.

End EnvironmentFacts.


(** What the acquisition runs, written out.  With the relative name the
    test of line 144 is made from inside [wc] and looks for [wc/wc/.git]:
    the repository in [wc] is not found and [git clone] is run, in [wc]
    and with the target [wc].  With the absolute name of the same
    directory the repository is found and [git fetch] is run. *)
Example acquire_relative_and_absolute :
  spawned (snd (BuildEnvironment.acquire (fun _ _ => exits 0) env_html "wc" world_wc))
  = [Argv ["git"; "clone"; "git://example.org/docs.git"; "wc"];
     Argv ["git"; "checkout"; "master"]; Argv ["git"; "pull"];
     Argv ["git"; "submodule"; "init"; "theme"];
     Argv ["git"; "submodule"; "update"; "theme"]]
  /\ cwd (snd (BuildEnvironment.acquire (fun _ _ => exits 0) env_html "wc" world_wc))
     = "/srv/bot/wc"
  /\ spawned (snd (BuildEnvironment.acquire (fun _ _ => exits 0) env_html "/srv/bot/wc"
                     world_wc))
     = [Argv ["git"; "fetch"; "origin"];
        Argv ["git"; "checkout"; "master"]; Argv ["git"; "pull"];
        Argv ["git"; "submodule"; "init"; "theme"];
        Argv ["git"; "submodule"; "update"; "theme"]].
Proof. repeat split; vm_compute; reflexivity. Qed.

(** ** Builds *)

Module BuildRunFacts.

Section Run.
Variable spawn : nat -> command -> child.
Variable mkdtemp : list string -> string.
Variable format_builddir : string -> option string -> outcome string.

(** X12: a build for which no working copy is configured, neither for the
    build nor for its project, leaves no temporary directory behind:
    whether the acquisition fails, a command fails, the move fails or all
    succeeds, the directory and all below it is gone when [build]
    returns. *)
Theorem build_leaves_no_tmp_dir o log_func w p :
  py_or (Build.working_copy (build_of o))
        (project_working_copy (Build.project (build_of o))) = None ->
  below (mkdtemp (dirs w)) p = true ->
  p ∉ dirs (snd (DocBot.build spawn mkdtemp format_builddir o log_func w)).
Proof.
  intros Hcopy Hp.
  destruct o as [b|b]; unfold DocBot.build, Build.build;
    apply EnvironmentFacts.with_env_releases; try exact Hp; exact Hcopy.
Qed.

Lemma commands_run f cmds : forall w,
  quiet_sink f ->
  match for_each cmds (fun command => Popen.checked spawn command f) w with
  | (Ret _, w') => spawned w' = spawned w ++ cmds
  | (Raise e, w') =>
      exists k call w1,
        cmds !! k = Some call
        /\ for_each (take k cmds) (fun command => Popen.checked spawn command f) w
           = (Ret tt, w1)
        /\ Popen.checked spawn call f w1 = (Raise e, w')
        /\ spawned w' = spawned w ++ take (S k) cmds
  end.
Proof.
  induction cmds as [|c cmds IH]; intros w Hq.
  - simpl. rewrite app_nil_r. reflexivity.
  - cbn [for_each]. unfold mbind at 1, M_bind.
    pose proof (PopenLeaves.checked_spawns_once spawn c f w Hq) as Hc.
    destruct (Popen.checked spawn c f w) as [[[]|e] w1] eqn:Hrun; simpl in Hc.
    + specialize (IH w1 Hq).
      destruct (for_each cmds (fun command => Popen.checked spawn command f) w1)
        as [[[]|e] w'].
      * rewrite IH, Hc, <- app_assoc. reflexivity.
      * destruct IH as (k & call & w2 & Hk & Hpre & Hfail & Hsp).
        exists (S k), call, w2. split; [exact Hk|]. split.
        { cbn [take for_each]. rewrite (bind_ret_l _ _ _ _ _ Hrun). exact Hpre. }
        split; [exact Hfail|].
        rewrite Hsp, Hc, <- app_assoc. reflexivity.
    + exists 0, c, w. split; [reflexivity|]. split; [reflexivity|].
      split; [exact Hrun | exact Hc].
Qed.

(** X14: [Build._do_build] starts the configured commands in their order
    and stops at the first that fails.  When it returns, every command
    has been started, once and in order.  When it raises, there is a
    command, the one at index [k], such that the commands before it have
    run and returned, this one has raised, the build ends there with its
    error and its world, and the processes started are the commands up to
    and including it: no later command is started. *)
Theorem do_build_runs_commands_in_order self env w :
  quiet_sink (BuildEnvironment.log_func env) ->
  match Build._do_build spawn self env w with
  | (Ret _, w') => spawned w' = spawned w ++ Build.commands self
  | (Raise e, w') =>
      exists k call w1,
        Build.commands self !! k = Some call
        /\ for_each (take k (Build.commands self))
             (fun command => Popen.checked spawn command (BuildEnvironment.log_func env)) w
           = (Ret tt, w1)
        /\ Popen.checked spawn call (BuildEnvironment.log_func env) w1 = (Raise e, w')
        /\ spawned w' = spawned w ++ take (S k) (Build.commands self)
  end.
Proof. intros Hq. unfold Build._do_build. apply commands_run. exact Hq. Qed.

(** X15: a [BuildAndMove] that returns has started its commands, then
    [rm -rf] of the destination, then [mv] of the source to the
    destination, and nothing else; the source is the directory of the
    environment, or the template formatted with it. *)
Theorem move_runs_rm_then_mv self env w w' :
  quiet_sink (BuildEnvironment.log_func env) ->
  BuildAndMove._do_build spawn format_builddir self env w = (Ret tt, w') ->
  exists source,
    match BuildAndMove.move_from self with
    | Some template =>
        format_builddir template (BuildEnvironment.tmp_dir env) = Ret source
    | None => BuildEnvironment.tmp_dir env = Some source
    end
    /\ spawned w'
       = spawned w ++ Build.commands (BuildAndMove.base self)
         ++ [Argv ["rm"; "-rf"; BuildAndMove.move_to self];
             Argv ["mv"; source; BuildAndMove.move_to self]].
Proof.
  intros Hq H. unfold BuildAndMove._do_build in H.
  bind_inv H. destruct a.
  destruct (BuildFacts.do_build_spawns spawn (BuildAndMove.base self) env w Hq)
    as (k & _ & Hs & Hk).
  rewrite H0 in Hs, Hk. simpl in Hs, Hk. rewrite (Hk eq_refl), firstn_all in Hs.
  bind_inv H. bind_inv H. destruct a0.
  apply (EnvironmentFacts.checked_ret_spawned _ _ _ _ _ Hq) in H2.
  destruct a as [source|]; [|discriminate H].
  apply (EnvironmentFacts.checked_ret_spawned _ _ _ _ _ Hq) in H.
  exists source. split.
  - destruct (BuildAndMove.move_from self) as [template|].
    + destruct (format_builddir template (BuildEnvironment.tmp_dir env));
        inversion H1; subst. reflexivity.
    + inversion H1; subst. reflexivity.
  - assert (s0 = s).
    { destruct (BuildAndMove.move_from self) as [template|].
      - destruct (format_builddir template (BuildEnvironment.tmp_dir env));
          inversion H1; subst; reflexivity.
      - inversion H1; subst; reflexivity. }
    subst s0. rewrite H, H2, Hs, <- !app_assoc. reflexivity.
Qed.
End Run.

(** X16: a [BuildAndMove] is made only with a destination that is given
    and not empty; one that is made keeps it, so the [rm -rf] of the move
    never gets an empty path. *)
Theorem build_and_move_needs_a_destination name branch submodules commands working_copy
    move_to move_from :
  match BuildAndMove.__init__ name branch submodules commands working_copy
          move_to move_from with
  | Declared make =>
      exists dest, move_to = Some dest /\ dest <> EmptyString
                   /\ forall project, BuildAndMove.move_to (make project) = dest
  | ValueError _ => move_to = None \/ move_to = Some EmptyString
  end.
Proof.
  unfold BuildAndMove.__init__. destruct move_to as [dest|]; [|left; reflexivity].
  destruct (decide (dest = EmptyString)) as [->|Hne].
  - right. reflexivity.
  - exists dest. repeat split. exact Hne.
Qed.

(** ** Projects *)

(** X17: a [Project] is made only with a repository URL that is given and
    not empty. *)
Theorem project_needs_a_repository_url name builds repository_url pubsub_name working_copy
    h :
  match Project.__init__ name builds repository_url pubsub_name working_copy h with
  | Declared (p, _) =>
      exists url, repository_url = Some url /\ url <> EmptyString
                  /\ Project.attrs p = ProjectAttrs name url pubsub_name working_copy
  | ValueError _ => repository_url = None \/ repository_url = Some EmptyString
  end.
Proof.
  unfold Project.__init__. destruct repository_url as [url|]; [|left; reflexivity].
  destruct (decide (url = EmptyString)) as [->|Hne].
  - right. reflexivity.
  - exists url. repeat split. exact Hne.
Qed.

Lemma omap_agree {A B} (f g : A -> option B) (l : list A) :
  (forall a, a ∈ l -> f a = g a) -> omap f l = omap g l.
Proof.
  induction l as [|a l IH]; intros H; [reflexivity|].
  assert (Hl : omap f l = omap g l) by (apply IH; intros x Hx; apply H; right; exact Hx).
  simpl. rewrite (H a) by left. destruct (g a); [f_equal|]; exact Hl.
Qed.

Lemma cell_eta c : Cell (cell_made c) (cell_project c) = c.
Proof. destruct c. reflexivity. Qed.

(** The store after [build.project = self] for every build of a list. *)
Lemma set_projects_lookup self builds : forall h a,
  fold_left (fun h build => set_project self build h) builds h !! a
  = (fun c => Cell (cell_made c)
                (if bool_decide (a ∈ builds) then Some self else cell_project c))
    <$> h !! a.
Proof.
  induction builds as [|b builds IH]; intros h a.
  - simpl. destruct (h !! a) as [c|]; [|reflexivity]. simpl. rewrite cell_eta. reflexivity.
  - cbn [fold_left]. rewrite IH. unfold set_project.
    destruct (decide (a = b)) as [->|Hne].
    + rewrite list_lookup_alter_eq. destruct (h !! b) as [c|]; [|reflexivity]. simpl.
      rewrite (bool_decide_eq_true_2 (b ∈ b :: builds)) by apply list_elem_of_here.
      destruct (bool_decide (b ∈ builds)); reflexivity.
    + rewrite list_lookup_alter_ne by congruence.
      destruct (h !! a) as [c|]; [|reflexivity]. simpl.
      assert (Hin : bool_decide (a ∈ b :: builds) = bool_decide (a ∈ builds)).
      { apply bool_decide_ext. rewrite elem_of_cons. split; [|auto].
        intros [Heq | Hin]; [contradiction | exact Hin]. }
      rewrite Hin. reflexivity.
Qed.

(** X18: [Project.__init__] hands the project to every build it is given,
    in place.  Afterwards every build object still holds what its
    constructor set; those given to the project name it as their
    [project], whatever project they named before, and the others name
    what they named; and the builds of the project are the ones given, in
    their order, each read with this project. *)
Theorem project_owns_its_builds name builds repository_url pubsub_name working_copy
    h p h' :
  Project.__init__ name builds repository_url pubsub_name working_copy h
  = Declared (p, h') ->
  length h' = length h
  /\ (forall a c,
        h !! a = Some c ->
        h' !! a = Some (Cell (cell_made c)
                          (if bool_decide (a ∈ builds) then Some (Project.attrs p)
                           else cell_project c)))
  /\ Project.builds p
     = omap (fun a => c ← h !! a; Some (cell_made c (Project.attrs p))) builds.
Proof.
  unfold Project.__init__. destruct repository_url as [url|]; [|discriminate].
  destruct (decide (url = EmptyString)); [discriminate|].
  intros H. inversion H; subst p h'; clear H.
  set (self := ProjectAttrs name url pubsub_name working_copy).
  split; [|split].
  - generalize h. induction builds as [|b builds IH]; intros h0; [reflexivity|].
    cbn [fold_left]. rewrite IH. unfold set_project. apply length_alter.
  - intros a c Ha. rewrite set_projects_lookup, Ha. reflexivity.
  - unfold Project.read. cbn [Project.builds Project.attrs].
    apply omap_agree. intros a Ha.
    unfold read_build. rewrite set_projects_lookup.
    rewrite (bool_decide_eq_true_2 (a ∈ builds)) by exact Ha.
    destruct (h !! a) as [c|]; reflexivity.
Qed.

End BuildRunFacts.

(** ** Dictionaries *)

Section DictFacts.
Context {K V : Type} `{EqDecision K}.

Lemma dict_get_set_eq (k : K) (v : V) d : dict_get k (dict_set k v d) = Some v.
Proof.
  induction d as [|[k' v'] d IH]; simpl.
  - rewrite decide_True by reflexivity. reflexivity.
  - destruct (decide (k = k')) as [->|Hne]; simpl.
    + rewrite decide_True by reflexivity. reflexivity.
    + rewrite decide_False by exact Hne. exact IH.
Qed.

Lemma dict_get_set_ne (k k' : K) (v : V) d :
  k <> k' -> dict_get k (dict_set k' v d) = dict_get k d.
Proof.
  intros Hne. induction d as [|[k0 v0] d IH]; simpl.
  - rewrite decide_False by exact Hne. reflexivity.
  - destruct (decide (k' = k0)) as [->|Hne0]; simpl.
    + rewrite !decide_False by exact Hne. reflexivity.
    + destruct (decide (k = k0)); [reflexivity | exact IH].
Qed.

Lemma dict_get_app (k : K) (d1 d2 : list (K * V)) :
  dict_get k (d1 ++ d2)
  = match dict_get k d1 with Some v => Some v | None => dict_get k d2 end.
Proof.
  induction d1 as [|[k' v'] d1 IH]; simpl; [reflexivity|].
  destruct (decide (k = k')); [reflexivity | exact IH].
Qed.

(** A later item with the same key replaces an earlier one. *)
Lemma dict_get_fold_set (k : K) items : forall d : list (K * V),
  dict_get k (fold_left (fun d kv => dict_set (fst kv) (snd kv) d) items d)
  = match dict_get k (reverse items) with Some v => Some v | None => dict_get k d end.
Proof.
  induction items as [|[k' v'] items IH]; intros d; simpl; [reflexivity|].
  rewrite IH, reverse_cons, dict_get_app. simpl.
  destruct (dict_get k (reverse items)); [reflexivity|].
  destruct (decide (k = k')) as [->|Hne].
  - apply dict_get_set_eq.
  - apply dict_get_set_ne. exact Hne.
Qed.
End DictFacts.

Lemma dict_get_extend_eq {K V} `{EqDecision K} (k : K) (vs : list V) d :
  dict_get k (dict_extend k vs d) = Some (default [] (dict_get k d) ++ vs).
Proof. unfold dict_extend. apply dict_get_set_eq. Qed.

Lemma dict_get_extend_ne {K V} `{EqDecision K} (k k' : K) (vs : list V) d :
  k <> k' -> dict_get k (dict_extend k' vs d) = dict_get k d.
Proof. intros Hne. unfold dict_extend. apply dict_get_set_ne. exact Hne. Qed.

(** ** Trigger tables and the dispatch table *)

Module DispatchFacts.

Lemma triggers_fold (source branch : string) builds : forall table,
  dict_get (source, branch)
    (fold_left (fun triggers build =>
                  dict_extend (source, Build.branch (build_of build)) [build] triggers)
       builds table)
  = match filter (fun b => Build.branch (build_of b) = branch) builds with
    | [] => dict_get (source, branch) table
    | l => Some (default [] (dict_get (source, branch) table) ++ l)
    end.
Proof.
  induction builds as [|b builds IH]; intros table; [reflexivity|].
  simpl fold_left. rewrite IH, filter_cons.
  destruct (decide (Build.branch (build_of b) = branch)) as [Hb|Hb].
  - subst branch. rewrite dict_get_extend_eq.
    destruct (filter _ builds) as [|b' l]; simpl.
    + reflexivity.
    + rewrite <- app_assoc. reflexivity.
  - rewrite dict_get_extend_ne by congruence. reflexivity.
Qed.

(** What a project's trigger table holds under a key. *)
Lemma triggers_lookup p (source branch : string) :
  dict_get (source, branch) (Project.triggers p)
  = if decide (pubsub_name (Project.attrs p) = Some source)
    then listed (builds_on branch p) else None.
Proof.
  unfold Project.triggers, builds_on.
  destruct (pubsub_name (Project.attrs p)) as [s|] eqn:Hs.
  - destruct (decide (Some s = Some source)) as [Heq|Hne].
    + inversion Heq; subst s. rewrite triggers_fold. simpl.
      destruct (filter _ (Project.builds p)); reflexivity.
    + assert (Hkeys : forall builds table,
                dict_get (source, branch)
                  (fold_left (fun triggers build =>
                     dict_extend (s, Build.branch (build_of build)) [build] triggers)
                     builds table)
                = dict_get (source, branch) table).
      { induction builds as [|b builds IH]; intros table; [reflexivity|].
        simpl. rewrite IH. apply dict_get_extend_ne. congruence. }
      rewrite Hkeys. reflexivity.
  - rewrite decide_False by discriminate. reflexivity.
Qed.

(** X19: the trigger table of a project bound to a source holds, under
    the source and a branch, the builds of the project that follow the
    branch, in the order they were declared; a branch no build follows has
    no entry, and a project bound to no source has no entries. *)
Theorem triggers_hold_builds_by_branch p (source branch : string) :
  dict_get (source, branch) (Project.triggers p)
  = if decide (pubsub_name (Project.attrs p) = Some source)
    then listed (builds_on branch p) else None.
Proof. apply triggers_lookup. Qed.

(** The keys of a dictionary built by assignments are distinct. *)
Lemma dict_set_nodup {K V} `{EqDecision K} (k : K) (v : V) d :
  NoDup (map fst d) -> NoDup (map fst (dict_set k v d)).
Proof.
  induction d as [|[k' v'] d IH]; simpl; intros Hd.
  - apply NoDup_singleton.
  - apply NoDup_cons in Hd as [Hk' Hd].
    destruct (decide (k = k')) as [->|Hne]; simpl.
    + apply NoDup_cons. split; assumption.
    + apply NoDup_cons. split; [|apply IH; exact Hd].
      intros Hin. apply Hk'. clear -Hin Hne.
      induction d as [|[k0 v0] d IH]; simpl in *.
      * apply list_elem_of_singleton in Hin. congruence.
      * destruct (decide (k = k0)) as [->|Hne0]; simpl in *.
        -- apply elem_of_cons in Hin as [->|Hin]; [congruence|].
           apply elem_of_cons. right. exact Hin.
        -- apply elem_of_cons in Hin as [->|Hin]; [apply elem_of_cons; left; reflexivity|].
           apply elem_of_cons. right. apply IH. exact Hin.
Qed.

Lemma triggers_nodup p : NoDup (map fst (Project.triggers p)).
Proof.
  unfold Project.triggers. destruct (pubsub_name (Project.attrs p)) as [s|]; [|apply NoDup_nil_2].
  assert (H : forall builds table,
            NoDup (map fst table) ->
            NoDup (map fst (fold_left (fun triggers build =>
                     dict_extend (s, Build.branch (build_of build)) [build] triggers)
                     builds table))).
  { induction builds as [|b builds IH]; intros table Ht; [exact Ht|].
    simpl. apply IH. unfold dict_extend. apply dict_set_nodup. exact Ht. }
  apply H. apply NoDup_nil_2.
Qed.

(** Merging the items of a table with distinct keys into another. *)
Lemma merge_items (k : string * string) items : forall table : list (_ * list build_obj),
  NoDup (map fst items) ->
  dict_get k (fold_left (fun m kv => dict_extend (fst kv) (snd kv) m) items table)
  = match dict_get k items with
    | Some l => Some (default [] (dict_get k table) ++ l)
    | None => dict_get k table
    end.
Proof.
  induction items as [|[k' l'] items IH]; intros table Hnd; [reflexivity|].
  simpl in Hnd. apply NoDup_cons in Hnd as [Hk' Hnd].
  simpl fold_left. rewrite (IH _ Hnd). simpl dict_get.
  destruct (decide (k = k')) as [->|Hne].
  - assert (Hnone : dict_get k' items = None).
    { clear -Hk'. induction items as [|[k0 v0] items IH]; [reflexivity|].
      simpl in *. destruct (decide (k' = k0)) as [->|Hne].
      - exfalso. apply Hk'. apply elem_of_cons. left. reflexivity.
      - apply IH. intros Hin. apply Hk'. apply elem_of_cons. right. exact Hin. }
    rewrite Hnone, dict_get_extend_eq. reflexivity.
  - rewrite dict_get_extend_ne by exact Hne. reflexivity.
Qed.

(** The table merged from the trigger tables of [ps], under one key. *)
Lemma merged_lookup (source branch : string) ps : forall table,
  dict_get (source, branch)
    (fold_left (fun m project =>
                  fold_left (fun m kv => dict_extend (fst kv) (snd kv) m)
                    (Project.triggers project) m)
       ps table)
  = match concerned source branch ps with
    | [] => dict_get (source, branch) table
    | l => Some (default [] (dict_get (source, branch) table) ++ l)
    end.
Proof.
  induction ps as [|p ps IH]; intros table; [reflexivity|].
  simpl fold_left. rewrite IH, (merge_items _ _ _ (triggers_nodup p)), triggers_lookup.
  unfold concerned. simpl flat_map. fold (concerned source branch ps).
  destruct (decide (pubsub_name (Project.attrs p) = Some source)).
  - destruct (builds_on branch p) as [|b l]; simpl; [reflexivity|].
    destruct (concerned source branch ps) as [|b' l']; simpl.
    + rewrite app_nil_r. reflexivity.
    + rewrite <- app_assoc. reflexivity.
  - reflexivity.
Qed.

Section Reload.
Variable exec_conf : string -> outcome namespace.

(** The bot after a reload of a document that evaluates to [ns]. *)
Lemma reload_result self w conf ns :
  docbot_config w = Some conf ->
  exec_conf conf = Ret ns ->
  fst (snd (DocBot.reloadConfig exec_conf (self, w)))
  = DocBot.Make (remove_dups (default [] (ns_authorized ns))) []
      (dict_of (default [] (ns_projects ns)))
      (fold_left (fun m project =>
                    fold_left (fun m kv => dict_extend (fst kv) (snd kv) m)
                      (Project.triggers project) m)
         (map snd (dict_of (default [] (ns_projects ns)))) [])
      (DocBot.switch self) (DocBot.bots_switch self) (DocBot.nick self).
Proof.
  intros Hconf Hexec. unfold DocBot.reloadConfig.
  unfold mbind, M_bind, get, mret, M_ret. simpl. rewrite Hconf, Hexec. reflexivity.
Qed.

(** X20: after a reload that succeeds, the dispatch table holds under a
    source and a branch the builds of that branch of all projects bound to
    that source, project by project in the order of the project table and
    within a project in declaration order; there is no entry when there is
    no such build. *)
Theorem reload_builds_dispatch_table self w conf ns (source branch : string) :
  docbot_config w = Some conf ->
  exec_conf conf = Ret ns ->
  let self' := fst (snd (DocBot.reloadConfig exec_conf (self, w))) in
  dict_get (source, branch) (DocBot.repobranch_map self')
  = listed (concerned source branch (map snd (DocBot.projects self'))).
Proof.
  intros Hconf Hexec self'. subst self'.
  rewrite (reload_result self w conf ns Hconf Hexec). simpl.
  rewrite merged_lookup. simpl.
  destruct (concerned source branch _); reflexivity.
Qed.

(** X21: after a reload that succeeds, a name stands for the last project
    declared under it: a later declaration replaces an earlier one of the
    same name. *)
Theorem reload_keeps_last_declaration self w conf ns name :
  docbot_config w = Some conf ->
  exec_conf conf = Ret ns ->
  dict_get name (DocBot.projects (fst (snd (DocBot.reloadConfig exec_conf (self, w)))))
  = dict_get name (reverse (default [] (ns_projects ns))).
Proof.
  intros Hconf Hexec. rewrite (reload_result self w conf ns Hconf Hexec). simpl.
  unfold dict_of. rewrite dict_get_fold_set.
  destruct (dict_get name (reverse _)); reflexivity.
Qed.

(** X22: after a reload that succeeds, the authorized set holds the
    declared identities, each once, the blacklist is empty, and the rooms
    and the nick of the bot are the ones from before. *)
Theorem reload_resets_authorization self w conf ns :
  docbot_config w = Some conf ->
  exec_conf conf = Ret ns ->
  let self' := fst (snd (DocBot.reloadConfig exec_conf (self, w))) in
  NoDup (DocBot.authorized self')
  /\ (forall who, who ∈ DocBot.authorized self' <-> who ∈ default [] (ns_authorized ns))
  /\ DocBot.blacklist self' = []
  /\ DocBot.switch self' = DocBot.switch self
  /\ DocBot.bots_switch self' = DocBot.bots_switch self
  /\ DocBot.nick self' = DocBot.nick self.
Proof.
  intros Hconf Hexec self'. subst self'.
  rewrite (reload_result self w conf ns Hconf Hexec). simpl.
  split; [apply NoDup_remove_dups|].
  split; [intros who; apply elem_of_remove_dups|].
  repeat split.
Qed.
End Reload.

End DispatchFacts.

(** ** What a build leaves alone *)

Section PreservesMore.
Context {St X : Type} (proj : St -> X).

Lemma preserves_modify (f : St -> St) :
  (forall s, proj (f s) = proj s) -> preserves proj (modify f).
Proof. intros H s. apply H. Qed.

Lemma preserves_get : preserves proj (get : M St St).
Proof. intros s. reflexivity. Qed.

Lemma preserves_try_except {A} (c : M St A) (h : exn -> M St A) :
  preserves proj c -> (forall e, preserves proj (h e)) -> preserves proj (try_except c h).
Proof.
  intros Hc Hh s. unfold try_except. specialize (Hc s).
  destruct (c s) as [[a|e] s1]; simpl in *; [exact Hc|].
  rewrite Hh. exact Hc.
Qed.

Lemma preserves_try_finally {A} (c : M St A) (f : M St unit) :
  preserves proj c -> preserves proj f -> preserves proj (try_finally c f).
Proof.
  intros Hc Hf s. unfold try_finally. specialize (Hc s).
  destruct (c s) as [r s1]. specialize (Hf s1).
  destruct (f s1) as [[[]|e] s2]; simpl in *; congruence.
Qed.
End PreservesMore.

Module BuildLeaves.

Section Build.
Context {X : Type} (proj : World -> X).
(** [proj] looks at the events only. *)
Hypothesis proj_dirs : forall f w, proj (set_dirs f w) = proj w.
Hypothesis proj_cwd : forall d w, proj (set_cwd d w) = proj w.
Hypothesis proj_spawned : forall c w, proj (add_spawned c w) = proj w.

Variable spawn : nat -> command -> child.
Variable mkdtemp : list string -> string.
Variable format_builddir : string -> option string -> outcome string.
Variable log : option sink.
Hypothesis log_preserves : forall g buf, log = Some g -> preserves proj (g buf).

Lemma checked_preserves call : preserves proj (Popen.checked spawn call log).
Proof.
  unfold Popen.checked, Popen.__init__.
  apply preserves_bind; [|intros proc; apply preserves_bind].
  - apply preserves_bind; [apply preserves_get|]. intros w.
    apply preserves_bind; [apply preserves_modify; intros; apply proj_spawned|].
    intros _. destruct (spawn_error _); [apply preserves_raise|].
    apply preserves_bind; [apply preserves_modify; intros; apply proj_dirs|].
    intros _. apply preserves_bind; [|intros; apply preserves_ret].
    destruct log as [g|] eqn:Hlog; [|apply preserves_ret].
    apply (log_preserves g _ eq_refl).
  - unfold Popen.communicate. destruct log as [g|] eqn:Hlog; [|apply preserves_ret].
    apply PopenLeaves.communicate_sink_preserves. intros buf.
    apply (log_preserves g _ eq_refl).
  - intros r. destruct (decide _); [apply preserves_raise | apply preserves_ret].
Qed.

Lemma cleanup_preserves name : preserves proj (BuildEnvironment.cleanup name).
Proof. apply preserves_modify. intros; apply proj_dirs. Qed.

Lemma acquire_preserves self d :
  BuildEnvironment.log_func self = log ->
  preserves proj (BuildEnvironment.acquire spawn self d).
Proof.
  intros Hlog. unfold BuildEnvironment.acquire. rewrite Hlog.
  assert (Hisdir : forall p, preserves proj (isdir p)).
  { intros p. apply preserves_bind; [apply preserves_get | intros; apply preserves_ret]. }
  apply preserves_bind; [apply Hisdir|]. intros there.
  apply preserves_bind.
  { destruct (negb there); [|apply preserves_ret]. unfold makedirs.
    apply preserves_bind; [apply preserves_get|]. intros w.
    destruct (decide _); [apply preserves_raise|].
    destruct (exists_dir w d); [apply preserves_raise|].
    destruct (_ && _); [apply preserves_raise|].
    apply preserves_modify. intros; apply proj_dirs. }
  intros _. apply preserves_bind.
  { unfold chdir. apply preserves_bind; [apply preserves_get|]. intros w.
    destruct (exists_dir w d); [|apply preserves_raise].
    apply preserves_modify. intros; apply proj_cwd. }
  intros _. apply preserves_bind; [apply Hisdir|]. intros has_git.
  apply preserves_bind; [destruct has_git; apply checked_preserves|]. intros _.
  apply preserves_bind; [apply checked_preserves|]. intros _.
  apply preserves_bind; [apply checked_preserves|]. intros _.
  apply preserves_for_each. intros submodule.
  apply preserves_bind; [apply checked_preserves | intros; apply checked_preserves].
Qed.

(** [__enter__] returns the environment with its sink, and leaves [proj]
    alone. *)
Lemma enter_preserves env w :
  BuildEnvironment.log_func env = log ->
  proj (snd (BuildEnvironment.__enter__ spawn mkdtemp env w)) = proj w
  /\ forall e w', BuildEnvironment.__enter__ spawn mkdtemp env w = (Ret e, w') ->
                  BuildEnvironment.log_func e = log.
Proof.
  intros Hlog.
  assert (Htry : forall self d w0,
    BuildEnvironment.log_func self = log ->
    let r := try_except
               (BuildEnvironment.acquire spawn self d ;; mret self)
               (fun e => match BuildEnvironment.tmp_dir_context self with
                         | Some name => BuildEnvironment.cleanup name
                         | None => mret tt
                         end ;; raise e) w0 in
    proj (snd r) = proj w0
    /\ forall e w', r = (Ret e, w') -> BuildEnvironment.log_func e = log).
  { intros self d w0 Hself r. subst r. split.
    - apply preserves_try_except.
      + apply preserves_bind; [apply acquire_preserves; exact Hself|].
        intros; apply preserves_ret.
      + intros e. apply preserves_bind; [|intros; apply preserves_raise].
        destruct (BuildEnvironment.tmp_dir_context self);
          [apply cleanup_preserves | apply preserves_ret].
    - intros e w'. unfold try_except, mbind, M_bind, mret, M_ret, raise.
      destruct (BuildEnvironment.acquire spawn self d w0) as [[[]|x] w1].
      + intros H. inversion H; subst. exact Hself.
      + destruct (BuildEnvironment.tmp_dir_context self) as [name|]; simpl;
          intros H; discriminate H. }
  destruct (BuildEnvironment.tmp_dir env) as [d|] eqn:Ht.
  - assert (Heq : BuildEnvironment.__enter__ spawn mkdtemp env w
                  = try_except
                      (BuildEnvironment.acquire spawn env d ;; mret env)
                      (fun e => match BuildEnvironment.tmp_dir_context env with
                                | Some name => BuildEnvironment.cleanup name
                                | None => mret tt
                                end ;; raise e) w).
    { unfold BuildEnvironment.__enter__. rewrite Ht.
      unfold mbind at 1, M_bind, mret at 1, M_ret. rewrite Ht. reflexivity. }
    rewrite Heq. apply (Htry env d w Hlog).
  - set (name := mkdtemp (dirs w)).
    assert (Heq : BuildEnvironment.__enter__ spawn mkdtemp env w
                  = try_except
                      (BuildEnvironment.acquire spawn
                         (BuildEnvironment.set_tmp env (Some name) (Some name)) name ;;
                       mret (BuildEnvironment.set_tmp env (Some name) (Some name)))
                      (fun e => BuildEnvironment.cleanup name ;; raise e)
                      (set_dirs (cons name) w)).
    { unfold BuildEnvironment.__enter__. rewrite Ht. reflexivity. }
    rewrite Heq.
    destruct (Htry (BuildEnvironment.set_tmp env (Some name) (Some name)) name
                (set_dirs (cons name) w) Hlog) as [Hp He].
    split; [|exact He]. simpl in Hp. rewrite Hp. apply proj_dirs.
Qed.

Lemma with_env_preserves {A} env (body : BuildEnvironment.t -> M World A) :
  BuildEnvironment.log_func env = log ->
  (forall e, BuildEnvironment.log_func e = log -> preserves proj (body e)) ->
  preserves proj (BuildEnvironment.with_env spawn mkdtemp env body).
Proof.
  intros Hlog Hbody w. unfold BuildEnvironment.with_env.
  destruct (enter_preserves env w Hlog) as [Hp He].
  unfold mbind, M_bind.
  destruct (BuildEnvironment.__enter__ spawn mkdtemp env w) as [[e|x] w1];
    simpl in Hp; [|exact Hp].
  rewrite <- Hp. apply preserves_try_finally.
  - apply Hbody. apply (He e w1 eq_refl).
  - unfold BuildEnvironment.__exit__.
    apply preserves_bind; [|intros; apply preserves_ret].
    apply preserves_bind; [|intros; apply preserves_ret].
    destruct (BuildEnvironment.tmp_dir_context e);
      [apply cleanup_preserves | apply preserves_ret].
Qed.

Lemma do_build_preserves self env :
  BuildEnvironment.log_func env = log ->
  preserves proj (Build._do_build spawn self env).
Proof.
  intros Hlog. unfold Build._do_build. rewrite Hlog.
  apply preserves_for_each. intros c. apply checked_preserves.
Qed.

Lemma move_preserves self env :
  BuildEnvironment.log_func env = log ->
  preserves proj (BuildAndMove._do_build spawn format_builddir self env).
Proof.
  intros Hlog. unfold BuildAndMove._do_build.
  apply preserves_bind; [apply do_build_preserves; exact Hlog|].
  intros _. apply preserves_bind.
  - destruct (BuildAndMove.move_from self) as [template|]; [|apply preserves_ret].
    destruct (format_builddir _ _); [apply preserves_ret | apply preserves_raise].
  - intros source. rewrite Hlog.
    apply preserves_bind; [apply checked_preserves|]. intros _.
    destruct source; [apply checked_preserves | apply preserves_raise].
Qed.

(** A build changes [proj] no more than its sink does. *)
Lemma build_preserves o :
  preserves proj (DocBot.build spawn mkdtemp format_builddir o log).
Proof.
  destruct o as [b|b]; unfold DocBot.build, Build.build;
    apply with_env_preserves; try reflexivity; intros e He.
  - apply do_build_preserves. exact He.
  - apply move_preserves. exact He.
Qed.
End Build.

End BuildLeaves.

(** ** Rebuilds and notifications *)

Module RebuildFacts.
Import DocBot.

Lemma subjects_plain mto body mtype w :
  subjects (add_event (SendMessage mto body None mtype) w) = subjects w.
Proof. unfold subjects. simpl. rewrite omap_app. simpl. apply app_nil_r. Qed.

Lemma subjects_print what w : subjects (add_event (Print what) w) = subjects w.
Proof. unfold subjects. simpl. rewrite omap_app. simpl. apply app_nil_r. Qed.

Lemma subjects_subject mto body subject mtype w :
  subjects (add_event (SendMessage mto body (Some subject) mtype) w)
  = subjects w ++ [subject].
Proof. unfold subjects. simpl. rewrite omap_app. reflexivity. Qed.

Section Host.
Variable spawn : nat -> command -> child.
Variable mkdtemp : list string -> string.
Variable format_builddir : string -> option string -> outcome string.
Variable decode : bytes -> outcome string.

Lemma room_sink_subjects self buf : preserves subjects (room_sink decode self buf).
Proof.
  intros w. unfold room_sink. destruct (decode buf); [|reflexivity].
  destruct (decide _); [reflexivity|]. apply subjects_plain.
Qed.

(** [rebuild] of a build as its three steps. *)
Lemma rebuild_steps self b w :
  rebuild spawn mkdtemp format_builddir decode self (BuildObj b) w
  = (send_message (switch self) (Text EmptyString) (Some (topic_of b)) "groupchat" ;;
     try_finally
       (try_except
          (send_message (switch self) (Text (topic_of b)) None "groupchat" ;;
           build spawn mkdtemp format_builddir b (Some (room_sink decode self)) ;;
           send_message (switch self) (Text "done.") None "groupchat")
          (fun err =>
             send_message (bots_switch self) (Text (broken_report b)) None "groupchat" ;;
             send_message (switch self) (Traceback (Some err)) None "groupchat" ;;
             print (PStr "Exception during docbuild logged to muc.")))
       (send_message (switch self) (Text EmptyString) (Some "docbot is idle")
          "groupchat")) w.
Proof. reflexivity. Qed.

(** What [rebuild] of a build does, by the outcome of the build. *)
Lemma rebuild_outcome self b w :
  let started :=
    add_event (SendMessage (switch self) (Text (topic_of b)) None "groupchat")
      (add_event (SendMessage (switch self) (Text EmptyString) (Some (topic_of b))
                    "groupchat") w) in
  let built := build spawn mkdtemp format_builddir b (Some (room_sink decode self)) started in
  rebuild spawn mkdtemp format_builddir decode self (BuildObj b) w
  = (Ret tt,
     add_event (idle self)
       match fst built with
       | Ret _ =>
           add_event (SendMessage (switch self) (Text "done.") None "groupchat") (snd built)
       | Raise err =>
           add_event (Print (PStr "Exception during docbuild logged to muc."))
             (add_event (SendMessage (switch self) (Traceback (Some err)) None "groupchat")
                (add_event (SendMessage (bots_switch self) (Text (broken_report b)) None
                              "groupchat") (snd built)))
       end).
Proof.
  intros started built. rewrite rebuild_steps.
  unfold mbind at 1, M_bind. unfold send_message at 1, modify.
  unfold try_finally, try_except.
  unfold mbind at 1, M_bind. unfold send_message at 1, modify.
  unfold mbind at 1, M_bind. fold started. fold built.
  destruct built as [[[]|err] w1]; reflexivity.
Qed.

(** X24: what [rebuild] of a build does, by the outcome of the build.
    The room's subject is set to the rebuild and the same line is sent to
    the room; after a build that returns, [done.] is sent; after a build
    that raises, the room of the bots is told which project and target is
    broken, the trace goes to the room and a line is printed; then the
    subject is set to idle, and [rebuild] returns. *)
Theorem rebuild_reports_outcome self b w :
  let started :=
    add_event (SendMessage (switch self) (Text (topic_of b)) None "groupchat")
      (add_event (SendMessage (switch self) (Text EmptyString) (Some (topic_of b))
                    "groupchat") w) in
  let built := build spawn mkdtemp format_builddir b (Some (room_sink decode self)) started in
  rebuild spawn mkdtemp format_builddir decode self (BuildObj b) w
  = (Ret tt,
     add_event (idle self)
       match fst built with
       | Ret _ =>
           add_event (SendMessage (switch self) (Text "done.") None "groupchat") (snd built)
       | Raise err =>
           add_event (Print (PStr "Exception during docbuild logged to muc."))
             (add_event (SendMessage (switch self) (Traceback (Some err)) None "groupchat")
                (add_event (SendMessage (bots_switch self) (Text (broken_report b)) None
                              "groupchat") (snd built)))
       end).
Proof. apply rebuild_outcome. Qed.

(** [rebuild] of a build returns. *)
Lemma rebuild_returns self b w :
  fst (rebuild spawn mkdtemp format_builddir decode self (BuildObj b) w) = Ret tt.
Proof.
  pose proof (rebuild_outcome self b w) as H. cbv zeta in H.
  rewrite H. reflexivity.
Qed.

Lemma room_sink_log self g buf :
  Some (room_sink decode self) = Some g -> preserves subjects (g buf).
Proof. intros H. inversion H; subst g. apply room_sink_subjects. Qed.

Lemma rebuild_subjects self b w :
  subjects (snd (rebuild spawn mkdtemp format_builddir decode self (BuildObj b) w))
  = subjects w ++ [topic_of b; "docbot is idle"].
Proof.
  pose proof (rebuild_outcome self b w) as H. cbv zeta in H. rewrite H. clear H.
  match goal with
  | |- context [build spawn mkdtemp format_builddir b ?log ?s] =>
      pose proof (BuildLeaves.build_preserves subjects
                    (fun _ _ => eq_refl) (fun _ _ => eq_refl) (fun _ _ => eq_refl)
                    spawn mkdtemp format_builddir log (room_sink_log self) b s) as Hb;
      destruct (build spawn mkdtemp format_builddir b log s) as [[[]|err] w1]
  end; simpl in Hb; simpl fst; simpl snd; unfold idle;
    rewrite subjects_subject, ?subjects_print, ?subjects_plain, Hb,
      subjects_plain, subjects_subject, <- app_assoc; reflexivity.
Qed.

(** X25: [rebuild] of a build sets the subject of the room twice, to the
    rebuild and then to idle, and nothing the build does or prints sets it
    in between, whatever the outcome. *)
Theorem rebuild_sets_subject_then_idle self b w :
  subjects (snd (rebuild spawn mkdtemp format_builddir decode self (BuildObj b) w))
  = subjects w ++ [topic_of b; "docbot is idle"].
Proof. apply rebuild_subjects. Qed.

Lemma rebuild_each self builds : forall w,
  fst (for_each builds
         (fun b => rebuild spawn mkdtemp format_builddir decode self (BuildObj b)) w)
  = Ret tt
  /\ subjects (snd (for_each builds
         (fun b => rebuild spawn mkdtemp format_builddir decode self (BuildObj b)) w))
     = subjects w ++ flat_map (fun b => [topic_of b; "docbot is idle"]) builds.
Proof.
  induction builds as [|b builds IH]; intros w.
  - simpl. rewrite app_nil_r. split; reflexivity.
  - cbn [for_each flat_map]. unfold mbind, M_bind.
    pose proof (rebuild_returns self b w) as Hr.
    pose proof (rebuild_subjects self b w) as Hs.
    destruct (rebuild spawn mkdtemp format_builddir decode self (BuildObj b) w)
      as [[[]|e] w1]; simpl in Hr, Hs; [|discriminate Hr].
    destruct (IH w1) as [Hi Hj]. split; [exact Hi|].
    rewrite Hj, Hs, <- app_assoc. reflexivity.
Qed.

(** The handler on a notification whose ref has a segment at index 2. *)
Lemma publish_steps self repo ref branch w :
  str_split "/" ref !! 2 = Some branch ->
  pubsubPublish spawn mkdtemp format_builddir decode self (Notification repo (Some ref)) w
  = let w0 := if repo is None then add_event (Print (PStr "Malformed git-post-update.")) w
              else w in
    match repo ≫= fun r => dict_get (r, branch) (repobranch_map self) with
    | Some builds =>
        for_each builds
          (fun b => rebuild spawn mkdtemp format_builddir decode self (BuildObj b)) w0
    | None => (Ret tt, add_event (Print (PRepobranch repo branch)) w0)
    end.
Proof.
  intros Hbranch. unfold pubsubPublish. simpl n_repository. simpl n_ref. cbv iota zeta.
  unfold mbind at 1, M_bind.
  assert (Hstep : (if repo is None then print (PStr "Malformed git-post-update.")
                   else mret tt) w
                  = (Ret tt, if repo is None
                             then add_event (Print (PStr "Malformed git-post-update.")) w
                             else w)) by (destruct repo; reflexivity).
  rewrite Hstep.
  unfold mbind at 1, M_bind, mret at 1, M_ret.
  unfold mbind at 1, M_bind, py_index. rewrite Hbranch. unfold mret at 1, M_ret.
  destruct (repo ≫= fun r => dict_get (r, branch) (repobranch_map self)); reflexivity.
Qed.

(** X23: a notification whose ref has a segment at index 2 never makes the
    handler raise, whatever the builds it triggers do; the subject of the
    room is set, for each build registered under the repository and the
    branch in turn, to its rebuild and then to idle, and not at all when
    none is registered or the repository is missing. *)
Theorem notification_rebuilds_registered_builds self repo ref branch w :
  str_split "/" ref !! 2 = Some branch ->
  let builds :=
    default [] (repo ≫= fun r => dict_get (r, branch) (repobranch_map self)) in
  let r := pubsubPublish spawn mkdtemp format_builddir decode self
             (Notification repo (Some ref)) w in
  fst r = Ret tt
  /\ subjects (snd r)
     = subjects w ++ flat_map (fun b => [topic_of b; "docbot is idle"]) builds.
Proof.
  intros Hbranch builds r. subst r builds.
  rewrite (publish_steps self repo ref branch w Hbranch). cbv zeta.
  set (w0 := if repo is None then add_event (Print (PStr "Malformed git-post-update.")) w
             else w).
  assert (Hsub : subjects w0 = subjects w).
  { subst w0. destruct repo; [reflexivity | apply subjects_print]. }
  destruct (repo ≫= fun r => dict_get (r, branch) (repobranch_map self)) as [bs|].
  - simpl default. rewrite <- Hsub. apply rebuild_each.
  - simpl. rewrite subjects_print, app_nil_r. split; [reflexivity | exact Hsub].
Qed.
End Host.
End RebuildFacts.

Lemma notification_rebuilds_registered_builds_witness :
  let r := DocBot.pubsubPublish (fails_at 3 2) mkdtemp0 format_plain decode_ascii bot0
             (Notification (Some "docs.git") (Some "refs/heads/master")) world0 in
  fst r = Ret tt
  /\ subjects (snd r)
     = subjects world0
       ++ flat_map (fun b => [topic_of b; "docbot is idle"])
            (default [] (Some "docs.git" ≫= fun r =>
                           dict_get (r, "master") (DocBot.repobranch_map bot0))).
Proof.
  apply (RebuildFacts.notification_rebuilds_registered_builds (fails_at 3 2) mkdtemp0
           format_plain decode_ascii bot0 (Some "docs.git") "refs/heads/master" "master"
           world0).
  reflexivity.
Defined.

(** ** Chat messages *)

Module ChatFacts.
Import DocBot.

(** X26: an identity outside the authorized set is told once that it is
    not authorized: the first call replies and puts it on the blacklist,
    and every further call for the same message does nothing; for an
    authorized identity no call does anything.  The authorized set is never
    changed. *)
Theorem unauthorized_sender_is_told_once msg self w :
  let first := authorizedSource msg (self, w) in
  fst first = Ret tt
  /\ replies (snd (snd first))
     = replies w
       ++ (if bool_decide (msg_from msg ∈ authorized self)
              || bool_decide (msg_from msg ∈ blacklist self)
           then [] else [Text "You're not authorized."])
  /\ authorized (fst (snd first)) = authorized self
  /\ authorizedSource msg (snd first) = (Ret tt, snd first).
Proof.
  intros first. subst first. unfold authorizedSource.
  unfold mbind, M_bind, get, world, reply, modify, mret, M_ret. simpl.
  destruct (bool_decide (msg_from msg ∈ authorized self)) eqn:Ha; simpl.
  - rewrite ?Ha. simpl. unfold replies. rewrite app_nil_r. repeat split.
  - destruct (bool_decide (msg_from msg ∈ blacklist self)) eqn:Hb; simpl.
    + rewrite ?Ha, ?Hb. simpl. unfold replies. rewrite app_nil_r. repeat split.
    + assert (Hin : bool_decide (msg_from msg ∈ msg_from msg :: blacklist self) = true).
      { apply bool_decide_eq_true. apply elem_of_cons. left. reflexivity. }
      rewrite ?Ha, ?Hin. simpl. unfold replies. simpl. rewrite omap_app. repeat split.
Qed.

Section Host.
Variable spawn : nat -> command -> child.
Variable mkdtemp : list string -> string.
Variable format_builddir : string -> option string -> outcome string.
Variable decode : bytes -> outcome string.
Variable exec_conf : string -> outcome namespace.
Variable globals : list string.

(** Whenever [message] is within the model it returns. *)
Lemma message_returns msg s r s' :
  message spawn mkdtemp format_builddir decode exec_conf globals msg s = Some (r, s') ->
  r = Ret tt.
Proof.
  unfold message. destruct (decide (msg_type msg = "groupchat")).
  - intros H. inversion H. reflexivity.
  - destruct (COMMANDS _) as [h|].
    + destruct (parse_args _) as [es|]; simpl; [|discriminate].
      destruct (eval_args globals (fst s) es) as [[vs|e]|]; simpl; [| |discriminate].
      * destruct (call _ _ _ _ _ h msg vs) as [c|]; simpl; [|discriminate].
        destruct (c s) as [[v|e] s1].
        -- destruct (py_repr v); simpl; [|discriminate].
           intros H. inversion H. reflexivity.
        -- intros H. inversion H. reflexivity.
      * intros H. inversion H. reflexivity.
    + intros H. inversion H. reflexivity.
Qed.

(** X27: [message] never raises for a message whose arguments are
    literals or names that are not bound.  Whatever the first word is and
    whatever the handler does (a name that is not bound, a wrong number
    of arguments, a reload that fails, a rebuild of a configured project),
    the exception is caught and answered, and [message] returns. *)
Theorem message_never_raises msg s es :
  arg_exprs (msg_body msg) = Some es ->
  forallb (plain globals) es = true ->
  exists s',
    message spawn mkdtemp format_builddir decode exec_conf globals msg s
    = Some (Ret tt, s').
Proof. apply CommandFacts.message_defined. Qed.

(** X28: a first word that is no command is answered with [Unknown
    command:] and the word; the rest of the message is not looked at and
    nothing else happens. *)
Theorem unknown_command_is_answered msg self w :
  msg_type msg <> "groupchat" ->
  COMMANDS (hd EmptyString (str_split " " (msg_body msg))) = None ->
  message spawn mkdtemp format_builddir decode exec_conf globals msg (self, w)
  = Some (Ret tt,
          (self,
           add_event (Reply msg (Text ("Unknown command: "
                                       +:+ hd EmptyString (str_split " " (msg_body msg)))))
             w)).
Proof.
  intros Htype Hcmd. unfold message.
  destruct (decide (msg_type msg = "groupchat")); [contradiction|].
  rewrite Hcmd. reflexivity.
Qed.

(** X29: [reload] of a document that does not evaluate keeps the bot as it
    was and answers twice: with the trace of the exception being handled
    at that moment, which is none (the error of the document is not in
    it), and with the result of the command, [None]. *)
Theorem failed_reload_is_answered_without_its_error msg self w conf e :
  msg_type msg <> "groupchat" ->
  msg_body msg = "reload" ->
  docbot_config w = Some conf ->
  exec_conf conf = Raise e ->
  message spawn mkdtemp format_builddir decode exec_conf globals msg (self, w)
  = Some (Ret tt,
          (self,
           add_event (Reply msg (Text "None"))
             (add_event (Reply msg (Traceback None)) w))).
Proof.
  intros Htype Hbody Hconf Hexec. unfold message.
  destruct (decide (msg_type msg = "groupchat")); [contradiction|].
  rewrite Hbody. simpl. unfold cmdReload, reloadConfig.
  unfold mbind, M_bind, get, mret, M_ret. simpl. rewrite Hconf, Hexec. reflexivity.
Qed.
End Host.

Lemma lstrip_white c s : c ∈ whitespace -> lstrip (c +:+ s) = lstrip s.
Proof.
  intros H. unfold whitespace in H. cbn in H.
  repeat (apply elem_of_cons in H; destruct H as [-> | H]; [reflexivity|]).
  apply elem_of_nil in H. contradiction.
Qed.

Lemma lstrip_rev_white c s :
  c ∈ whitespace -> lstrip_rev (String.rev_app c s) = lstrip_rev s.
Proof.
  intros H. unfold whitespace in H. cbn in H.
  repeat (apply elem_of_cons in H; destruct H as [-> | H]; [reflexivity|]).
  apply elem_of_nil in H. contradiction.
Qed.

Lemma concat_cons c (cs : list string) :
  String.concat EmptyString (c :: cs) = c +:+ String.concat EmptyString cs.
Proof.
  destruct cs as [|c' cs]; [symmetry; apply StringFacts.app_nil_r' | reflexivity].
Qed.

Lemma rev_app_app (a b acc : string) :
  String.rev_app (a +:+ b) acc = String.rev_app b (String.rev_app a acc).
Proof.
  revert acc. induction a as [|x a IH]; intros acc; [reflexivity|].
  rewrite StringFacts.app_cons. simpl. apply IH.
Qed.

Lemma lstrip_whites cs s :
  Forall (fun c => c ∈ whitespace) cs ->
  lstrip (String.concat EmptyString cs +:+ s) = lstrip s.
Proof.
  induction 1 as [|c cs Hc _ IH]; [reflexivity|].
  rewrite concat_cons, StringFacts.app_assoc', (lstrip_white _ _ Hc). exact IH.
Qed.

Lemma lstrip_rev_whites cs : forall s,
  Forall (fun c => c ∈ whitespace) cs ->
  lstrip_rev (String.rev_app (String.concat EmptyString cs) s) = lstrip_rev s.
Proof.
  induction cs as [|c cs IH]; intros s H; [reflexivity|].
  inversion H as [|? ? Hc Hcs]; subst.
  rewrite concat_cons, rev_app_app, (IH _ Hcs). apply lstrip_rev_white. exact Hc.
Qed.

Lemma strip_ping ls rs :
  Forall (fun c => c ∈ whitespace) ls -> Forall (fun c => c ∈ whitespace) rs ->
  strip (String.concat EmptyString ls +:+ "ping" +:+ String.concat EmptyString rs)
  = "ping".
Proof.
  intros Hl Hr. unfold strip. rewrite (lstrip_whites ls _ Hl).
  assert (Hp : forall r, lstrip ("ping" +:+ r) = "ping" +:+ r) by reflexivity.
  rewrite Hp. unfold String.rev.
  change (String.rev_app ("ping" +:+ String.concat EmptyString rs) EmptyString)
    with (String.rev_app (String.concat EmptyString rs) "gnip").
  rewrite (lstrip_rev_whites rs _ Hr). reflexivity.
Qed.

(** X30: in a room, [ping] with any white space around it, any of the
    characters that [str.strip()] removes and any number of them, is
    answered [pong], once, unless the message is the bot's own, which is
    never answered; the bot itself is not changed. *)
Theorem room_ping_is_answered_pong msg self w ls rs :
  Forall (fun c => c ∈ whitespace) ls ->
  Forall (fun c => c ∈ whitespace) rs ->
  msg_body msg
  = String.concat EmptyString ls +:+ "ping" +:+ String.concat EmptyString rs ->
  messageMUC msg (self, w)
  = (Ret tt,
     (self, if decide (msg_mucnick msg = nick self) then w
            else add_event (Reply msg (Text "pong")) w)).
Proof.
  intros Hl Hr Hbody. unfold messageMUC.
  unfold mbind, M_bind, get. simpl.
  destruct (decide (msg_mucnick msg = nick self)); [reflexivity|].
  rewrite Hbody, (strip_ping ls rs Hl Hr). reflexivity.
Qed.

End ChatFacts.

(** ** From the configuration to the rebuilds *)

Module EndToEnd.
Import DocBot.

Section Host.
Variable spawn : nat -> command -> child.
Variable mkdtemp : list string -> string.
Variable format_builddir : string -> option string -> outcome string.
Variable decode : bytes -> outcome string.
Variable exec_conf : string -> outcome namespace.

End Host.
End EndToEnd.

(** ** Instances *)


Lemma build_leaves_no_tmp_dir_witness :
  "/tmp/tmpq3x/.git"
  ∉ dirs (snd (DocBot.build
                 (fun n _ => Child None [] [] [] (if decide (n = 3) then 2 else 0)
                               (cons "/tmp/tmpq3x/.git"))
                 mkdtemp0 format_plain site (Some announce) world0)).
Proof.
  apply (BuildRunFacts.build_leaves_no_tmp_dir
           (fun n _ => Child None [] [] [] (if decide (n = 3) then 2 else 0)
                         (cons "/tmp/tmpq3x/.git"))
           mkdtemp0 format_plain site (Some announce) world0 "/tmp/tmpq3x/.git").
  - reflexivity.
  - vm_compute. reflexivity.
Defined.

Lemma do_build_runs_commands_in_order_witness :
  match Build._do_build (fails_at 1 2) (build_of site) env_site world0 with
  | (Ret _, w') => spawned w' = spawned world0 ++ Build.commands (build_of site)
  | (Raise e, w') =>
      exists k call w1,
        Build.commands (build_of site) !! k = Some call
        /\ for_each (take k (Build.commands (build_of site)))
             (fun command =>
                Popen.checked (fails_at 1 2) command (BuildEnvironment.log_func env_site))
             world0
           = (Ret tt, w1)
        /\ Popen.checked (fails_at 1 2) call (BuildEnvironment.log_func env_site) w1
           = (Raise e, w')
        /\ spawned w' = spawned world0 ++ take (S k) (Build.commands (build_of site))
  end.
Proof.
  apply (BuildRunFacts.do_build_runs_commands_in_order (fails_at 1 2) (build_of site)
           env_site world0).
  intros g buf Hg. inversion Hg; subst g. intros w. reflexivity.
Defined.

(** The same run, written out: [make site] returns, [make check] exits
    with 2 and ends the build; with the third process failing instead,
    both commands run and the build returns. *)
Example do_build_stops_at_failure :
  (let r := Build._do_build (fails_at 1 2) (build_of site) env_site world0 in
   (fst r, spawned (snd r)))
  = (Raise (CalledProcessError 2 "make check"),
     [Argv ["make"; "site"]; Argv ["make"; "check"]])
  /\ (let r := Build._do_build (fails_at 0 2)
                 (Build.Make "all" "master" []
                    [Argv ["make"; "a"]; Argv ["make"; "b"]; Argv ["make"; "c"]]
                    None docs_attrs) env_site world0 in
      (fst r, spawned (snd r)))
     = (Raise (CalledProcessError 2 "make a"), [Argv ["make"; "a"]])
  /\ (let r := Build._do_build (fails_at 2 2) (build_of site) env_site world0 in
      (fst r, spawned (snd r)))
     = (Ret tt, [Argv ["make"; "site"]; Argv ["make"; "check"]]).
Proof. repeat split; vm_compute; reflexivity. Qed.

Lemma move_runs_rm_then_mv_witness :
  exists source,
    match BuildAndMove.move_from site_build with
    | Some template =>
        format_plain template (BuildEnvironment.tmp_dir env_site) = Ret source
    | None => BuildEnvironment.tmp_dir env_site = Some source
    end
    /\ spawned (snd (BuildAndMove._do_build (fun _ _ => exits 0) format_plain site_build
                       env_site world0))
       = spawned world0 ++ Build.commands (BuildAndMove.base site_build)
         ++ [Argv ["rm"; "-rf"; BuildAndMove.move_to site_build];
             Argv ["mv"; source; BuildAndMove.move_to site_build]].
Proof.
  apply (BuildRunFacts.move_runs_rm_then_mv (fun _ _ => exits 0) format_plain site_build
           env_site world0).
  - intros g buf Hg. inversion Hg; subst g. intros w. reflexivity.
  - vm_compute. reflexivity.
Defined.

Lemma project_owns_its_builds_witness :
  length taken_builds = length fresh_builds
  /\ (forall a c,
        fresh_builds !! a = Some c ->
        taken_builds !! a
        = Some (Cell (cell_made c)
                  (if bool_decide (a ∈ [0; 1]) then Some (Project.attrs docs)
                   else cell_project c)))
  /\ Project.builds docs
     = omap (fun a => c ← fresh_builds !! a; Some (cell_made c (Project.attrs docs)))
         [0; 1].
Proof.
  apply (BuildRunFacts.project_owns_its_builds "docs" [0; 1]
           (Some "git://example.org/docs.git") (Some "docs.git") None
           fresh_builds docs taken_builds).
  reflexivity.
Defined.

(** A build that is handed to two projects belongs to the second: once
    [manual] has been made with [html], the project [docs], read again,
    holds a build [html] whose project is [manual], and the rebuild of
    that build is announced for the project [manual]. *)
Example shared_build_belongs_to_last_project :
  match Project.__init__ "manual" [0] (Some "git://example.org/manual.git")
          (Some "manual.git") None taken_builds with
  | Declared (manual, h) =>
      Project.attrs manual = manual_attrs
      /\ map (fun b => (Build.name (build_of b), Build.project (build_of b)))
           (Project.builds (Project.read h docs_attrs [0; 1]))
         = [("html", manual_attrs); ("site", docs_attrs)]
      /\ map topic_of (Project.builds (Project.read h docs_attrs [0; 1]))
         = ["Rebuilding html from project manual"; "Rebuilding site from project docs"]
  | ValueError _ => False
  end.
Proof. vm_compute. repeat split. Qed.

Lemma reload_builds_dispatch_table_witness :
  dict_get ("docs.git", "master")
    (DocBot.repobranch_map (fst (snd (DocBot.reloadConfig exec_docs (bot0, world0)))))
  = listed (concerned "docs.git" "master"
              (map snd (DocBot.projects
                          (fst (snd (DocBot.reloadConfig exec_docs (bot0, world0))))))).
Proof.
  apply (DispatchFacts.reload_builds_dispatch_table exec_docs bot0 world0 "projects = []"
           (Namespace (Some ["alice@example.org"; "carol@example.org"; "alice@example.org"])
              (Some [("docs", docs)]))
           "docs.git" "master").
  - reflexivity.
  - reflexivity.
Defined.

Lemma reload_keeps_last_declaration_witness :
  dict_get "docs"
    (DocBot.projects (fst (snd (DocBot.reloadConfig exec_twice (bot0, world0)))))
  = dict_get "docs"
      (reverse (default []
         (ns_projects (Namespace None (Some [("docs", docs_draft); ("docs", docs)]))))).
Proof.
  apply (DispatchFacts.reload_keeps_last_declaration exec_twice bot0 world0 "projects = []"
           (Namespace None (Some [("docs", docs_draft); ("docs", docs)])) "docs").
  - reflexivity.
  - reflexivity.
Defined.

(** The same reload, written out: the one entry [docs] stands for the
    project declared last, and the dispatch table is built from it alone. *)
Example reload_replaces_earlier_declaration :
  (let self := fst (snd (DocBot.reloadConfig exec_twice (bot0, world0))) in
   (DocBot.projects self, map fst (DocBot.repobranch_map self)))
  = ([("docs", docs)], [("docs.git", "master")]).
Proof. vm_compute. reflexivity. Qed.

Lemma reload_resets_authorization_witness :
  let self' := fst (snd (DocBot.reloadConfig exec_docs
                           (with_auth [] ["bob@example.org"] bot0, world0))) in
  NoDup (DocBot.authorized self')
  /\ (forall who, who ∈ DocBot.authorized self'
                  <-> who ∈ default []
                        (ns_authorized (Namespace
                           (Some ["alice@example.org"; "carol@example.org";
                                  "alice@example.org"])
                           (Some [("docs", docs)]))))
  /\ DocBot.blacklist self' = []
  /\ DocBot.switch self' = DocBot.switch (with_auth [] ["bob@example.org"] bot0)
  /\ DocBot.bots_switch self' = DocBot.bots_switch (with_auth [] ["bob@example.org"] bot0)
  /\ DocBot.nick self' = DocBot.nick (with_auth [] ["bob@example.org"] bot0).
Proof.
  apply (DispatchFacts.reload_resets_authorization exec_docs
           (with_auth [] ["bob@example.org"] bot0) world0 "projects = []"
           (Namespace (Some ["alice@example.org"; "carol@example.org"; "alice@example.org"])
              (Some [("docs", docs)]))).
  - reflexivity.
  - reflexivity.
Defined.

Lemma message_never_raises_witness :
  exists s',
    DocBot.message (fun _ _ => exits 0) mkdtemp0 format_plain decode_ascii exec_example
      docbot_globals (chat "bob@example.org" "rebuild 'docs'") (bot0, world0)
    = Some (Ret tt, s').
Proof.
  apply (ChatFacts.message_never_raises (fun _ _ => exits 0) mkdtemp0 format_plain
           decode_ascii exec_example docbot_globals
           (chat "bob@example.org" "rebuild 'docs'") (bot0, world0)
           [ELit (VStr "docs")]).
  - vm_compute. reflexivity.
  - reflexivity.
Defined.

(** What is answered to messages that raise inside: a configured project,
    a name that is not bound, too many arguments, a document that does
    not evaluate. *)
Example raising_commands_are_answered :
  replied (handle bot0 "bob@example.org" "rebuild 'docs'")
  = Some [Traceback (Some (AttributeError "project"))]
  /\ replied (handle bot0 "bob@example.org" "rebuild docs")
     = Some [Traceback (Some (NameError "docs"))]
  /\ replied (handle bot0 "bob@example.org" "reload 1 2")
     = Some [Traceback (Some (TypeError "cmdReload"))]
  /\ option_map (fun r => replies (snd (snd r)))
       (DocBot.message (fun _ _ => exits 0) mkdtemp0 format_plain decode_ascii
          exec_example docbot_globals (chat "bob@example.org" "reload")
          (bot0, mkWorld [] "/" [] [] (config_in "/" "projects = [")))
     = Some [Traceback None; Text "None"].
Proof. repeat split; vm_compute; reflexivity. Qed.

Lemma unknown_command_is_answered_witness :
  handle bot0 "bob@example.org" "status docs"
  = Some (Ret tt,
          (bot0,
           add_event (Reply (chat "bob@example.org" "status docs")
                        (Text ("Unknown command: "
                               +:+ hd EmptyString
                                     (str_split " "
                                        (msg_body (chat "bob@example.org" "status docs"))))))
             world0)).
Proof.
  apply (ChatFacts.unknown_command_is_answered (fun _ _ => exits 0) mkdtemp0 format_plain
           decode_ascii exec_example docbot_globals
           (chat "bob@example.org" "status docs") bot0 world0).
  - vm_compute. discriminate.
  - vm_compute. reflexivity.
Defined.

Lemma failed_reload_is_answered_without_its_error_witness :
  DocBot.message (fun _ _ => exits 0) mkdtemp0 format_plain decode_ascii exec_example
    docbot_globals (chat "bob@example.org" "reload")
    (bot0, mkWorld [] "/" [] [] (config_in "/" "projects = ["))
  = Some (Ret tt,
          (bot0,
           add_event (Reply (chat "bob@example.org" "reload") (Text "None"))
             (add_event (Reply (chat "bob@example.org" "reload") (Traceback None))
                (mkWorld [] "/" [] [] (config_in "/" "projects = ["))))).
Proof.
  apply (ChatFacts.failed_reload_is_answered_without_its_error (fun _ _ => exits 0)
           mkdtemp0 format_plain decode_ascii exec_example docbot_globals
           (chat "bob@example.org" "reload") bot0
           (mkWorld [] "/" [] [] (config_in "/" "projects = [")) "projects = [" SyntaxError).
  - vm_compute. discriminate.
  - reflexivity.
  - reflexivity.
  - vm_compute. reflexivity.
Defined.

Lemma room_ping_is_answered_pong_witness :
  DocBot.messageMUC
    (room_message "carol"
       (String.concat EmptyString [utf8 [32]; utf8 [226; 128; 131]] +:+ "ping"
        +:+ String.concat EmptyString [utf8 [194; 160]; utf8 [10]]))
    (bot0, world0)
  = (Ret tt,
     (bot0,
      if decide (msg_mucnick
                   (room_message "carol"
                      (String.concat EmptyString [utf8 [32]; utf8 [226; 128; 131]]
                       +:+ "ping"
                       +:+ String.concat EmptyString [utf8 [194; 160]; utf8 [10]]))
                 = DocBot.nick bot0)
      then world0
      else add_event
             (Reply (room_message "carol"
                       (String.concat EmptyString [utf8 [32]; utf8 [226; 128; 131]]
                        +:+ "ping"
                        +:+ String.concat EmptyString [utf8 [194; 160]; utf8 [10]]))
                (Text "pong")) world0)).
Proof.
  apply (ChatFacts.room_ping_is_answered_pong
           (room_message "carol"
              (String.concat EmptyString [utf8 [32]; utf8 [226; 128; 131]] +:+ "ping"
               +:+ String.concat EmptyString [utf8 [194; 160]; utf8 [10]]))
           bot0 world0
           [utf8 [32]; utf8 [226; 128; 131]] [utf8 [194; 160]; utf8 [10]]).
  - repeat constructor; vm_compute; repeat constructor.
  - repeat constructor; vm_compute; repeat constructor.
  - reflexivity.
Defined.

(** What [strip] removes and what it keeps: a no-break space after the
    word is removed, one inside is kept, and so is a byte that only looks
    like the end of a whitespace character. *)
Example strip_examples :
  strip ("ping" +:+ utf8 [194; 160]) = "ping"
  /\ strip (utf8 [226; 128; 168] +:+ "ping" +:+ utf8 [9; 32]) = "ping"
  /\ strip ("pi" +:+ utf8 [194; 160] +:+ "ng") = "pi" +:+ utf8 [194; 160] +:+ "ng"
  /\ strip ("ping" +:+ utf8 [195; 160]) = "ping" +:+ utf8 [195; 160].
Proof. repeat split; vm_compute; reflexivity. Qed.

(** The host [format_plain] on some templates. *)
Example format_plain_examples :
  format_plain "{builddir}/_build/html" (Some "/tmp/tmpq3x") = Ret "/tmp/tmpq3x/_build/html"
  /\ format_plain "/srv/{{docs}}" (Some "/tmp/tmpq3x") = Ret "/srv/{docs}"
  /\ format_plain "/srv/docs" (Some "/tmp/tmpq3x") = Ret "/srv/docs"
  /\ format_plain "{dir}/html" (Some "/tmp/tmpq3x") = Raise KeyError
  /\ format_plain "{}/html" (Some "/tmp/tmpq3x") = Raise IndexError
  /\ format_plain "html}" (Some "/tmp/tmpq3x") = Raise (ValueError_format "brace").
Proof. repeat split; vm_compute; reflexivity. Qed.

(** A build that moves a part of its directory: the source of the [mv] is
    the template formatted with the directory of the environment. *)
Example move_from_template :
  spawned (snd (BuildAndMove._do_build (fun _ _ => exits 0) format_plain
                  (BuildAndMove.Make (build_of site) "/var/www/site"
                     (Some "{builddir}/_build/html"))
                  env_site world0))
  = [Argv ["make"; "site"]; Argv ["make"; "check"];
     Argv ["rm"; "-rf"; "/var/www/site"];
     Argv ["mv"; "/tmp/tmpq3x/_build/html"; "/var/www/site"]].
Proof. vm_compute. reflexivity. Qed.

(** A reload after a build.  The build has changed to its directory and
    the bot stays there; here the directory was a temporary one and is
    gone, so [open("docbot_config.py")] finds nothing and the command
    [reload] is answered with the trace of the error. *)
Example reload_after_build :
  let w1 := snd (DocBot.pubsubPublish (fun _ _ => exits 0) mkdtemp0 format_plain
                   decode_ascii bot0
                   (Notification (Some "docs.git") (Some "refs/heads/master")) world0) in
  docbot_config world0 = Some "projects = []"
  /\ cwd w1 = "/tmp/tmpq3x"
  /\ docbot_config w1 = None
  /\ replied (DocBot.message (fun _ _ => exits 0) mkdtemp0 format_plain decode_ascii
                exec_example docbot_globals (chat "bob@example.org" "reload") (bot0, w1))
     = Some [Traceback (Some (OSError "open"))].
Proof. repeat split; vm_compute; reflexivity. Qed.
